(** * DERT_Leads2: the lead form, the leads list and the dashboard

    A shallow embedding of
      - src/components/forms/LeadForm.tsx   (calculatedAmount, the
        potential_amount effect, handleProductToggle, handleServiceToggle,
        the follow-up checkbox, the inputs' constraints, handleSubmit),
      - the leads list component            (handleDelete, handleStatusChange),
      - the dashboard component             (fetchLeads, filteredLeads and
        the callbacks of the list and the form),
      - the tables, column types, constraints and row-level-security
        policies of supabase/migrations/*.sql.

    Conventions of the model.
      - A JavaScript [number] that holds an amount of money (price,
        potential_amount) is a binary64 [float]: [+] is [PrimFloat.add],
        [> 0] is [PrimFloat.ltb 0], and the dependency test of an effect
        ([Object.is]) is [PrimFloat.Leibniz.eqb].  The integers the form makes
        with [parseInt(..) || 0] (lead_score, pincode) are in [Z].
      - A string is a [string], the bytes of the text in UTF-8; on
        well-formed text [includes] finds the same occurrences on bytes as on
        UTF-16 code units.
      - A nullable column or property is an [option].
      - What the code takes from its platform is taken as given, with the
        few facts the properties need: [String.prototype.toLowerCase]
        ([JsEngine]); how PostgreSQL reads a [date] and a [decimal(10,2)]
        and in which order [ORDER BY] returns rows of equal score
        ([Postgres]).  A property holds for every engine and every backend
        with these facts; the examples run on [sampleEngine] and
        [samplePostgres].
      - The backend is a state of tables.  A request either fails in
        transport (scripted by the [net] field of the world) or is answered
        from the tables under the column types, constraints and policies
        written in the migrations.
      - React state is explicit: a handler is a function of the component's
        state and of the world. *)

From Stdlib Require Import ZArith List String Ascii Bool Lia Permutation Sorted.
From Stdlib Require Import Floats.
Import ListNotations.

Open Scope string_scope.
Open Scope list_scope.
Open Scope Z_scope.

(* ===================================================================== *)
(** ** JavaScript idioms used by the components *)
(* ===================================================================== *)

(** [x || 0] on an integer that may be undefined, null or NaN: they and 0
    are falsy. *)
Definition or_zero (x : option Z) : Z :=
  match x with
  | Some v => if v =? 0 then 0 else v
  | None => 0
  end.

(** Truthiness of a number: 0, -0 and NaN are falsy. *)
Definition truthyNumber (x : float) : bool := negb (is_zero x || is_nan x).

(** [x || 0] on a number. *)
Definition num_or_zero (x : float) : float :=
  if truthyNumber x then x else 0%float.

(** [s || ''] on a string that may be null. *)
Definition or_empty (x : option string) : string :=
  match x with
  | Some s => s
  | None => ""
  end.

(** [b || false] on a boolean that may be null. *)
Definition or_false (x : option bool) : bool :=
  match x with
  | Some b => b
  | None => false
  end.

(** Truthiness of a string: only the empty string is falsy. *)
Definition truthy (s : string) : bool := negb (s =? "")%string.

(** [t] is a prefix of [s]. *)
Fixpoint startsWith (s t : string) : bool :=
  match t, s with
  | EmptyString, _ => true
  | String _ _, EmptyString => false
  | String b t', String a s' => Ascii.eqb a b && startsWith s' t'
  end.

(** [s.includes(t)]: [t] occurs in [s] at some position. *)
Fixpoint includes (s t : string) : bool :=
  startsWith s t ||
  match s with
  | EmptyString => false
  | String _ s' => includes s' t
  end.

(** [Array.prototype.includes] on an array of ids. *)
Definition arr_includes (l : list string) (x : string) : bool :=
  existsb (fun y => (y =? x)%string) l.

(** [Array.prototype.find]. *)
Definition arr_find {A : Type} (p : A -> bool) (l : list A) : option A :=
  List.find p l.

(** The lower-case form of a character of ASCII: A-Z go to a-z. *)
Definition lower_ascii (c : ascii) : ascii :=
  let n := nat_of_ascii c in
  if (65 <=? n)%nat && (n <=? 90)%nat then ascii_of_nat (n + 32) else c.

(** The lower-case form of a text of ASCII. *)
Fixpoint asciiLower (s : string) : string :=
  match s with
  | EmptyString => EmptyString
  | String c r => String (lower_ascii c) (asciiLower r)
  end.

(** The text has ASCII characters only (bytes below 128). *)
Fixpoint isAscii (s : string) : bool :=
  match s with
  | EmptyString => true
  | String c r => (nat_of_ascii c <? 128)%nat && isAscii r
  end.

(** [String.prototype.toLowerCase] of the engine the components run on.
    It follows Unicode's case mappings, some of which change the length of
    a text or depend on what surrounds a letter; the model takes the
    function as given, with two facts: the empty string stays empty, and on
    ASCII text only the letters A-Z change. *)
Class JsEngine := {
  toLowerCase : string -> string;
  toLowerCase_empty : toLowerCase "" = "";
  toLowerCase_ascii :
    forall s, isAscii s = true -> toLowerCase s = asciiLower s
}.

(* ===================================================================== *)
(** ** Row types (lib/supabase.ts) *)
(* ===================================================================== *)

Inductive LeadType := Individual | Business | HousingSociety | Agent.
Inductive ModelType := Purchase | Rent | IndividualHomeKit.
Inductive LeadStatus := New | Closed | InProgress.

(** The string each member of the union types is at run time. *)
Definition lead_type_str (t : LeadType) : string :=
  match t with
  | Individual => "Individual"
  | Business => "Business"
  | HousingSociety => "Housing-Society"
  | Agent => "Agent"
  end.

Definition model_type_str (t : ModelType) : string :=
  match t with
  | Purchase => "Purchase"
  | Rent => "Rent"
  | IndividualHomeKit => "Individual Home-kit"
  end.

Definition status_str (t : LeadStatus) : string :=
  match t with
  | New => "New"
  | Closed => "Closed"
  | InProgress => "In-Progress"
  end.

(** [products.Row] and [services.Row] have the same shape. *)
Record CatalogItem := mkItem {
  item_id : string;
  item_name : string;
  item_description : option string;
  price : float;
  is_active : bool
}.

Definition Product := CatalogItem.
Definition Service := CatalogItem.

(** [leads.Row], as a select returns it. *)
Record Lead := mkLead {
  id : string;
  user_id : string;
  full_name : string;
  email : string;
  phone : option string;
  company : option string;
  lead_type : LeadType;
  model_type : ModelType;
  lead_score : Z;
  status : LeadStatus;
  potential_amount : float;
  notes : option string;
  address : string;
  location_url : option string;
  pincode : option Z;
  follow_up : option bool;
  follow_up_date : option string;
  follow_up_notes : option string;
  lead_sealed : option bool;
  created_at : string;
  updated_at : string
}.

(** A row of [lead_products] or [lead_services]; the surrogate key and the
    creation time of the link are left out. *)
Record Link := mkLink {
  link_lead : string;
  link_item : string;
  quantity : Z
}.

(** The [formData] state of LeadForm. *)
Record FormData := mkForm {
  f_full_name : string;
  f_email : string;
  f_phone : string;
  f_company : string;
  f_lead_type : LeadType;
  f_model_type : ModelType;
  f_lead_score : Z;
  f_status : LeadStatus;
  f_potential_amount : float;
  f_notes : string;
  f_address : string;
  f_location_url : string;
  f_pincode : Z;
  f_follow_up : bool;
  f_follow_up_date : string;
  f_follow_up_notes : string;
  f_lead_sealed : bool
}.

(** The initial value of [useState] for [formData]. *)
Definition initialFormData : FormData :=
  {| f_full_name := ""; f_email := ""; f_phone := ""; f_company := "";
     f_lead_type := Individual; f_model_type := Purchase; f_lead_score := 0;
     f_status := New; f_potential_amount := 0%float; f_notes := "";
     f_address := ""; f_location_url := ""; f_pincode := 0;
     f_follow_up := false; f_follow_up_date := ""; f_follow_up_notes := "";
     f_lead_sealed := false |}.

(** The [setFormData] call of the [useEffect] on [lead]. *)
Definition formDataOfLead (lead : Lead) : FormData :=
  {| f_full_name := full_name lead;
     f_email := email lead;
     f_phone := or_empty (phone lead);
     f_company := or_empty (company lead);
     f_lead_type := lead_type lead;
     f_model_type := model_type lead;
     f_lead_score := lead_score lead;
     f_status := status lead;
     f_potential_amount := potential_amount lead;
     f_notes := or_empty (notes lead);
     f_address := address lead;
     f_location_url := or_empty (location_url lead);
     f_pincode := or_zero (pincode lead);
     f_follow_up := or_false (follow_up lead);
     f_follow_up_date := or_empty (follow_up_date lead);
     f_follow_up_notes := or_empty (follow_up_notes lead);
     f_lead_sealed := or_false (lead_sealed lead) |}.

(* ===================================================================== *)
(** ** LeadForm: the amount calculator and the selection toggles *)
(* ===================================================================== *)

(** [products.find(p => p.id === productId)?.price || 0]. *)
Definition priceOf (catalog : list CatalogItem) (itemId : string) : float :=
  match arr_find (fun p => (item_id p =? itemId)%string) catalog with
  | Some p => num_or_zero (price p)
  | None => 0%float
  end.

(** The [useMemo] of LeadForm: two [reduce]s from 0, then their sum. *)
Definition calculatedAmount
    (selectedProducts selectedServices : list string)
    (products : list Product) (services : list Service) : float :=
  let productTotal :=
    fold_left (fun sum productId => (sum + priceOf products productId)%float)
              selectedProducts 0%float in
  let serviceTotal :=
    fold_left (fun sum serviceId => (sum + priceOf services serviceId)%float)
              selectedServices 0%float in
  (productTotal + serviceTotal)%float.

(** The updater passed to [setSelectedProducts] by [handleProductToggle]. *)
Definition handleProductToggle (productId : string) (prev : list string)
    : list string :=
  if arr_includes prev productId
  then filter (fun i => negb (i =? productId)%string) prev
  else prev ++ [productId].

(** The updater passed to [setSelectedServices] by [handleServiceToggle]. *)
Definition handleServiceToggle (serviceId : string) (prev : list string)
    : list string :=
  if arr_includes prev serviceId
  then filter (fun i => negb (i =? serviceId)%string) prev
  else prev ++ [serviceId].

Definition set_potential_amount (v : float) (fd : FormData) : FormData :=
  {| f_full_name := f_full_name fd; f_email := f_email fd;
     f_phone := f_phone fd; f_company := f_company fd;
     f_lead_type := f_lead_type fd; f_model_type := f_model_type fd;
     f_lead_score := f_lead_score fd; f_status := f_status fd;
     f_potential_amount := v; f_notes := f_notes fd;
     f_address := f_address fd; f_location_url := f_location_url fd;
     f_pincode := f_pincode fd; f_follow_up := f_follow_up fd;
     f_follow_up_date := f_follow_up_date fd;
     f_follow_up_notes := f_follow_up_notes fd;
     f_lead_sealed := f_lead_sealed fd |}.

(** [!lead]. *)
Definition isNew (lead : option Lead) : bool :=
  match lead with
  | Some _ => false
  | None => true
  end.

(** The body of the effect on [calculatedAmount, lead]. *)
Definition autoUpdateAmount (lead : option Lead) (calculated : float)
    (prev : FormData) : FormData :=
  if isNew lead && (0 <? calculated)%float
  then set_potential_amount calculated prev
  else prev.

(** The [readOnly] attribute of the potential_amount input. *)
Definition amountReadOnly (lead : option Lead) (calculated : float) : bool :=
  isNew lead && (0 <? calculated)%float.

(** The [onChange] of the potential_amount input:
    [parseFloat(e.target.value) || 0]; a read-only input takes no edit. *)
Definition editAmount (lead : option Lead) (calculated : float)
    (parsed : float) (prev : FormData) : FormData :=
  if amountReadOnly lead calculated then prev
  else set_potential_amount (num_or_zero parsed) prev.

(** The [onChange] of the follow-up checkbox. *)
Definition followUpChange (checked : bool) (prev : FormData) : FormData :=
  {| f_full_name := f_full_name prev; f_email := f_email prev;
     f_phone := f_phone prev; f_company := f_company prev;
     f_lead_type := f_lead_type prev; f_model_type := f_model_type prev;
     f_lead_score := f_lead_score prev; f_status := f_status prev;
     f_potential_amount := f_potential_amount prev; f_notes := f_notes prev;
     f_address := f_address prev; f_location_url := f_location_url prev;
     f_pincode := f_pincode prev;
     f_follow_up := checked;
     f_follow_up_date := if checked then f_follow_up_date prev else "";
     f_follow_up_notes := if checked then f_follow_up_notes prev else "";
     f_lead_sealed := f_lead_sealed prev |}.

(* ===================================================================== *)
(** ** LeadForm: the component state and its input events *)
(* ===================================================================== *)

Inductive TextField :=
| Address | LocationUrl | FullName | Email | Phone | Company | Notes
| FollowUpDate | FollowUpNotes.

(** [setFormData(prev => ({ ...prev, <field>: e.target.value }))]. *)
Definition set_text (k : TextField) (v : string) (fd : FormData) : FormData :=
  {| f_full_name := match k with FullName => v | _ => f_full_name fd end;
     f_email := match k with Email => v | _ => f_email fd end;
     f_phone := match k with Phone => v | _ => f_phone fd end;
     f_company := match k with Company => v | _ => f_company fd end;
     f_lead_type := f_lead_type fd; f_model_type := f_model_type fd;
     f_lead_score := f_lead_score fd; f_status := f_status fd;
     f_potential_amount := f_potential_amount fd;
     f_notes := match k with Notes => v | _ => f_notes fd end;
     f_address := match k with Address => v | _ => f_address fd end;
     f_location_url := match k with LocationUrl => v | _ => f_location_url fd end;
     f_pincode := f_pincode fd; f_follow_up := f_follow_up fd;
     f_follow_up_date :=
       match k with FollowUpDate => v | _ => f_follow_up_date fd end;
     f_follow_up_notes :=
       match k with FollowUpNotes => v | _ => f_follow_up_notes fd end;
     f_lead_sealed := f_lead_sealed fd |}.

(** The selects, the two integer inputs and the sealed checkbox. *)
Inductive ChoiceField :=
| SetLeadType (t : LeadType)
| SetModelType (t : ModelType)
| SetStatus (s : LeadStatus)
| SetLeadScore (parsed : option Z)     (* parseInt(e.target.value) || 0 *)
| SetPincode (parsed : option Z)       (* parseInt(e.target.value) || 0 *)
| SetLeadSealed (checked : bool).

Definition set_choice (c : ChoiceField) (fd : FormData) : FormData :=
  {| f_full_name := f_full_name fd; f_email := f_email fd;
     f_phone := f_phone fd; f_company := f_company fd;
     f_lead_type := match c with SetLeadType t => t | _ => f_lead_type fd end;
     f_model_type :=
       match c with SetModelType t => t | _ => f_model_type fd end;
     f_lead_score :=
       match c with SetLeadScore p => or_zero p | _ => f_lead_score fd end;
     f_status := match c with SetStatus s => s | _ => f_status fd end;
     f_potential_amount := f_potential_amount fd; f_notes := f_notes fd;
     f_address := f_address fd; f_location_url := f_location_url fd;
     f_pincode := match c with SetPincode p => or_zero p | _ => f_pincode fd end;
     f_follow_up := f_follow_up fd;
     f_follow_up_date := f_follow_up_date fd;
     f_follow_up_notes := f_follow_up_notes fd;
     f_lead_sealed :=
       match c with SetLeadSealed b => b | _ => f_lead_sealed fd end |}.

(** The state hooks of LeadForm that the handlers read or write. *)
Record FormState := mkFormState {
  formData : FormData;
  selectedProducts : list string;
  selectedServices : list string;
  products : list Product;
  services : list Service
}.

(** The state after mounting: the hooks' initial values, then the effect on
    [lead], which loads the lead being edited. *)
Definition openForm (lead : option Lead) : FormState :=
  {| formData := match lead with
                 | Some l => formDataOfLead l
                 | None => initialFormData
                 end;
     selectedProducts := []; selectedServices := [];
     products := []; services := [] |}.

Definition calculated (st : FormState) : float :=
  calculatedAmount (selectedProducts st) (selectedServices st)
                   (products st) (services st).

Definition with_formData (fd : FormData) (st : FormState) : FormState :=
  {| formData := fd;
     selectedProducts := selectedProducts st;
     selectedServices := selectedServices st;
     products := products st; services := services st |}.

(** The events of the form: a change of an input, a click on the card of
    an item (one call of the toggle), the arrival of a fetched catalog. *)
Inductive FormEvent :=
| ChangeText (k : TextField) (v : string)
| ChangeChoice (c : ChoiceField)
| ChangeAmount (parsed : float)         (* parseFloat(e.target.value) *)
| ChangeFollowUp (checked : bool)
| ClickProduct (productId : string)
| ClickService (serviceId : string)
| ProductsFetched (data : list Product)
| ServicesFetched (data : list Service).

(** Whether the control an event comes from is on the page: the cards of
    the fetched items are rendered for a new lead only, the follow-up date
    and notes only while the follow-up box is checked. *)
Definition rendered (lead : option Lead) (st : FormState) (ev : FormEvent)
    : bool :=
  match ev with
  | ChangeText FollowUpDate _ | ChangeText FollowUpNotes _ =>
      f_follow_up (formData st)
  | ClickProduct i =>
      isNew lead && existsb (fun p => (item_id p =? i)%string) (products st)
  | ClickService i =>
      isNew lead && existsb (fun s => (item_id s =? i)%string) (services st)
  | _ => true
  end.

(** The state update an event's handler makes. *)
Definition handleEvent (lead : option Lead) (ev : FormEvent) (st : FormState)
    : FormState :=
  match ev with
  | ChangeText k v => with_formData (set_text k v (formData st)) st
  | ChangeChoice c => with_formData (set_choice c (formData st)) st
  | ChangeAmount p =>
      with_formData (editAmount lead (calculated st) p (formData st)) st
  | ChangeFollowUp b => with_formData (followUpChange b (formData st)) st
  | ClickProduct i =>
      {| formData := formData st;
         selectedProducts := handleProductToggle i (selectedProducts st);
         selectedServices := selectedServices st;
         products := products st; services := services st |}
  | ClickService i =>
      {| formData := formData st;
         selectedProducts := selectedProducts st;
         selectedServices := handleServiceToggle i (selectedServices st);
         products := products st; services := services st |}
  | ProductsFetched data =>
      {| formData := formData st;
         selectedProducts := selectedProducts st;
         selectedServices := selectedServices st;
         products := data; services := services st |}
  | ServicesFetched data =>
      {| formData := formData st;
         selectedProducts := selectedProducts st;
         selectedServices := selectedServices st;
         products := products st; services := data |}
  end.

(** One event: the handler's update, then the effect on [calculatedAmount],
    which React runs again when that value has changed ([Object.is]). *)
Definition formStep (lead : option Lead) (st : FormState) (ev : FormEvent)
    : FormState :=
  if rendered lead st ev then
    let st' := handleEvent lead ev st in
    if PrimFloat.Leibniz.eqb (calculated st') (calculated st) then st'
    else with_formData
           (autoUpdateAmount lead (calculated st') (formData st')) st'
  else st.

Definition formRun (lead : option Lead) (evs : list FormEvent)
    : FormState :=
  fold_left (formStep lead) evs (openForm lead).

(** The constraints [min="0"] and [max="100"] of the lead_score input. *)
Definition scoreInputValid (fd : FormData) : bool :=
  (0 <=? f_lead_score fd) && (f_lead_score fd <=? 100).

(* ===================================================================== *)
(** ** The backend: tables, column types, constraints and policies *)
(* ===================================================================== *)

(** The error of a response [{ data, error }]. *)
Inductive PgError :=
| DataException         (* class 22: a column's type refuses the value sent
                           (22007 for a date, 22003 for a number out of range) *)
| CheckViolation        (* 23514: CHECK (lead_score >= 0 AND lead_score <= 100) *)
| ForeignKeyViolation   (* 23503: REFERENCES products(id) / services(id) *)
| UniqueViolation       (* 23505: PRIMARY KEY, UNIQUE(lead_id, product_id) *)
| RlsViolation          (* 42501: a policy's check refuses the new row *)
| NoRows                (* PGRST116: .single() on a result of zero or several rows *)
| Unavailable.          (* the request did not reach the backend *)

Record Db := mkDb {
  products_tbl : list CatalogItem;
  services_tbl : list CatalogItem;
  leads : list Lead;
  lead_products : list Link;
  lead_services : list Link
}.

Definition with_leads (ls : list Lead) (d : Db) : Db :=
  {| products_tbl := products_tbl d; services_tbl := services_tbl d;
     leads := ls;
     lead_products := lead_products d; lead_services := lead_services d |}.

Definition with_lead_products (ps : list Link) (d : Db) : Db :=
  {| products_tbl := products_tbl d; services_tbl := services_tbl d;
     leads := leads d;
     lead_products := ps; lead_services := lead_services d |}.

Definition with_lead_services (ss : list Link) (d : Db) : Db :=
  {| products_tbl := products_tbl d; services_tbl := services_tbl d;
     leads := leads d;
     lead_products := lead_products d; lead_services := ss |}.

(** Descending lead_score. *)
Definition scoreDesc (a b : Lead) : Prop := lead_score b <= lead_score a.

(** What the model takes from PostgreSQL (behind PostgREST and JSON).

    [date_in s] is the reading of the string [s] sent for the column
    [follow_up_date date]: [None] when the column refuses it, [Some d] when
    it is stored, [d] being the string a later select returns.  The empty
    string is no date.

    [numeric_10_2 x] is the same for a number sent for
    [potential_amount decimal(10,2)]; the column rounds to two decimals and
    holds less than 10^8 in absolute value.  (JSON has no NaN and no
    infinity; for them the answer is the one for the null sent in their
    place.)

    [order_by_score_desc rows] is [rows] as [ORDER BY lead_score DESC]
    returns them: sorted, in an order of the rows of equal score that is
    the backend's choice. *)
Class Postgres := {
  date_in : string -> option string;
  date_in_empty : date_in "" = None;
  numeric_10_2 : float -> option float;
  numeric_10_2_overflow :
    forall x, is_finite x = true -> (abs x <? 100000000)%float = false ->
              numeric_10_2 x = None;
  order_by_score_desc : list Lead -> list Lead;
  order_by_score_desc_perm :
    forall rows, Permutation (order_by_score_desc rows) rows;
  order_by_score_desc_sorted :
    forall rows, StronglySorted scoreDesc (order_by_score_desc rows)
}.

Section Model.

Context {js : JsEngine} {pg : Postgres}.

(** The range of the column type [integer] of lead_score. *)
Definition int4 (n : Z) : bool := (-2147483648 <=? n) && (n <=? 2147483647).

Definition with_columns (date : string) (amount : float) (fd : FormData)
    : FormData :=
  {| f_full_name := f_full_name fd; f_email := f_email fd;
     f_phone := f_phone fd; f_company := f_company fd;
     f_lead_type := f_lead_type fd; f_model_type := f_model_type fd;
     f_lead_score := f_lead_score fd; f_status := f_status fd;
     f_potential_amount := amount; f_notes := f_notes fd;
     f_address := f_address fd; f_location_url := f_location_url fd;
     f_pincode := f_pincode fd; f_follow_up := f_follow_up fd;
     f_follow_up_date := date;
     f_follow_up_notes := f_follow_up_notes fd;
     f_lead_sealed := f_lead_sealed fd |}.

(** The payload [{ ...formData }] as the columns of [leads] take it: the
    date and the amount as their columns read them, [None] when the type of
    a column refuses its value.  (The other values are texts, booleans,
    members of the enum types and a [numeric] without bounds.) *)
Definition columns (fd : FormData) : option FormData :=
  match date_in (f_follow_up_date fd),
        numeric_10_2 (f_potential_amount fd) with
  | Some date, Some amount =>
      if int4 (f_lead_score fd) then Some (with_columns date amount fd)
      else None
  | _, _ => None
  end.

(** [CHECK (lead_score >= 0 AND lead_score <= 100)]. *)
Definition lead_score_check (score : Z) : bool :=
  (0 <=? score) && (score <=? 100).

(** The row an insert of the values [cols] and of [user_id] makes: [id]
    defaults to [gen_random_uuid()], [created_at] and [updated_at] to
    [now()]. *)
Definition insertedLead (newId now owner : string) (cols : FormData) : Lead :=
  {| id := newId; user_id := owner;
     full_name := f_full_name cols; email := f_email cols;
     phone := Some (f_phone cols); company := Some (f_company cols);
     lead_type := f_lead_type cols; model_type := f_model_type cols;
     lead_score := f_lead_score cols; status := f_status cols;
     potential_amount := f_potential_amount cols;
     notes := Some (f_notes cols); address := f_address cols;
     location_url := Some (f_location_url cols);
     pincode := Some (f_pincode cols);
     follow_up := Some (f_follow_up cols);
     follow_up_date := Some (f_follow_up_date cols);
     follow_up_notes := Some (f_follow_up_notes cols);
     lead_sealed := Some (f_lead_sealed cols);
     created_at := now; updated_at := now |}.

(** The row an update with the values [cols] makes of [old]; the trigger
    [update_leads_updated_at] sets [updated_at] to [now()]. *)
Definition updatedLead (now : string) (cols : FormData) (old : Lead) : Lead :=
  {| id := id old; user_id := user_id old;
     full_name := f_full_name cols; email := f_email cols;
     phone := Some (f_phone cols); company := Some (f_company cols);
     lead_type := f_lead_type cols; model_type := f_model_type cols;
     lead_score := f_lead_score cols; status := f_status cols;
     potential_amount := f_potential_amount cols;
     notes := Some (f_notes cols); address := f_address cols;
     location_url := Some (f_location_url cols);
     pincode := Some (f_pincode cols);
     follow_up := Some (f_follow_up cols);
     follow_up_date := Some (f_follow_up_date cols);
     follow_up_notes := Some (f_follow_up_notes cols);
     lead_sealed := Some (f_lead_sealed cols);
     created_at := created_at old; updated_at := now |}.

(** The row an update with [{ status }] makes of [old]. *)
Definition restatedLead (now : string) (s : LeadStatus) (old : Lead) : Lead :=
  {| id := id old; user_id := user_id old;
     full_name := full_name old; email := email old;
     phone := phone old; company := company old;
     lead_type := lead_type old; model_type := model_type old;
     lead_score := lead_score old; status := s;
     potential_amount := potential_amount old;
     notes := notes old; address := address old;
     location_url := location_url old; pincode := pincode old;
     follow_up := follow_up old;
     follow_up_date := follow_up_date old;
     follow_up_notes := follow_up_notes old;
     lead_sealed := lead_sealed old;
     created_at := created_at old; updated_at := now |}.

(** The rows a request on [leads] with [.eq('id', i).eq('user_id', owner)]
    reaches in the session of [uid]: the two filters and the policy
    [USING (auth.uid() = user_id)]. *)
Definition targets (uid i owner : string) (r : Lead) : bool :=
  (id r =? i)%string && (user_id r =? owner)%string
  && (user_id r =? uid)%string.

(** [from('leads').insert([{ ...formData, user_id }]).select().single()]:
    the values are read into their columns, then come the policy
    [WITH CHECK (auth.uid() = user_id)], the CHECK on lead_score and the
    primary key. *)
Definition insert_lead (uid newId now owner : string) (fd : FormData)
    (d : Db) : (PgError + Lead) * Db :=
  match columns fd with
  | None => (inl DataException, d)
  | Some cols =>
      let row := insertedLead newId now owner cols in
      if negb (uid =? owner)%string then (inl RlsViolation, d)
      else if negb (lead_score_check (lead_score row))
           then (inl CheckViolation, d)
      else if existsb (fun r => (id r =? newId)%string) (leads d)
           then (inl UniqueViolation, d)
      else (inr row, with_leads (leads d ++ [row]) d)
  end.

(** [from('leads').update({ ...formData, updated_at }).eq('id', i)
    .eq('user_id', owner).select().single()].  With no row reached nothing
    is read, checked or written and [.single()] fails.  With a row reached
    the values are read into their columns and the new row is checked; a
    value refused or a new row that breaks the CHECK fails the statement. *)
Definition update_lead (uid now i owner : string) (fd : FormData)
    (d : Db) : (PgError + Lead) * Db :=
  match filter (targets uid i owner) (leads d) with
  | [] => (inl NoRows, d)
  | old :: more =>
      match columns fd with
      | None => (inl DataException, d)
      | Some cols =>
          if negb (lead_score_check (f_lead_score cols))
          then (inl CheckViolation, d)
          else
            match more with
            | [] =>
                (inr (updatedLead now cols old),
                 with_leads
                   (map (fun r => if targets uid i owner r
                                  then updatedLead now cols r else r)
                        (leads d)) d)
            | _ :: _ => (inl NoRows, d)
            end
      end
  end.

(** [from('leads').update({ status }).eq('id', i).eq('user_id', owner)]:
    no [.select()], so a statement that reaches no row is no error. *)
Definition update_status (uid now i owner : string) (s : LeadStatus)
    (d : Db) : option PgError * Db :=
  (None,
   with_leads
     (map (fun r => if targets uid i owner r
                    then restatedLead now s r else r) (leads d)) d).

(** [from('leads').delete().eq('id', i).eq('user_id', owner)]; the links of
    a deleted lead go with it ([ON DELETE CASCADE]). *)
Definition delete_lead (uid i owner : string) (d : Db)
    : option PgError * Db :=
  let gone := map id (filter (targets uid i owner) (leads d)) in
  let kept (l : Link) := negb (arr_includes gone (link_lead l)) in
  (None,
   {| products_tbl := products_tbl d; services_tbl := services_tbl d;
      leads := filter (fun r => negb (targets uid i owner r)) (leads d);
      lead_products := filter kept (lead_products d);
      lead_services := filter kept (lead_services d) |}).

(** The policy on [lead_products] and [lead_services]:
    [EXISTS (SELECT 1 FROM leads WHERE leads.id = lead_id
             AND leads.user_id = auth.uid())]. *)
Definition owns_lead (uid : string) (d : Db) (l : Link) : bool :=
  existsb (fun r => (id r =? link_lead l)%string && (user_id r =? uid)%string)
          (leads d).

Definition same_link (a b : Link) : bool :=
  (link_lead a =? link_lead b)%string && (link_item a =? link_item b)%string.

(** The rows of one insert go in one after the other, each under the policy
    and the UNIQUE key. *)
Fixpoint add_links (uid : string) (d : Db) (rows table : list Link)
    : PgError + list Link :=
  match rows with
  | [] => inr table
  | l :: rest =>
      if negb (owns_lead uid d l) then inl RlsViolation
      else if existsb (same_link l) table then inl UniqueViolation
      else add_links uid d rest (table ++ [l])
  end.

(** One insert statement on a link table: all rows or none; the reference
    to the catalog is checked when the rows are in.  (The reference to
    [leads] holds once the policy has passed.) *)
Definition insert_links (catalog : list CatalogItem) (uid : string) (d : Db)
    (rows table : list Link) : option PgError * list Link :=
  match add_links uid d rows table with
  | inl e => (Some e, table)
  | inr table' =>
      if forallb (fun l => existsb (fun p => (item_id p =? link_item l)%string)
                                   catalog) rows
      then (None, table')
      else (Some ForeignKeyViolation, table)
  end.

(** [from('lead_products').insert(rows)]. *)
Definition insert_lead_products (uid : string) (rows : list Link) (d : Db)
    : option PgError * Db :=
  let (e, t) := insert_links (products_tbl d) uid d rows (lead_products d) in
  (e, with_lead_products t d).

(** [from('lead_services').insert(rows)]. *)
Definition insert_lead_services (uid : string) (rows : list Link) (d : Db)
    : option PgError * Db :=
  let (e, t) := insert_links (services_tbl d) uid d rows (lead_services d) in
  (e, with_lead_services t d).

(** [from('leads').select('*').eq('user_id', owner)
    .order('lead_score', { ascending: false })], under the policy
    [USING (auth.uid() = user_id)]. *)
Definition select_leads (uid owner : string) (d : Db) : list Lead :=
  order_by_score_desc
    (filter (fun r => (user_id r =? owner)%string && (user_id r =? uid)%string)
            (leads d)).

(* ===================================================================== *)
(** ** The world a handler runs in *)
(* ===================================================================== *)

(** The props a component calls back. *)
Inductive Callback := OnLeadCreated | OnLeadUpdated | OnLeadDeleted.

(** The backend, what the environment will supply (whether each coming
    request gets through, the values of [gen_random_uuid()] and [now()]),
    and what the handlers leave behind (console.error lines, callbacks). *)
Record World := mkWorld {
  db : Db;
  net : list bool;
  uuids : list string;
  clock : list string;
  console : list (string * PgError);
  callbacks : list Callback
}.

Definition with_db (d : Db) (w : World) : World :=
  {| db := d; net := net w; uuids := uuids w; clock := clock w;
     console := console w; callbacks := callbacks w |}.

(** Whether the next request reaches the backend; an exhausted script means
    every request does. *)
Definition online (w : World) : bool :=
  match net w with
  | ok :: _ => ok
  | [] => true
  end.

Definition sent (w : World) : World :=
  {| db := db w; net := tl (net w); uuids := uuids w; clock := clock w;
     console := console w; callbacks := callbacks w |}.

Definition gen_random_uuid (w : World) : string * World :=
  (hd "" (uuids w),
   {| db := db w; net := net w; uuids := tl (uuids w); clock := clock w;
      console := console w; callbacks := callbacks w |}).

Definition now (w : World) : string * World :=
  (hd "" (clock w),
   {| db := db w; net := net w; uuids := uuids w; clock := tl (clock w);
      console := console w; callbacks := callbacks w |}).

(** A handler's computation: it reads and writes the world and may throw. *)
Definition Eff (A : Type) : Type := World -> (PgError + A) * World.

Definition ret {A : Type} (a : A) : Eff A := fun w => (inr a, w).

Definition bind {A B : Type} (m : Eff A) (k : A -> Eff B) : Eff B :=
  fun w =>
    match m w with
    | (inl e, w') => (inl e, w')
    | (inr a, w') => k a w'
    end.

Definition throw {A : Type} (e : PgError) : Eff A := fun w => (inl e, w).

(** [try { m } catch (error) { h error }]. *)
Definition try_catch {A : Type} (m : Eff A) (h : PgError -> Eff A) : Eff A :=
  fun w =>
    match m w with
    | (inl e, w') => h e w'
    | (inr a, w') => (inr a, w')
    end.

Declare Scope eff_scope.
Delimit Scope eff_scope with eff.
Notation "x <- m ;; k" := (bind m (fun x => k))
  (at level 61, m at next level, right associativity) : eff_scope.
Notation "m ;; k" := (bind m (fun _ => k))
  (at level 61, right associativity) : eff_scope.

(** The world a handler leaves. *)
Definition exec {A : Type} (m : Eff A) (w : World) : World := snd (m w).

(** [if (error) throw error] on a response with data. *)
Definition orThrow {A : Type} (resp : PgError + A) : Eff A :=
  match resp with
  | inl e => throw e
  | inr a => ret a
  end.

(** [if (error) throw error] on a response without data. *)
Definition throwIf (err : option PgError) : Eff unit :=
  match err with
  | Some e => throw e
  | None => ret tt
  end.

(** One awaited request: lost in transport, or answered by [q] from the
    tables.  [lost] is the response of a request that did not get through. *)
Definition request {A : Type} (lost : A) (q : Db -> A * Db) : Eff A :=
  fun w =>
    if online w
    then let (a, d) := q (db (sent w)) in (inr a, with_db d (sent w))
    else (inr lost, sent w).

Definition console_error (msg : string) (e : PgError) : Eff unit :=
  fun w =>
    (inr tt,
     {| db := db w; net := net w; uuids := uuids w; clock := clock w;
        console := console w ++ [(msg, e)]; callbacks := callbacks w |}).

Definition call (c : Callback) : Eff unit :=
  fun w =>
    (inr tt,
     {| db := db w; net := net w; uuids := uuids w; clock := clock w;
        console := console w; callbacks := callbacks w ++ [c] |}).

(** The world after a console.error line, and after a callback. *)
Definition logged (msg : string) (e : PgError) (w : World) : World :=
  exec (console_error msg e) w.

Definition called (c : Callback) (w : World) : World := exec (call c) w.

Definition lift {A : Type} (f : World -> A * World) : Eff A :=
  fun w => let (a, w') := f w in (inr a, w').

(* ===================================================================== *)
(** ** The handlers *)
(* ===================================================================== *)

Local Open Scope eff_scope.

(** [selected.map(itemId => ({ lead_id: leadData.id, <item>_id: itemId }))];
    [quantity] takes its default 1. *)
Definition linkRows (leadId : string) (selected : list string) : list Link :=
  map (fun itemId => {| link_lead := leadId; link_item := itemId;
                        quantity := 1 |}) selected.

(** [array.length > 0]. *)
Definition nonEmpty {A : Type} (l : list A) : bool :=
  match l with
  | [] => false
  | _ :: _ => true
  end.

(** The branch "Update existing lead" of [handleSubmit]; the trigger on
    [leads], not the [updated_at] of the payload, decides the time stored. *)
Definition updateLead (uid : string) (l : Lead) (st : FormState) : Eff Lead :=
  t <- lift now ;;
  resp <- request (inl Unavailable)
            (update_lead uid t (id l) uid (formData st)) ;;
  orThrow resp.

(** The branch "Create new lead" of [handleSubmit]. *)
Definition createLead (uid : string) (st : FormState) : Eff Lead :=
  newId <- lift gen_random_uuid ;;
  t <- lift now ;;
  resp <- request (inl Unavailable)
            (insert_lead uid newId t uid (formData st)) ;;
  orThrow resp.

(** The block "Handle product and service associations" of [handleSubmit],
    entered when [leadData && !lead]. *)
Definition insertAssociations (uid : string) (leadData : Lead)
    (st : FormState) : Eff unit :=
  (if nonEmpty (selectedProducts st) then
     productError <-
       request (Some Unavailable)
         (insert_lead_products uid
            (linkRows (id leadData) (selectedProducts st))) ;;
     throwIf productError
   else ret tt) ;;
  (if nonEmpty (selectedServices st) then
     serviceError <-
       request (Some Unavailable)
         (insert_lead_services uid
            (linkRows (id leadData) (selectedServices st))) ;;
     throwIf serviceError
   else ret tt).

(** The [try] block of [handleSubmit]. *)
Definition saveLead (uid : string) (lead : option Lead) (st : FormState)
    : Eff unit :=
  leadData <-
    match lead with
    | Some l => updateLead uid l st
    | None => createLead uid st
    end ;;
  (if isNew lead then insertAssociations uid leadData st else ret tt) ;;
  call OnLeadCreated.

(** [handleSubmit] of LeadForm; [user] is the id of the signed-in user, if
    any.  (The [loading] flag it sets and clears only disables the
    button.) *)
Definition handleSubmit (user : option string) (lead : option Lead)
    (st : FormState) (w : World) : World :=
  match user with
  | None => w
  | Some uid =>
      exec (try_catch (saveLead uid lead st)
                      (console_error "Error saving lead:")) w
  end.

(** A click on the submit button of the form.  The browser first checks
    the constraints of the inputs and raises the submit event, which runs
    [handleSubmit], only when every input is valid; otherwise it shows a
    message at the first invalid input and nothing else happens.  Of the
    constraints the model reads [min] and [max] of the lead_score input;
    [othersValid] is the browser's verdict on the rest ([required],
    [type="email"], [type="url"], [min] of the amount, the step of a
    number). *)
Definition requestSubmit (othersValid : bool) (user : option string)
    (lead : option Lead) (st : FormState) (w : World) : World :=
  if scoreInputValid (formData st) && othersValid
  then handleSubmit user lead st w
  else w.

(** [handleDelete] of the leads list; [confirmed] is the answer to the
    [confirm] dialog. *)
Definition handleDelete (user : option string) (confirmed : bool)
    (leadId : string) (w : World) : World :=
  match user with
  | None => w
  | Some uid =>
      if negb confirmed then w
      else
        exec (try_catch
                (error <- request (Some Unavailable)
                            (delete_lead uid leadId uid) ;;
                 throwIf error ;;
                 call OnLeadDeleted)
                (console_error "Error deleting lead:")) w
  end.

(** [handleStatusChange] of the leads list; the select offers the three
    members of the status type. *)
Definition handleStatusChange (user : option string) (leadId : string)
    (newStatus : LeadStatus) (w : World) : World :=
  match user with
  | None => w
  | Some uid =>
      exec (try_catch
              (t <- lift now ;;
               error <- request (Some Unavailable)
                          (update_status uid t leadId uid newStatus) ;;
               throwIf error ;;
               call OnLeadUpdated)
              (console_error "Error updating lead status:")) w
  end.

(** The [stats] state of the dashboard. *)
Record Stats := mkStats {
  total : Z;
  new_count : Z;
  contacted : Z;
  closed : Z
}.

(** The state hooks of the dashboard. *)
Record Dashboard := mkDashboard {
  d_leads : list Lead;
  d_loading : bool;
  showForm : bool;
  searchTerm : string;
  filterStatus : string;
  filterLeadType : string;
  filterModelType : string;
  stats : Stats
}.

Definition countStatus (s : LeadStatus) (data : list Lead) : Z :=
  Z.of_nat
    (List.length (filter (fun lead => (status_str (status lead) =? status_str s)%string)
                    data)).

(** The dashboard after [setLeads], [setStats] and [setLoading(false)]. *)
Definition fetched (data : list Lead) (d : Dashboard) : Dashboard :=
  {| d_leads := data; d_loading := false; showForm := showForm d;
     searchTerm := searchTerm d; filterStatus := filterStatus d;
     filterLeadType := filterLeadType d;
     filterModelType := filterModelType d;
     stats := {| total := Z.of_nat (List.length data);
                 new_count := countStatus New data;
                 contacted := countStatus InProgress data;
                 closed := countStatus Closed data |} |}.

Definition notLoading (d : Dashboard) : Dashboard :=
  {| d_leads := d_leads d; d_loading := false; showForm := showForm d;
     searchTerm := searchTerm d; filterStatus := filterStatus d;
     filterLeadType := filterLeadType d;
     filterModelType := filterModelType d; stats := stats d |}.

(** [fetchLeads] of the dashboard: on an error the leads shown stay. *)
Definition fetchLeads (user : option string) (d : Dashboard) (w : World)
    : Dashboard * World :=
  match user with
  | None => (d, w)
  | Some uid =>
      match request (inl Unavailable)
              (fun t => (inr (select_leads uid uid t), t)) w with
      | (inr (inr data), w') => (fetched data d, w')
      | (inr (inl e), w') =>
          (notLoading d, exec (console_error "Error fetching leads:" e) w')
      | (inl e, w') =>
          (notLoading d, exec (console_error "Error fetching leads:" e) w')
      end
  end.

(** The callback of [leads.filter] in the dashboard. *)
Definition leadMatches (term fStatus fLeadType fModelType : string)
    (lead : Lead) : bool :=
  let matchesSearch :=
    includes (toLowerCase (full_name lead)) (toLowerCase term)
    || includes (toLowerCase (email lead)) (toLowerCase term)
    || match company lead with
       | Some c => truthy c && includes (toLowerCase c) (toLowerCase term)
       | None => false
       end in
  let matchesStatus :=
    negb (truthy fStatus) || (status_str (status lead) =? fStatus)%string in
  let matchesLeadType :=
    negb (truthy fLeadType)
    || (lead_type_str (lead_type lead) =? fLeadType)%string in
  let matchesModelType :=
    negb (truthy fModelType)
    || (model_type_str (model_type lead) =? fModelType)%string in
  matchesSearch && matchesStatus && matchesLeadType && matchesModelType.

(** [filteredLeads] of the dashboard. *)
Definition filteredLeads (d : Dashboard) : list Lead :=
  filter (leadMatches (searchTerm d) (filterStatus d) (filterLeadType d)
                      (filterModelType d))
         (d_leads d).

Local Close Scope eff_scope.

(* ===================================================================== *)
(** ** The dashboard's inputs and callbacks *)
(* ===================================================================== *)

(** [setSearchTerm(e.target.value)] of the search input. *)
Definition setSearchTerm (v : string) (d : Dashboard) : Dashboard :=
  {| d_leads := d_leads d; d_loading := d_loading d; showForm := showForm d;
     searchTerm := v; filterStatus := filterStatus d;
     filterLeadType := filterLeadType d;
     filterModelType := filterModelType d; stats := stats d |}.

(** [setFilterStatus(e.target.value)] of the status select. *)
Definition setFilterStatus (v : string) (d : Dashboard) : Dashboard :=
  {| d_leads := d_leads d; d_loading := d_loading d; showForm := showForm d;
     searchTerm := searchTerm d; filterStatus := v;
     filterLeadType := filterLeadType d;
     filterModelType := filterModelType d; stats := stats d |}.

(** [setFilterLeadType(e.target.value)] of the lead-type select. *)
Definition setFilterLeadType (v : string) (d : Dashboard) : Dashboard :=
  {| d_leads := d_leads d; d_loading := d_loading d; showForm := showForm d;
     searchTerm := searchTerm d; filterStatus := filterStatus d;
     filterLeadType := v;
     filterModelType := filterModelType d; stats := stats d |}.

(** [setFilterModelType(e.target.value)] of the model-type select. *)
Definition setFilterModelType (v : string) (d : Dashboard) : Dashboard :=
  {| d_leads := d_leads d; d_loading := d_loading d; showForm := showForm d;
     searchTerm := searchTerm d; filterStatus := filterStatus d;
     filterLeadType := filterLeadType d;
     filterModelType := v; stats := stats d |}.

(** [setShowForm(b)]. *)
Definition setShowForm (b : bool) (d : Dashboard) : Dashboard :=
  {| d_leads := d_leads d; d_loading := d_loading d; showForm := b;
     searchTerm := searchTerm d; filterStatus := filterStatus d;
     filterLeadType := filterLeadType d;
     filterModelType := filterModelType d; stats := stats d |}.

(** [handleLeadCreated]: [setShowForm(false); fetchLeads()]. *)
Definition handleLeadCreated (user : option string) (d : Dashboard)
    (w : World) : Dashboard * World :=
  fetchLeads user (setShowForm false d) w.

(** [handleLeadUpdated]: [fetchLeads()]. *)
Definition handleLeadUpdated (user : option string) (d : Dashboard)
    (w : World) : Dashboard * World :=
  fetchLeads user d w.

(** [handleLeadDeleted]: [fetchLeads()]. *)
Definition handleLeadDeleted (user : option string) (d : Dashboard)
    (w : World) : Dashboard * World :=
  fetchLeads user d w.


(* ===================================================================== *)
(** ** What the specification says, in its own terms *)
(* ===================================================================== *)

(** The item of the snapshot an id resolves to. *)
Definition resolve (catalog : list CatalogItem) (itemId : string)
    : option CatalogItem :=
  find (fun p => (item_id p =? itemId)%string) catalog.

(** The items a selection resolves to, in the order of the selection; an id
    that resolves to none is skipped. *)
Definition resolved (catalog : list CatalogItem) (selected : list string)
    : list CatalogItem :=
  flat_map (fun i => match resolve catalog i with
                     | Some p => [p]
                     | None => []
                     end) selected.

(** The sum of the prices of a list of items in double precision, added up
    from 0 in the order of the list. *)
Definition sumPrices (items : list CatalogItem) : float :=
  fold_left (fun acc p => (acc + price p)%float) items 0%float.

(** The subtotal of one selection: the [reduce] of the calculator over
    it. *)
Definition subtotal (catalog : list CatalogItem) (selected : list string)
    : float :=
  fold_left (fun sum itemId => (sum + priceOf catalog itemId)%float)
            selected 0%float.

(** Two numbers are the same value, the sign of a zero apart (the
    SameValueZero of ECMAScript: no comparison and no formatting of the
    form tells 0 from -0). *)
Definition sameValueZero (x y : float) : Prop :=
  x = y \/ (is_zero x = true /\ is_zero y = true).

(** The value of a finite double, in units of 2^-1074 (the smallest
    positive double): an integer. *)
Definition exactUnits (x : float) : option Z :=
  match Prim2SF x with
  | S754_zero _ => Some 0
  | S754_finite s m e =>
      Some ((if s then -1 else 1) * Z.pos m * 2 ^ (e + 1074))
  | _ => None
  end.

(** [z] is the sum of [x] and [y] without rounding. *)
Definition exactlyAdds (x y z : float) : bool :=
  match exactUnits x, exactUnits y, exactUnits z with
  | Some a, Some b, Some c => a + b =? c
  | _, _, _ => false
  end.

(** The lower-case form of [term] occurs in the lower-case form of
    [field]. *)
Definition lowerOccurs (term field : string) : Prop :=
  exists pre post : string,
    toLowerCase field = (pre ++ toLowerCase term ++ post)%string.

(** Two characters are the same letter when case is ignored: the same
    character, or one of A-Z and the character 32 places on, its small
    letter. *)
Definition sameLetter (a b : ascii) : bool :=
  let m := nat_of_ascii a in
  let n := nat_of_ascii b in
  (m =? n)%nat
  || ((65 <=? m)%nat && (m <=? 90)%nat && (n =? m + 32)%nat)
  || ((65 <=? n)%nat && (n <=? 90)%nat && (m =? n + 32)%nat).

Fixpoint sameLetters (s t : string) : bool :=
  match s, t with
  | EmptyString, EmptyString => true
  | String a s', String b t' => sameLetter a b && sameLetters s' t'
  | _, _ => false
  end.

(** [term] matches [field] as a substring when case is ignored: some part
    of [field] has the letters of [term]. *)
Definition ciSubstring (term field : string) : Prop :=
  exists pre mid post : string,
    field = (pre ++ mid ++ post)%string /\ sameLetters mid term = true.

(** The filters of [list]: the lower-case search term occurs in the
    lower-case name, email or company, and status, lead_type and model_type
    match exactly where a filter is set (the empty string is "not set"). *)
Definition satisfiesFilters (term fStatus fLeadType fModelType : string)
    (lead : Lead) : Prop :=
  (lowerOccurs term (full_name lead)
   \/ lowerOccurs term (email lead)
   \/ exists c, company lead = Some c /\ lowerOccurs term c)
  /\ (fStatus = "" \/ status_str (status lead) = fStatus)
  /\ (fLeadType = "" \/ lead_type_str (lead_type lead) = fLeadType)
  /\ (fModelType = "" \/ model_type_str (model_type lead) = fModelType).

(** The same filters with the text match the specification words: the
    search term is a substring of name, email or company when case is
    ignored. *)
Definition filtersIgnoringCase (term fStatus fLeadType fModelType : string)
    (lead : Lead) : Prop :=
  (ciSubstring term (full_name lead)
   \/ ciSubstring term (email lead)
   \/ exists c, company lead = Some c /\ ciSubstring term c)
  /\ (fStatus = "" \/ status_str (status lead) = fStatus)
  /\ (fLeadType = "" \/ lead_type_str (lead_type lead) = fLeadType)
  /\ (fModelType = "" \/ model_type_str (model_type lead) = fModelType).

(** The three texts of a lead the search reads are ASCII. *)
Definition asciiTexts (lead : Lead) : bool :=
  isAscii (full_name lead) && isAscii (email lead)
  && isAscii (or_empty (company lead)).

(** The specification's taxonomy of errors.  A ValidationError is raised
    before storage is tried, so no response of the backend is one (in the
    form it is the browser's refusal to submit, [requestSubmit]); of the
    responses, no row for the id and owner is NotFound and every other
    failure is a RepositoryError. *)
Inductive ErrorKind := ValidationError | NotFound | RepositoryError.

Definition classify (e : PgError) : ErrorKind :=
  match e with
  | NoRows => NotFound
  | DataException | CheckViolation | ForeignKeyViolation | UniqueViolation
  | RlsViolation | Unavailable => RepositoryError
  end.

(** An edit of the potential_amount input by hand. *)
Definition isChangeAmount (ev : FormEvent) : bool :=
  match ev with
  | ChangeAmount _ => true
  | _ => false
  end.

(** The primary key of [leads]. *)
Definition leads_pk (d : Db) : Prop := NoDup (map id (leads d)).

(** No row of [leads] has id [i] and owner [uid]: the id is unknown, or the
    lead is another user's. *)
Definition unreachable (uid i : string) (d : Db) : Prop :=
  forall r, In r (leads d) -> targets uid i uid r = false.

(** The coupling of the follow-up fields in a form: with the box unchecked
    the date and the notes are empty. *)
Definition followUpCleared (fd : FormData) : Prop :=
  f_follow_up fd = false ->
  f_follow_up_date fd = "" /\ f_follow_up_notes fd = "".

(** The pair the UNIQUE key of a link table is on. *)
Definition link_key (l : Link) : string * string :=
  (link_lead l, link_item l).

(** [lead_id uuid REFERENCES leads(id)] on both link tables. *)
Definition links_ref_leads (d : Db) : Prop :=
  forall l, In l (lead_products d) \/ In l (lead_services d) ->
            In (link_lead l) (map id (leads d)).

(** [product_id REFERENCES products(id)], [service_id REFERENCES
    services(id)]. *)
Definition links_ref_catalog (d : Db) : Prop :=
  (forall l, In l (lead_products d) ->
             In (link_item l) (map item_id (products_tbl d)))
  /\ (forall l, In l (lead_services d) ->
                In (link_item l) (map item_id (services_tbl d))).

(** [UNIQUE(lead_id, product_id)], [UNIQUE(lead_id, service_id)]. *)
Definition links_unique (d : Db) : Prop :=
  NoDup (map link_key (lead_products d))
  /\ NoDup (map link_key (lead_services d)).

(** The keys the migrations declare on the three tables the handlers
    write. *)
Definition constraints (d : Db) : Prop :=
  leads_pk d /\ links_ref_leads d /\ links_ref_catalog d /\ links_unique d.

(** Every stored lead passes the CHECK on lead_score. *)
Definition scores_checked (d : Db) : Prop :=
  forall r, In r (leads d) -> 0 <= lead_score r <= 100.

(** No coming request is lost in transport. *)
Definition delivered (w : World) : Prop :=
  forall ok, In ok (net w) -> ok = true.

(** No lead has follow_up off (or null) together with a follow-up date or
    follow-up notes. *)
Definition coupled (d : Db) : Prop :=
  forall r, In r (leads d) -> followUpCleared (formDataOfLead r).

(** A stored row has the id of the lead the form was opened with and
    belongs to [uid]: the row an update of that form reaches. *)
Definition storedFor (uid : string) (l old : Lead) (d : Db) : Prop :=
  In old (leads d) /\ id old = id l /\ user_id old = uid.

(* ===================================================================== *)
(** ** A sample engine and a sample backend for the examples *)
(* ===================================================================== *)

(** The examples need [toLowerCase] on their own texts only: ASCII, and
    words in Greek letters.  [sampleLower] is Unicode's mapping on these:
    A-Z and the capitals U+0391..U+03A9 go to their small letters, a
    capital sigma to the final small sigma when a letter stands right
    before it and none right after it (SpecialCasing, Final_Sigma), every
    other character stays.  (Marks and punctuation that Unicode skips when
    it looks for the letters around a sigma do not occur in the
    examples.) *)
Definition asciiLetter (c : ascii) : bool :=
  let n := nat_of_ascii c in
  ((65 <=? n)%nat && (n <=? 90)%nat) || ((97 <=? n)%nat && (n <=? 122)%nat).

(** A Greek capital in UTF-8: CE 91 .. CE A9, without CE A2 (U+03A2 is no
    character). *)
Definition greekCapital (c1 c2 : ascii) : bool :=
  (nat_of_ascii c1 =? 206)%nat
  && (145 <=? nat_of_ascii c2)%nat && (nat_of_ascii c2 <=? 169)%nat
  && negb (nat_of_ascii c2 =? 162)%nat.

(** A small Greek letter in UTF-8: CE B1 .. CE BF and CF 80 .. CF 89. *)
Definition greekSmall (c1 c2 : ascii) : bool :=
  ((nat_of_ascii c1 =? 206)%nat
   && (177 <=? nat_of_ascii c2)%nat && (nat_of_ascii c2 <=? 191)%nat)
  || ((nat_of_ascii c1 =? 207)%nat
      && (128 <=? nat_of_ascii c2)%nat && (nat_of_ascii c2 <=? 137)%nat).

Definition startsCased (s : string) : bool :=
  match s with
  | EmptyString => false
  | String c1 EmptyString => asciiLetter c1
  | String c1 (String c2 _) =>
      asciiLetter c1 || greekCapital c1 c2 || greekSmall c1 c2
  end.

Fixpoint greekLower (afterCased : bool) (s : string) : string :=
  match s with
  | EmptyString => EmptyString
  | String c1 t =>
      match t with
      | EmptyString => String (lower_ascii c1) EmptyString
      | String c2 r =>
          if greekCapital c1 c2 then
            if (nat_of_ascii c2 =? 163)%nat then
              (* capital sigma, CE A3: CF 82 when final, else CF 83 *)
              String (ascii_of_nat 207)
                (String (if afterCased && negb (startsCased r)
                         then ascii_of_nat 130 else ascii_of_nat 131)
                        (greekLower true r))
            else if (nat_of_ascii c2 <=? 159)%nat then
              String c1 (String (ascii_of_nat (nat_of_ascii c2 + 32))
                                (greekLower true r))
            else
              String (ascii_of_nat 207)
                     (String (ascii_of_nat (nat_of_ascii c2 - 32))
                             (greekLower true r))
          else if greekSmall c1 c2 then
            String c1 (String c2 (greekLower true r))
          else String (lower_ascii c1) (greekLower (asciiLetter c1) t)
      end
  end.

Definition sampleLower (s : string) : string :=
  if isAscii s then asciiLower s else greekLower false s.

Definition sampleEngine : JsEngine.
Proof.
  refine {| toLowerCase := sampleLower |}.
  - reflexivity.
  - intros s H. unfold sampleLower. now rewrite H.
Defined.

(** The examples send the empty string and dates as the date input writes
    them, YYYY-MM-DD.  [isoDate] accepts the days of the calendar in that
    form and gives them back as they are, as PostgreSQL does; it refuses
    every other string (PostgreSQL reads more spellings, which the examples
    do not use). *)
Definition digit (c : ascii) : option Z :=
  let n := Z.of_nat (nat_of_ascii c) in
  if (48 <=? n) && (n <=? 57) then Some (n - 48) else None.

Definition number (ds : list ascii) : option Z :=
  fold_left (fun acc c => match acc, digit c with
                          | Some a, Some d => Some (10 * a + d)
                          | _, _ => None
                          end) ds (Some 0).

Definition daysIn (y m : Z) : Z :=
  if m =? 2 then
    if ((y mod 4 =? 0) && negb (y mod 100 =? 0)) || (y mod 400 =? 0)
    then 29 else 28
  else if (m =? 4) || (m =? 6) || (m =? 9) || (m =? 11) then 30
  else 31.

Definition isoDate (s : string) : option string :=
  match list_ascii_of_string s with
  | [y1; y2; y3; y4; "-"%char; m1; m2; "-"%char; d1; d2] =>
      match number [y1; y2; y3; y4], number [m1; m2], number [d1; d2] with
      | Some y, Some m, Some d =>
          if (1 <=? y) && (1 <=? m) && (m <=? 12)
             && (1 <=? d) && (d <=? daysIn y m)
          then Some s else None
      | _, _, _ => None
      end
  | _ => None
  end.

(** The amounts of the examples have at most two decimals: below 10^8 the
    column gives them back as they are.  [sampleAmount] leaves the
    rounding of further decimals out, and refuses NaN and the infinities,
    which the form does not produce. *)
Definition sampleAmount (x : float) : option float :=
  if is_finite x then
    if (abs x <? 100000000)%float then Some x else None
  else None.

(** A stable insertion sort: rows of equal score stay in the order of the
    table. *)
Fixpoint insert_by_score (r : Lead) (l : list Lead) : list Lead :=
  match l with
  | [] => [r]
  | x :: t =>
      if lead_score x <=? lead_score r then r :: x :: t
      else x :: insert_by_score r t
  end.

Definition sortByScore (l : list Lead) : list Lead :=
  fold_right insert_by_score [] l.

Definition samplePostgres : Postgres.
Proof.
  assert (Hins : forall r l, Permutation (insert_by_score r l) (r :: l)).
  { intros r l. induction l as [|x l IH]; simpl; [reflexivity |].
    destruct (lead_score x <=? lead_score r); [reflexivity |].
    rewrite IH. apply perm_swap. }
  refine {| date_in := isoDate; numeric_10_2 := sampleAmount;
            order_by_score_desc := sortByScore |}.
  - reflexivity.
  - intros x Hfin Hbig. unfold sampleAmount. now rewrite Hfin, Hbig.
  - intros rows. induction rows as [|r rows IH]; simpl; [reflexivity |].
    rewrite Hins. now constructor.
  - intros rows. induction rows as [|r rows IH]; simpl; [constructor |].
    revert IH. generalize (sortByScore rows) as l. intros l Hl.
    induction Hl as [| x l Hs IH Hall]; simpl.
    + repeat constructor.
    + destruct (Z.leb_spec (lead_score x) (lead_score r)) as [Hle | Hlt].
      * constructor; [now constructor |].
        constructor; [exact Hle |].
        rewrite Forall_forall in *. intros y Hy. unfold scoreDesc in *.
        specialize (Hall y Hy). lia.
      * constructor; [assumption |].
        rewrite Forall_forall in *. intros y Hy.
        apply (Permutation_in _ (Hins r l)) in Hy.
        destruct Hy as [<- | Hy]; [unfold scoreDesc; lia | now apply Hall].
Defined.

(* ===================================================================== *)
(** ** Sample data (the catalog rows of the first migration) *)
(* ===================================================================== *)

Definition compostBinLarge : Product :=
  {| item_id := "p-cbl"; item_name := "Compost Bin - Large";
     item_description :=
       Some "Indoor compost bin for organic waste management";
     price := 2500%float; is_active := true |}.

Definition compostBinSmall : Product :=
  {| item_id := "p-cbs"; item_name := "Compost Bin - Small";
     item_description :=
       Some "Indoor compost bin for organic waste management";
     price := 1200%float; is_active := true |}.

Definition installation : Service :=
  {| item_id := "s-inst"; item_name := "Installation Service";
     item_description :=
       Some "Professional installation of waste management equipment";
     price := 2000%float; is_active := true |}.

Definition sampleProducts : list Product := [compostBinLarge; compostBinSmall].
Definition sampleServices : list Service := [installation].

(** A lead of user "bob" with a follow-up date but the gate off. *)
Definition bobsLead : Lead :=
  {| id := "lead-1"; user_id := "bob";
     full_name := "Asha Rao"; email := "asha@example.org";
     phone := None; company := Some "Green Homes";
     lead_type := Agent; model_type := Rent; lead_score := 40;
     status := Closed; potential_amount := 3700%float;
     notes := None; address := "12 Lake Road";
     location_url := None; pincode := None;
     follow_up := Some false;
     follow_up_date := Some "2025-08-01";
     follow_up_notes := Some "call back";
     lead_sealed := None;
     created_at := "2025-07-09T09:00:00Z";
     updated_at := "2025-07-09T09:00:00Z" |}.

(** A second lead of "bob", with a higher score. *)
Definition bobsOtherLead : Lead :=
  {| id := "lead-2"; user_id := "bob";
     full_name := "Ravi Menon"; email := "ravi@example.org";
     phone := Some "555"; company := None;
     lead_type := Business; model_type := Purchase; lead_score := 90;
     status := New; potential_amount := 0%float;
     notes := None; address := "4 Hill Street";
     location_url := None; pincode := Some 560001;
     follow_up := Some true;
     follow_up_date := Some "2025-08-15";
     follow_up_notes := Some "send quote";
     lead_sealed := Some false;
     created_at := "2025-07-09T10:00:00Z";
     updated_at := "2025-07-09T10:00:00Z" |}.

Definition sampleDb : Db :=
  {| products_tbl := sampleProducts; services_tbl := sampleServices;
     leads := [bobsLead; bobsOtherLead];
     lead_products := [{| link_lead := "lead-1"; link_item := "p-cbl";
                          quantity := 1 |}];
     lead_services := [] |}.

Definition sampleWorld : World :=
  {| db := sampleDb; net := []; uuids := ["lead-3"; "lead-4"];
     clock := ["2025-07-10T08:00:00Z"; "2025-07-10T08:05:00Z"];
     console := []; callbacks := [] |}.

(** The form of [bobsLead] with 150 typed into the score input. *)
Definition overScore : FormState :=
  with_formData
    (set_choice (SetLeadScore (Some 150)) (formDataOfLead bobsLead))
    (openForm (Some bobsLead)).

(** A new lead's form with a score of -5, one product selected and a
    follow-up date set. *)
Definition underScore : FormState :=
  formRun None [ProductsFetched sampleProducts; ClickProduct "p-cbl";
                ChangeText FullName "Meera"; ChangeText Email "m@example.org";
                ChangeText Address "9 Park Lane";
                ChangeFollowUp true; ChangeText FollowUpDate "2025-08-20";
                ChangeChoice (SetLeadScore (Some (-5)))].

(** The state of [bobsLead]'s form with items selected all the same. *)
Definition editWithSelection : FormState :=
  {| formData := formDataOfLead bobsLead;
     selectedProducts := ["p-cbs"]; selectedServices := ["s-inst"];
     products := sampleProducts; services := sampleServices |}.

(** A new lead's form: two products and a service selected, a follow-up
    date set. *)
Definition newLeadForm : FormState :=
  formRun None [ProductsFetched sampleProducts; ServicesFetched sampleServices;
                ClickProduct "p-cbl"; ClickProduct "p-cbs";
                ClickService "s-inst";
                ChangeText FullName "Meera"; ChangeText Email "m@example.org";
                ChangeText Address "9 Park Lane";
                ChangeFollowUp true; ChangeText FollowUpDate "2025-08-20"].

(** The same form with the follow-up box left unchecked: its follow-up
    date is the empty string. *)
Definition undatedLeadForm : FormState :=
  formRun None [ProductsFetched sampleProducts; ServicesFetched sampleServices;
                ClickProduct "p-cbl"; ClickProduct "p-cbs";
                ClickService "s-inst";
                ChangeText FullName "Meera"; ChangeText Email "m@example.org";
                ChangeText Address "9 Park Lane"].

(** The same form when the service selected has since left the catalog of
    the backend. *)
Definition staleServiceDb : Db :=
  {| products_tbl := sampleProducts; services_tbl := [];
     leads := [bobsLead; bobsOtherLead];
     lead_products := []; lead_services := [] |}.

Definition staleServiceWorld : World :=
  {| db := staleServiceDb; net := []; uuids := ["lead-3"];
     clock := ["2025-07-10T08:00:00Z"]; console := []; callbacks := [] |}.

(** A world in which the second request is lost. *)
Definition flakyWorld : World :=
  {| db := sampleDb; net := [true; false]; uuids := ["lead-3"];
     clock := ["2025-07-10T08:00:00Z"]; console := []; callbacks := [] |}.

(** The scenario [list(ownerId, {status:"Closed", lead_type:"Agent"})]. *)
Definition closedAgents : Dashboard :=
  {| d_leads := []; d_loading := true; showForm := false;
     searchTerm := ""; filterStatus := "Closed"; filterLeadType := "Agent";
     filterModelType := "";
     stats := {| total := 0; new_count := 0; contacted := 0; closed := 0 |} |}.

Definition emptyDashboard : Dashboard :=
  {| d_leads := []; d_loading := true; showForm := false;
     searchTerm := ""; filterStatus := ""; filterLeadType := "";
     filterModelType := "";
     stats := {| total := 0; new_count := 0; contacted := 0; closed := 0 |} |}.


(** A world with a lead of "alice" beside those of "bob", and links of
    both. *)
Definition alicesLead : Lead :=
  {| id := "lead-9"; user_id := "alice";
     full_name := "Kiran Shah"; email := "KIRAN@Example.org";
     phone := None; company := None;
     lead_type := Individual; model_type := Purchase; lead_score := 70;
     status := InProgress; potential_amount := 1200%float;
     notes := None; address := "1 Mill Road";
     location_url := None; pincode := None;
     follow_up := None; follow_up_date := None; follow_up_notes := None;
     lead_sealed := None;
     created_at := "2025-07-09T11:00:00Z";
     updated_at := "2025-07-09T11:00:00Z" |}.

Definition sharedDb : Db :=
  {| products_tbl := sampleProducts; services_tbl := sampleServices;
     leads := [bobsOtherLead; alicesLead];
     lead_products :=
       [ {| link_lead := "lead-2"; link_item := "p-cbl"; quantity := 1 |};
         {| link_lead := "lead-9"; link_item := "p-cbs"; quantity := 1 |} ];
     lead_services :=
       [ {| link_lead := "lead-2"; link_item := "s-inst"; quantity := 1 |} ] |}.

Definition sharedWorld : World :=
  {| db := sharedDb; net := [true; true; true; true];
     uuids := ["lead-3"; "lead-4"];
     clock := ["2025-07-10T08:00:00Z"; "2025-07-10T08:05:00Z"];
     console := []; callbacks := [] |}.

(** A world whose next request is lost. *)
Definition offlineWorld : World :=
  {| db := sharedDb; net := [false]; uuids := ["lead-3"];
     clock := ["2025-07-10T08:00:00Z"]; console := []; callbacks := [] |}.

(** A dashboard that already shows the leads of "bob". *)
Definition bobsDashboard : Dashboard :=
  fetched [bobsOtherLead] emptyDashboard.


(** A catalog with prices of 0.10, 0.20 and 0.30, each the double nearest
    to the decimal (what a select of a [decimal(10,2)] gives the form). *)
Definition dime : Product :=
  {| item_id := "p-10"; item_name := "Label"; item_description := None;
     price := (10 / 100)%float; is_active := true |}.

Definition twoDimes : Product :=
  {| item_id := "p-20"; item_name := "Liner"; item_description := None;
     price := (20 / 100)%float; is_active := true |}.

Definition threeDimes : Product :=
  {| item_id := "p-30"; item_name := "Filter"; item_description := None;
     price := (30 / 100)%float; is_active := true |}.

Definition smallItems : list Product := [dime; twoDimes; threeDimes].

(** A lead of "bob" whose company is written in Greek capitals. *)
Definition odosLead : Lead :=
  {| id := "lead-5"; user_id := "bob";
     full_name := "Eleni Pappas"; email := "eleni@example.org";
     phone := None; company := Some "ΟΔΟΣ";
     lead_type := Business; model_type := Purchase; lead_score := 55;
     status := New; potential_amount := 0%float;
     notes := None; address := "3 Harbour Road";
     location_url := None; pincode := None;
     follow_up := Some true;
     follow_up_date := Some "2025-09-01";
     follow_up_notes := Some "";
     lead_sealed := Some false;
     created_at := "2025-07-09T12:00:00Z";
     updated_at := "2025-07-09T12:00:00Z" |}.

Definition odosWorld : World :=
  {| db := {| products_tbl := sampleProducts; services_tbl := sampleServices;
              leads := [bobsLead; odosLead];
              lead_products := []; lead_services := [] |};
     net := []; uuids := []; clock := []; console := []; callbacks := [] |}.

(** The form of [bobsOtherLead] after the follow-up box has been
    unchecked. *)
Definition uncheckedFollowUp : FormState :=
  formRun (Some bobsOtherLead)
    [ChangeText FollowUpNotes "send quote again"; ChangeFollowUp false].

(** The form of [bobsLead] with an amount of 10^8 typed in. *)
Definition overAmount : FormState :=
  formRun (Some bobsLead) [ChangeAmount 100000000%float].

(* ===================================================================== *)
(** ** Strings: prefixes, occurrences and case folding *)
(* ===================================================================== *)

Lemma startsWith_iff (s t : string) :
  startsWith s t = true <-> exists post, s = (t ++ post)%string.
Proof.
  revert s. induction t as [|b t IH]; intros s; simpl.
  - split; [intros _; now exists s | intros _; destruct s; reflexivity].
  - destruct s as [|a s]; simpl.
    + split; [discriminate | intros [post H]; discriminate].
    + rewrite andb_true_iff, IH. split.
      * intros [Hab [post ->]]. apply Ascii.eqb_eq in Hab. subst b.
        now exists post.
      * intros [post H]. injection H as -> ->. split.
        -- apply Ascii.eqb_refl.
        -- now exists post.
Qed.

Lemma includes_nil (t : string) : includes "" t = startsWith "" t || false.
Proof. reflexivity. Qed.

Lemma includes_cons (a : ascii) (s t : string) :
  includes (String a s) t = startsWith (String a s) t || includes s t.
Proof. reflexivity. Qed.

Lemma includes_iff (s t : string) :
  includes s t = true <->
  exists pre post, s = (pre ++ t ++ post)%string.
Proof.
  induction s as [|a s IH].
  - rewrite includes_nil, orb_false_r, startsWith_iff. split.
    + intros [post H]. now exists "", post.
    + intros [pre [post H]]. destruct pre; simpl in H.
      * now exists post.
      * discriminate.
  - rewrite includes_cons, orb_true_iff, IH, startsWith_iff. split.
    + intros [[post H] | [pre [post ->]]].
      * now exists "", post.
      * now exists (String a pre), post.
    + intros [pre [post H]]. destruct pre as [|c pre]; simpl in H.
      * left. now exists post.
      * right. injection H as _ ->. now exists pre, post.
Qed.

(** The dashboard's test, [field.toLowerCase().includes(term.toLowerCase())],
    decides whether the lower-case term occurs in the lower-case field. *)
Lemma includes_lowerOccurs (term field : string) :
  includes (toLowerCase field) (toLowerCase term) = true <->
  lowerOccurs term field.
Proof. apply includes_iff. Qed.

Lemma truthy_false_iff (s : string) : truthy s = false <-> s = "".
Proof.
  unfold truthy. rewrite negb_false_iff. apply String.eqb_eq.
Qed.

Lemma lowerOccurs_empty_term (field : string) : lowerOccurs "" field.
Proof.
  exists "", (toLowerCase field). now rewrite toLowerCase_empty.
Qed.

(** A term that occurs in the empty field has an empty lower-case form, and
    so occurs in every field. *)
Lemma lowerOccurs_empty_field (term field : string) :
  lowerOccurs term "" -> lowerOccurs term field.
Proof.
  intros [pre [post H]]. rewrite toLowerCase_empty in H.
  destruct pre; [| discriminate]. simpl in H.
  destruct (toLowerCase term) eqn:Ht; [| discriminate].
  unfold lowerOccurs. exists "", (toLowerCase field). now rewrite Ht.
Qed.

Lemma asciiLower_app (a b : string) :
  asciiLower (a ++ b) = (asciiLower a ++ asciiLower b)%string.
Proof. induction a as [|c a IH]; simpl; [reflexivity | now rewrite IH]. Qed.

(** Folding ASCII works letter by letter, so a split of the folded string
    is the fold of a split of the string. *)
Lemma asciiLower_split (s a b : string) :
  asciiLower s = (a ++ b)%string ->
  exists s1 s2, s = (s1 ++ s2)%string /\
                asciiLower s1 = a /\ asciiLower s2 = b.
Proof.
  revert s. induction a as [|x a IH]; intros s H; simpl in H.
  - exists "", s. auto.
  - destruct s as [|c s]; simpl in H; [discriminate |].
    injection H as Hx Hr. destruct (IH _ Hr) as [s1 [s2 [-> [H1 H2]]]].
    exists (String c s1), s2. simpl. rewrite Hx, H1. auto.
Qed.

Lemma isAscii_app (a b : string) :
  isAscii (a ++ b) = isAscii a && isAscii b.
Proof.
  induction a as [|c a IH]; simpl; [reflexivity |].
  now rewrite IH, andb_assoc.
Qed.

Lemma nat_of_lower_ascii (c : ascii) :
  nat_of_ascii (lower_ascii c) =
  if (65 <=? nat_of_ascii c)%nat && (nat_of_ascii c <=? 90)%nat
  then (nat_of_ascii c + 32)%nat else nat_of_ascii c.
Proof.
  unfold lower_ascii.
  destruct ((65 <=? nat_of_ascii c)%nat && (nat_of_ascii c <=? 90)%nat)
    eqn:Hup; [| reflexivity].
  apply andb_true_iff in Hup. destruct Hup as [_ Hle].
  apply Nat.leb_le in Hle. apply nat_ascii_embedding. lia.
Qed.

(** Two characters have the same lower-case form exactly when they are the
    same letter, case ignored. *)
Lemma lower_ascii_sameLetter (a b : ascii) :
  lower_ascii a = lower_ascii b <-> sameLetter a b = true.
Proof.
  assert (Hcode : lower_ascii a = lower_ascii b <->
                  nat_of_ascii (lower_ascii a) = nat_of_ascii (lower_ascii b)).
  { split; [now intros -> |]. intros H.
    rewrite <- (ascii_nat_embedding (lower_ascii a)),
            <- (ascii_nat_embedding (lower_ascii b)).
    now rewrite H. }
  assert (Hsame : a = b <-> nat_of_ascii a = nat_of_ascii b).
  { split; [now intros -> |]. intros H.
    rewrite <- (ascii_nat_embedding a), <- (ascii_nat_embedding b).
    now rewrite H. }
  rewrite Hcode, !nat_of_lower_ascii. unfold sameLetter.
  pose proof (nat_ascii_bounded a) as Ha.
  pose proof (nat_ascii_bounded b) as Hb.
  set (m := nat_of_ascii a) in *. set (n := nat_of_ascii b) in *.
  rewrite !orb_true_iff, !andb_true_iff, !Nat.eqb_eq, !Nat.leb_le.
  destruct (Nat.leb_spec 65 m), (Nat.leb_spec m 90),
           (Nat.leb_spec 65 n), (Nat.leb_spec n 90); simpl; lia.
Qed.

Lemma asciiLower_sameLetters (s t : string) :
  asciiLower s = asciiLower t <-> sameLetters s t = true.
Proof.
  revert t. induction s as [|a s IH]; intros [|b t]; simpl;
    try (split; discriminate); [tauto |].
  rewrite andb_true_iff, <- IH, <- lower_ascii_sameLetter. split.
  - intros H. now injection H.
  - intros [-> ->]. reflexivity.
Qed.

(** On ASCII text the dashboard's test is the case-insensitive substring
    match. *)
Lemma lowerOccurs_ascii (term field : string) :
  isAscii term = true -> isAscii field = true ->
  lowerOccurs term field <-> ciSubstring term field.
Proof.
  intros Ht Hf. unfold lowerOccurs, ciSubstring.
  rewrite (toLowerCase_ascii term Ht), (toLowerCase_ascii field Hf). split.
  - intros [pre [post H]].
    destruct (asciiLower_split _ _ _ H) as [s1 [r [-> [H1 Hr]]]].
    destruct (asciiLower_split _ _ _ Hr) as [s2 [s3 [-> [H2 H3]]]].
    exists s1, s2, s3. split; [reflexivity |].
    now apply asciiLower_sameLetters.
  - intros [pre [mid [post [-> Hm]]]].
    exists (asciiLower pre), (asciiLower post).
    apply asciiLower_sameLetters in Hm.
    now rewrite !asciiLower_app, Hm.
Qed.

(* ===================================================================== *)
(** ** Double precision: zeros and sums *)
(* ===================================================================== *)

Lemma is_zero_iff (x : float) :
  is_zero x = true <-> exists s, Prim2SF x = S754_zero s.
Proof.
  unfold is_zero. rewrite FloatAxioms.eqb_spec.
  change (Prim2SF zero) with (S754_zero false).
  destruct (Prim2SF x) as [s | s | | s m e]; simpl.
  - split; [intros _; now exists s | reflexivity].
  - split; [destruct s; discriminate | intros [s' H]; discriminate].
  - split; [discriminate | intros [s' H]; discriminate].
  - split; [destruct s; discriminate | intros [s' H]; discriminate].
Qed.

Lemma sameValueZero_refl (x : float) : sameValueZero x x.
Proof. now left. Qed.

Lemma sameValueZero_sym (x y : float) :
  sameValueZero x y -> sameValueZero y x.
Proof. intros [-> | [Hx Hy]]; [now left | now right]. Qed.

Lemma sameValueZero_trans (x y z : float) :
  sameValueZero x y -> sameValueZero y z -> sameValueZero x z.
Proof.
  intros [-> | [Hx Hy]] [-> | [Hy' Hz]]; try (now left); try (now right).
Qed.

(** Adding a zero gives the other summand, or a zero when that is one. *)
Lemma add_zero_r (a b : float) :
  is_zero b = true ->
  (a + b)%float = a \/ (is_zero a = true /\ is_zero (a + b)%float = true).
Proof.
  intros Hb. apply is_zero_iff in Hb. destruct Hb as [sb Hb].
  pose proof (add_spec a b) as Hadd. rewrite Hb in Hadd.
  destruct (Prim2SF a) as [sa | sa | | sa m e] eqn:Ha.
  - right. split; [apply is_zero_iff; now exists sa |].
    apply is_zero_iff. rewrite Hadd.
    destruct sa, sb; simpl; eauto.
  - left. apply Prim2SF_inj. rewrite Hadd, Ha. reflexivity.
  - left. apply Prim2SF_inj. rewrite Hadd, Ha. reflexivity.
  - left. apply Prim2SF_inj. rewrite Hadd, Ha. reflexivity.
Qed.

Lemma add_zero_l (a b : float) :
  is_zero a = true ->
  (a + b)%float = b \/ (is_zero b = true /\ is_zero (a + b)%float = true).
Proof.
  intros Ha. apply is_zero_iff in Ha. destruct Ha as [sa Ha].
  pose proof (add_spec a b) as Hadd. rewrite Ha in Hadd.
  destruct (Prim2SF b) as [sb | sb | | sb m e] eqn:Hb.
  - right. split; [apply is_zero_iff; now exists sb |].
    apply is_zero_iff. rewrite Hadd.
    destruct sa, sb; simpl; eauto.
  - left. apply Prim2SF_inj. rewrite Hadd, Hb. reflexivity.
  - left. apply Prim2SF_inj. rewrite Hadd, Hb. reflexivity.
  - left. apply Prim2SF_inj. rewrite Hadd, Hb. reflexivity.
Qed.

(** The sum of the same values is the same value. *)
Lemma add_sameValueZero (a a' b b' : float) :
  sameValueZero a a' -> sameValueZero b b' ->
  sameValueZero (a + b)%float (a' + b')%float.
Proof.
  intros [-> | [Ha Ha']] [-> | [Hb Hb']].
  - now left.
  - destruct (add_zero_r a' b Hb) as [E1 | [Hz H1]],
             (add_zero_r a' b' Hb') as [E2 | [Hz' H2]].
    + left. now rewrite E1, E2.
    + right. rewrite E1. auto.
    + right. rewrite E2. auto.
    + right. auto.
  - destruct (add_zero_l a b' Ha) as [E1 | [Hz H1]],
             (add_zero_l a' b' Ha') as [E2 | [Hz' H2]].
    + left. now rewrite E1, E2.
    + right. rewrite E1. auto.
    + right. rewrite E2. auto.
    + right. auto.
  - destruct (add_zero_r a b Hb) as [E1 | [_ H1]],
             (add_zero_r a' b' Hb') as [E2 | [_ H2]];
      right; rewrite ?E1, ?E2; auto.
Qed.

(* ===================================================================== *)
(** ** The amount calculator *)
(* ===================================================================== *)

Lemma priceOf_resolve (catalog : list CatalogItem) (i : string) :
  priceOf catalog i =
  match resolve catalog i with
  | Some p => num_or_zero (price p)
  | None => 0%float
  end.
Proof. reflexivity. Qed.

(** [price || 0] is the price, the sign of a zero apart, unless the price
    is NaN. *)
Lemma num_or_zero_same (x : float) :
  is_nan x = false -> sameValueZero (num_or_zero x) x.
Proof.
  intros Hn. unfold num_or_zero, truthyNumber. rewrite Hn, orb_false_r.
  destruct (is_zero x) eqn:Hz; simpl.
  - right. split; [reflexivity | assumption].
  - now left.
Qed.

Lemma resolve_In (catalog : list CatalogItem) (i : string) (p : CatalogItem) :
  resolve catalog i = Some p -> In p catalog.
Proof. intros H. apply find_some in H. tauto. Qed.

Lemma resolved_app (catalog : list CatalogItem) (a b : list string) :
  resolved catalog (a ++ b) = resolved catalog a ++ resolved catalog b.
Proof. unfold resolved. apply flat_map_app. Qed.

Lemma resolved_unknown (catalog : list CatalogItem) (pre post : list string)
    (u : string) :
  resolve catalog u = None ->
  resolved catalog (pre ++ u :: post) = resolved catalog (pre ++ post).
Proof.
  intros Hu. rewrite !resolved_app. f_equal.
  unfold resolved at 1. simpl. now rewrite Hu.
Qed.

(** A [reduce] over a selection adds up the prices of the items the ids
    resolve to, in the order of the selection. *)
Lemma reduce_prices (catalog : list CatalogItem) (selected : list string) :
  (forall p, In p catalog -> is_nan (price p) = false) ->
  forall acc acc',
    sameValueZero acc acc' ->
    sameValueZero
      (fold_left (fun sum i => (sum + priceOf catalog i)%float) selected acc)
      (fold_left (fun a p => (a + price p)%float)
                 (resolved catalog selected) acc').
Proof.
  intros Hnum. induction selected as [|i sel IH]; intros acc acc' H.
  - exact H.
  - change (i :: sel) with ([i] ++ sel).
    rewrite resolved_app, !fold_left_app. apply IH.
    unfold resolved. simpl. rewrite priceOf_resolve.
    destruct (resolve catalog i) as [p|] eqn:Hr; simpl.
    + apply add_sameValueZero; [exact H |].
      apply num_or_zero_same, Hnum, (resolve_In _ _ _ Hr).
    + apply sameValueZero_trans with acc; [| exact H].
      destruct (add_zero_r acc 0%float eq_refl) as [-> | [Hz Hz']];
        [now left | now right].
Qed.

Lemma calculatedAmount_sum (selP selS : list string)
    (ps : list Product) (ss : list Service) :
  (forall p, In p ps \/ In p ss -> is_nan (price p) = false) ->
  sameValueZero (calculatedAmount selP selS ps ss)
                (sumPrices (resolved ps selP) + sumPrices (resolved ss selS)).
Proof.
  intros Hnum. unfold calculatedAmount, sumPrices.
  apply add_sameValueZero; apply reduce_prices; auto using sameValueZero_refl.
Qed.

(** C1, as the code has it.  The prices of a snapshot are numbers.  The
    amount calculator returns the sum in double precision of the prices of
    the items the selected product ids resolve to, added up from 0 in the
    order of the selection, plus the same sum for the services (the same
    value, the sign of a zero apart).  It is a total function; a selected
    id that resolves to no item adds exactly 0, and the total is the same
    value with and without it, wherever it stands in the selection. *)
Theorem calculatedAmount_is_double_sum_of_selected_prices :
  forall (selP selS : list string) (ps : list Product) (ss : list Service),
    (forall p, In p ps \/ In p ss -> is_nan (price p) = false) ->
    sameValueZero (calculatedAmount selP selS ps ss)
                  (sumPrices (resolved ps selP)
                   + sumPrices (resolved ss selS))%float
    /\ (forall u, resolve ps u = None -> priceOf ps u = 0%float)
    /\ (forall u, resolve ss u = None -> priceOf ss u = 0%float)
    /\ (forall pre post u,
          selP = pre ++ u :: post -> resolve ps u = None ->
          sameValueZero (calculatedAmount selP selS ps ss)
                        (calculatedAmount (pre ++ post) selS ps ss))
    /\ (forall pre post u,
          selS = pre ++ u :: post -> resolve ss u = None ->
          sameValueZero (calculatedAmount selP selS ps ss)
                        (calculatedAmount selP (pre ++ post) ps ss)).
Proof.
  intros selP selS ps ss Hnum.
  split; [now apply calculatedAmount_sum |].
  split; [intros u Hu; now rewrite priceOf_resolve, Hu |].
  split; [intros u Hu; now rewrite priceOf_resolve, Hu |].
  split; intros pre post u -> Hu;
    (eapply sameValueZero_trans; [now apply calculatedAmount_sum |]);
    apply sameValueZero_sym;
    (eapply sameValueZero_trans; [now apply calculatedAmount_sum |]);
    rewrite (resolved_unknown _ pre post u Hu); apply sameValueZero_refl.
Qed.
(* ===================================================================== *)
(** ** The selection toggles *)
(* ===================================================================== *)

Lemma arr_includes_In (l : list string) (x : string) :
  arr_includes l x = true <-> In x l.
Proof.
  unfold arr_includes. rewrite existsb_exists. split.
  - intros [y [Hy He]]. apply String.eqb_eq in He. now subst.
  - intros H. exists x. split; [assumption | apply String.eqb_refl].
Qed.

Lemma arr_includes_not_In (l : list string) (x : string) :
  arr_includes l x = false <-> ~ In x l.
Proof.
  rewrite <- arr_includes_In. destruct (arr_includes l x); split;
    congruence.
Qed.

Lemma In_without (l : list string) (x j : string) :
  In j (filter (fun i => negb (i =? x)%string) l) <-> In j l /\ j <> x.
Proof.
  rewrite filter_In, negb_true_iff, String.eqb_neq. tauto.
Qed.

Lemma count_without_self (l : list string) (x : string) :
  count_occ string_dec (filter (fun i => negb (i =? x)%string) l) x = 0%nat.
Proof.
  apply count_occ_not_In. rewrite In_without. tauto.
Qed.

Lemma count_without_other (l : list string) (x j : string) :
  j <> x ->
  count_occ string_dec (filter (fun i => negb (i =? x)%string) l) j =
  count_occ string_dec l j.
Proof.
  intros Hj. induction l as [|a l IH]; simpl; [reflexivity |].
  destruct (String.eqb_spec a x) as [-> | Hax]; simpl.
  - destruct (string_dec x j); [congruence | assumption].
  - destruct (string_dec a j); now rewrite IH.
Qed.

Lemma toggle_twice_In (prev : list string) (x j : string) :
  In j (handleProductToggle x (handleProductToggle x prev)) <-> In j prev.
Proof.
  unfold handleProductToggle at 2.
  destruct (arr_includes prev x) eqn:Hx.
  - apply arr_includes_In in Hx. unfold handleProductToggle.
    assert (Hout : arr_includes
                     (filter (fun i => negb (i =? x)%string) prev) x = false).
    { apply arr_includes_not_In. rewrite In_without. tauto. }
    rewrite Hout, in_app_iff, In_without. simpl.
    destruct (string_dec j x) as [-> | Hj]; [tauto |].
    split; [intros [[H _] | [H | []]]; [assumption | congruence] | tauto].
  - apply arr_includes_not_In in Hx. unfold handleProductToggle.
    assert (Hin : arr_includes (prev ++ [x]) x = true).
    { apply arr_includes_In, in_app_iff. simpl. tauto. }
    rewrite Hin, In_without, in_app_iff. simpl.
    split; [intros [[H | [H | []]] Hj]; [assumption | congruence] |].
    intros H. split; [tauto | congruence].
Qed.

(** A toggle keeps a selection free of repeats, so the selections the form
    reaches from the empty one list each id once. *)
Lemma handleProductToggle_NoDup (prev : list string) (x : string) :
  NoDup prev -> NoDup (handleProductToggle x prev).
Proof.
  intros H. unfold handleProductToggle.
  destruct (arr_includes prev x) eqn:Hx.
  - now apply NoDup_filter.
  - apply arr_includes_not_In in Hx.
    apply NoDup_app; [assumption | repeat constructor; intros [] |].
    intros y Hy [<- | []]. contradiction.
Qed.

(** C9.  Toggling an id twice in a row gives a selection with the same set
    of ids as before, for products and for services alike; one toggle
    appends an absent id, removes every occurrence of a present one, and
    leaves the occurrences of every other id as they were. *)
Theorem toggle_twice_same_ids :
  forall (prev : list string) (i : string),
    (forall j, In j (handleProductToggle i (handleProductToggle i prev))
               <-> In j prev)
    /\ (forall j, In j (handleServiceToggle i (handleServiceToggle i prev))
                  <-> In j prev)
    /\ (~ In i prev ->
        handleProductToggle i prev = prev ++ [i]
        /\ handleServiceToggle i prev = prev ++ [i])
    /\ (In i prev ->
        count_occ string_dec (handleProductToggle i prev) i = 0%nat
        /\ count_occ string_dec (handleServiceToggle i prev) i = 0%nat)
    /\ (forall j, j <> i ->
        count_occ string_dec (handleProductToggle i prev) j
          = count_occ string_dec prev j
        /\ count_occ string_dec (handleServiceToggle i prev) j
          = count_occ string_dec prev j).
Proof.
  intros prev i.
  change handleServiceToggle with handleProductToggle.
  split; [intros j; apply toggle_twice_In |].
  split; [intros j; apply toggle_twice_In |].
  unfold handleProductToggle.
  destruct (arr_includes prev i) eqn:Hi.
  - apply arr_includes_In in Hi.
    split; [tauto |].
    split; [intros _; split; apply count_without_self |].
    intros j Hj. split; now apply count_without_other.
  - apply arr_includes_not_In in Hi.
    split; [tauto |].
    split; [tauto |].
    intros j Hj. rewrite count_occ_app. simpl.
    destruct (string_dec i j); [congruence | split; lia].
Qed.

(* ===================================================================== *)
(** ** The effect that writes potential_amount *)
(* ===================================================================== *)

(** A fold keeps what each of its steps keeps. *)
Lemma fold_left_preserves {S E : Type} (step : S -> E -> S)
    (ok : E -> Prop) (P : S -> Prop) :
  (forall s e, ok e -> P s -> P (step s e)) ->
  forall es s, Forall ok es -> P s -> P (fold_left step es s).
Proof.
  intros Hstep es. induction es as [|e es IH]; intros s Hok Hs; simpl.
  - assumption.
  - inversion Hok; subst. apply IH; [assumption |]. now apply Hstep.
Qed.

Lemma autoUpdateAmount_edit (l : Lead) (c : float) (fd : FormData) :
  autoUpdateAmount (Some l) c fd = fd.
Proof. reflexivity. Qed.

(** In the form of an existing lead no event but an edit of the amount
    input changes potential_amount. *)
Lemma formStep_edit_keeps_amount (l : Lead) (st : FormState)
    (ev : FormEvent) :
  isChangeAmount ev = false ->
  f_potential_amount (formData (formStep (Some l) st ev)) =
  f_potential_amount (formData st).
Proof.
  intros Hev. unfold formStep.
  destruct (rendered (Some l) st ev); [| reflexivity].
  destruct (PrimFloat.Leibniz.eqb (calculated (handleEvent (Some l) ev st))
                                  (calculated st));
    simpl; rewrite ?autoUpdateAmount_edit;
    destruct ev as [k v | c | p | b | i | i | data | data];
    try discriminate; reflexivity.
Qed.

(** C5.  The effect writes the calculated total into potential_amount only
    for a new lead with a total above 0, and then the input is read-only.
    For an existing lead the effect changes nothing and the input stays
    editable: through any run of form events only an edit of the amount
    input changes the amount loaded from the lead.  With a total that is
    not above 0 the effect changes nothing, the input is editable and takes
    the value typed. *)
Theorem potential_amount_written_only_for_new_lead_with_positive_total :
  forall (lead : option Lead) (c : float) (fd : FormData),
    (f_potential_amount (autoUpdateAmount lead c fd) <> f_potential_amount fd
     -> lead = None /\ (0 <? c)%float = true)
    /\ (lead = None -> (0 <? c)%float = true ->
        autoUpdateAmount lead c fd = set_potential_amount c fd
        /\ amountReadOnly lead c = true)
    /\ (lead <> None ->
        autoUpdateAmount lead c fd = fd /\ amountReadOnly lead c = false)
    /\ ((0 <? c)%float = false ->
        autoUpdateAmount lead c fd = fd
        /\ amountReadOnly lead c = false
        /\ forall v, f_potential_amount (editAmount lead c v fd)
                     = num_or_zero v)
    /\ (forall l evs,
          lead = Some l ->
          Forall (fun ev => isChangeAmount ev = false) evs ->
          f_potential_amount (formData (formRun lead evs))
          = potential_amount l).
Proof.
  intros lead c fd. unfold editAmount, autoUpdateAmount, amountReadOnly.
  split; [| split; [| split; [| split]]].
  - destruct lead as [l|]; simpl; [congruence |].
    destruct (0 <? c)%float; [auto | congruence].
  - intros -> Hc. simpl. now rewrite Hc.
  - destruct lead as [l|]; [auto | congruence].
  - intros Hc. rewrite Hc, andb_false_r. auto.
  - intros l evs -> Hevs. unfold formRun.
    apply (fold_left_preserves (formStep (Some l))
             (fun ev => isChangeAmount ev = false)
             (fun st => f_potential_amount (formData st)
                        = potential_amount l)).
    + intros st ev Hev Hst.
      now rewrite formStep_edit_keeps_amount.
    + assumption.
    + reflexivity.
Qed.

(* ===================================================================== *)
(** ** Listing: the fetch and the client-side filter *)
(* ===================================================================== *)

Lemma filter_all {A : Type} (f : A -> bool) (l : list A) :
  (forall x, f x = true) -> filter f l = l.
Proof.
  intros H. induction l as [|a l IH]; simpl; [reflexivity |].
  now rewrite H, IH.
Qed.

Lemma filter_twice {A : Type} (f g : A -> bool) (l : list A) :
  filter g (filter f l) = filter (fun x => f x && g x) l.
Proof.
  induction l as [|a l IH]; simpl; [reflexivity |].
  destruct (f a); simpl; [destruct (g a) |]; now rewrite IH.
Qed.

Lemma filter_permutation {A : Type} (f : A -> bool) (l l' : list A) :
  Permutation l l' -> Permutation (filter f l) (filter f l').
Proof.
  induction 1 as [| x l l' _ IH | x y l | l l' l'' _ IH1 _ IH2]; simpl.
  - constructor.
  - destruct (f x); [now constructor | assumption].
  - destruct (f x), (f y); try reflexivity. apply perm_swap.
  - now transitivity (filter f l').
Qed.

Lemma filter_sorted {A : Type} (R : A -> A -> Prop) (f : A -> bool)
    (l : list A) :
  StronglySorted R l -> StronglySorted R (filter f l).
Proof.
  induction 1 as [| a l _ IH Hall]; simpl; [constructor |].
  destruct (f a); [| assumption].
  constructor; [assumption |].
  rewrite Forall_forall in *. intros x Hx. apply Hall.
  apply filter_In in Hx. tauto.
Qed.

(** The callback of the dashboard's filter decides the filters as the code
    reads them. *)
Lemma leadMatches_iff (term fS fL fM : string) (lead : Lead) :
  leadMatches term fS fL fM lead = true <->
  satisfiesFilters term fS fL fM lead.
Proof.
  unfold leadMatches, satisfiesFilters.
  rewrite !andb_true_iff, !orb_true_iff, !negb_true_iff,
          !truthy_false_iff, !String.eqb_eq, !includes_lowerOccurs.
  assert (Hc : match company lead with
               | Some c => truthy c
                           && includes (toLowerCase c) (toLowerCase term)
               | None => false
               end = true
               \/ lowerOccurs term (full_name lead)
               <-> (exists c, company lead = Some c /\ lowerOccurs term c)
                   \/ lowerOccurs term (full_name lead)).
  { destruct (company lead) as [c|].
    - rewrite andb_true_iff, includes_lowerOccurs. split.
      + intros [[_ H] | H]; [left; now exists c | now right].
      + intros [[c' [Hc' H]] | H]; [| now right].
        injection Hc' as <-. destruct (truthy c) eqn:Ht; [now left |].
        apply truthy_false_iff in Ht. subst c.
        right. now apply lowerOccurs_empty_field.
    - split; [intros [H | H]; [discriminate | now right] |].
      intros [[c [Hc' _]] | H]; [discriminate | now right]. }
  tauto.
Qed.

(** On ASCII text the filters as the code reads them are the filters of
    the specification. *)
Lemma satisfiesFilters_ascii (term fS fL fM : string) (lead : Lead) :
  isAscii term = true -> asciiTexts lead = true ->
  satisfiesFilters term fS fL fM lead <->
  filtersIgnoringCase term fS fL fM lead.
Proof.
  intros Ht Hl. unfold asciiTexts in Hl.
  apply andb_true_iff in Hl. destruct Hl as [Hl Hc].
  apply andb_true_iff in Hl. destruct Hl as [Hn He].
  unfold satisfiesFilters, filtersIgnoringCase.
  rewrite (lowerOccurs_ascii term (full_name lead) Ht Hn),
          (lowerOccurs_ascii term (email lead) Ht He).
  assert (Hco : (exists c, company lead = Some c /\ lowerOccurs term c)
                <-> (exists c, company lead = Some c /\ ciSubstring term c)).
  { split; intros [c [Hs H]]; exists c; (split; [assumption |]);
      rewrite Hs in Hc; simpl in Hc;
      now apply (lowerOccurs_ascii term c Ht Hc). }
  tauto.
Qed.

(** C10.  With an empty search term and the three filter selections empty
    the dashboard's filter returns the fetched leads, the same rows in the
    same order. *)
Theorem filteredLeads_without_filters_is_identity :
  forall d : Dashboard,
    searchTerm d = "" -> filterStatus d = "" ->
    filterLeadType d = "" -> filterModelType d = "" ->
    filteredLeads d = d_leads d.
Proof.
  intros d Ht Hs Hl Hm. unfold filteredLeads. rewrite Ht, Hs, Hl, Hm.
  apply filter_all. intros lead. apply leadMatches_iff.
  unfold satisfiesFilters. repeat split; try (now left).
  left. apply lowerOccurs_empty_term.
Qed.

Lemma fetchLeads_online (uid : string) (d : Dashboard) (w : World) :
  online w = true ->
  fetchLeads (Some uid) d w =
  (fetched (select_leads uid uid (db w)) d, with_db (db w) (sent w)).
Proof.
  intros Hon. unfold fetchLeads, request. now rewrite Hon.
Qed.

(** What the dashboard shows after a fetch that got through: the rows kept
    by the owner test and the filter callback, in some order. *)
Lemma shown_permutation (uid : string) (d : Dashboard) (w : World) :
  online w = true ->
  Permutation
    (filteredLeads (fst (fetchLeads (Some uid) d w)))
    (filter (fun l => ((user_id l =? uid)%string && (user_id l =? uid)%string)
                      && leadMatches (searchTerm d) (filterStatus d)
                           (filterLeadType d) (filterModelType d) l)
            (leads (db w))).
Proof.
  intros Hon. rewrite (fetchLeads_online uid d w Hon). simpl.
  unfold filteredLeads, select_leads. simpl.
  rewrite <- (filter_twice
                (fun l => (user_id l =? uid)%string && (user_id l =? uid)%string)
                (leadMatches (searchTerm d) (filterStatus d)
                             (filterLeadType d) (filterModelType d))).
  apply filter_permutation, order_by_score_desc_perm.
Qed.

Lemma shown_In (uid : string) (d : Dashboard) (w : World) (l : Lead) :
  online w = true ->
  In l (filteredLeads (fst (fetchLeads (Some uid) d w))) <->
  In l (leads (db w)) /\ user_id l = uid
  /\ satisfiesFilters (searchTerm d) (filterStatus d)
       (filterLeadType d) (filterModelType d) l.
Proof.
  intros Hon. pose proof (shown_permutation uid d w Hon) as Hperm.
  split.
  - intros H. apply (Permutation_in _ Hperm) in H.
    apply filter_In in H. destruct H as [Hin Hk].
    rewrite !andb_true_iff, String.eqb_eq, leadMatches_iff in Hk. tauto.
  - intros [Hin [Hu Hf]].
    apply (Permutation_in _ (Permutation_sym Hperm)).
    apply filter_In. split; [assumption |].
    rewrite !andb_true_iff, String.eqb_eq, leadMatches_iff. tauto.
Qed.

(** C6, as the code has it.  When the request gets through, the list the
    dashboard shows after a fetch holds exactly the rows of the signed-in
    owner that pass every filter (each row as often as the table has it),
    in descending order of lead_score; the fetch leaves the tables as they
    were.  The text filter asks whether the lower-case form of the search
    term occurs in the lower-case form of full_name, email or company; for
    a search term and a lead written in ASCII that is the case-insensitive
    substring match. *)
Theorem list_is_owner_leads_passing_filters_by_score_desc :
  forall (uid : string) (d : Dashboard) (w : World),
    online w = true ->
    let shown := filteredLeads (fst (fetchLeads (Some uid) d w)) in
    (exists keep : Lead -> bool,
        (forall l, keep l = true <->
                   user_id l = uid
                   /\ satisfiesFilters (searchTerm d) (filterStatus d)
                        (filterLeadType d) (filterModelType d) l)
        /\ Permutation shown (filter keep (leads (db w))))
    /\ (forall l, In l shown <->
                  In l (leads (db w)) /\ user_id l = uid
                  /\ satisfiesFilters (searchTerm d) (filterStatus d)
                       (filterLeadType d) (filterModelType d) l)
    /\ (isAscii (searchTerm d) = true ->
        forall l, asciiTexts l = true ->
                  (In l shown <->
                   In l (leads (db w)) /\ user_id l = uid
                   /\ filtersIgnoringCase (searchTerm d) (filterStatus d)
                        (filterLeadType d) (filterModelType d) l))
    /\ StronglySorted scoreDesc shown
    /\ db (snd (fetchLeads (Some uid) d w)) = db w.
Proof.
  intros uid d w Hon shown. subst shown.
  split.
  { exists (fun l =>
              ((user_id l =? uid)%string && (user_id l =? uid)%string)
              && leadMatches (searchTerm d) (filterStatus d)
                   (filterLeadType d) (filterModelType d) l).
    split; [| exact (shown_permutation uid d w Hon)].
    intros l.
    rewrite !andb_true_iff, String.eqb_eq, leadMatches_iff. tauto. }
  split; [intros l; now apply shown_In |].
  split.
  { intros Ht l Hl. rewrite (shown_In uid d w l Hon).
    rewrite (satisfiesFilters_ascii _ _ _ _ l Ht Hl). tauto. }
  rewrite (fetchLeads_online uid d w Hon). simpl.
  split; [| now destruct w].
  unfold filteredLeads, select_leads. simpl.
  apply filter_sorted, order_by_score_desc_sorted.
Qed.

(* ===================================================================== *)
(** ** The handlers, step by step *)
(* ===================================================================== *)

Lemma handleSubmit_update (uid : string) (l : Lead) (st : FormState)
    (w : World) :
  handleSubmit (Some uid) (Some l) st w =
  let w0 := sent (snd (now w)) in
  if online w then
    match update_lead uid (hd "" (clock w)) (id l) uid (formData st) (db w)
    with
    | (inl e, d) => logged "Error saving lead:" e (with_db d w0)
    | (inr _, d) => called OnLeadCreated (with_db d w0)
    end
  else logged "Error saving lead:" Unavailable w0.
Proof.
  unfold handleSubmit, exec, try_catch, saveLead, updateLead, bind, lift,
    request, orThrow, logged, called, exec. simpl.
  unfold online at 1. simpl. fold (online w).
  destruct (online w); [| reflexivity].
  destruct (update_lead _ _ _ _ _ _) as [[e | row] d]; reflexivity.
Qed.

Lemma handleSubmit_create (uid : string) (st : FormState) (w : World) :
  handleSubmit (Some uid) None st w =
  match createLead uid st w with
  | (inl e, w1) => logged "Error saving lead:" e w1
  | (inr row, w1) =>
      match insertAssociations uid row st w1 with
      | (inl e, w2) => logged "Error saving lead:" e w2
      | (inr _, w2) => called OnLeadCreated w2
      end
  end.
Proof.
  unfold handleSubmit, exec, try_catch, saveLead, logged, called, exec.
  unfold bind at 1 2. simpl.
  destruct (createLead uid st w) as [[e | row] w1]; [reflexivity |].
  unfold bind. destruct (insertAssociations uid row st w1) as [[e | []] w2];
    reflexivity.
Qed.

Lemma createLead_eq (uid : string) (st : FormState) (w : World) :
  createLead uid st w =
  let w0 := sent (snd (now (snd (gen_random_uuid w)))) in
  if online w then
    match insert_lead uid (hd "" (uuids w)) (hd "" (clock w)) uid
            (formData st) (db w) with
    | (inl e, d) => (inl e, with_db d w0)
    | (inr row, d) => (inr row, with_db d w0)
    end
  else (inl Unavailable, w0).
Proof.
  unfold createLead, bind, lift, request, orThrow. simpl.
  unfold online at 1. simpl. fold (online w).
  destruct (online w); [| reflexivity].
  destruct (insert_lead _ _ _ _ _ _) as [[e | row] d]; reflexivity.
Qed.

Lemma handleDelete_eq (uid i : string) (w : World) :
  handleDelete (Some uid) true i w =
  if online w
  then called OnLeadDeleted
         (with_db (snd (delete_lead uid i uid (db w))) (sent w))
  else logged "Error deleting lead:" Unavailable (sent w).
Proof.
  unfold handleDelete, exec, try_catch, bind, request, throwIf, logged,
    called, exec. simpl.
  destruct (online w); reflexivity.
Qed.

Lemma handleStatusChange_eq (uid i : string) (s : LeadStatus) (w : World) :
  handleStatusChange (Some uid) i s w =
  let w0 := sent (snd (now w)) in
  if online w
  then called OnLeadUpdated
         (with_db (snd (update_status uid (hd "" (clock w)) i uid s (db w)))
                  w0)
  else logged "Error updating lead status:" Unavailable w0.
Proof.
  unfold handleStatusChange, exec, try_catch, bind, lift, request, throwIf,
    logged, called, exec. simpl.
  unfold online at 1. simpl. fold (online w).
  destruct (online w); reflexivity.
Qed.


(* ===================================================================== *)
(** ** Requests on [leads] that reach no row, or exactly one *)
(* ===================================================================== *)

Lemma with_leads_same (d : Db) : with_leads (leads d) d = d.
Proof. now destruct d. Qed.

Lemma filter_none {A : Type} (f : A -> bool) (l : list A) :
  (forall x, In x l -> f x = false) -> filter f l = [].
Proof.
  intros H. induction l as [|a l IH]; simpl; [reflexivity |].
  rewrite (H a) by now left. apply IH. intros x Hx. apply H. now right.
Qed.

Lemma filter_keeps {A : Type} (f : A -> bool) (l : list A) :
  (forall x, In x l -> f x = true) -> filter f l = l.
Proof.
  intros H. induction l as [|a l IH]; simpl; [reflexivity |].
  rewrite (H a) by now left. f_equal. apply IH. intros x Hx. apply H.
  now right.
Qed.

Lemma map_untouched {A : Type} (f : A -> bool) (g : A -> A) (l : list A) :
  (forall x, In x l -> f x = false) ->
  map (fun r => if f r then g r else r) l = l.
Proof.
  intros H. induction l as [|a l IH]; simpl; [reflexivity |].
  rewrite (H a) by now left. f_equal. apply IH. intros x Hx. apply H.
  now right.
Qed.

Lemma same_id_same_row (ls : list Lead) (a b : Lead) :
  NoDup (map id ls) -> In a ls -> In b ls -> id a = id b -> a = b.
Proof.
  induction ls as [|x ls IH]; simpl; intros Hnd Ha Hb Hid; [contradiction |].
  inversion Hnd as [| ? ? Hx Hnd']; subst.
  destruct Ha as [-> | Ha], Hb as [-> | Hb].
  - reflexivity.
  - exfalso. apply Hx. rewrite Hid. now apply in_map.
  - exfalso. apply Hx. rewrite <- Hid. now apply in_map.
  - now apply IH.
Qed.

Lemma foreign_lead_unreachable (uid : string) (l : Lead) (d : Db) :
  leads_pk d -> In l (leads d) -> user_id l <> uid ->
  unreachable uid (id l) d.
Proof.
  intros Hpk Hl Hu r Hr. unfold targets.
  destruct (String.eqb_spec (id r) (id l)) as [Hid | _]; [| reflexivity].
  assert (r = l) by (eapply same_id_same_row; eauto). subst r.
  apply String.eqb_neq in Hu. now rewrite Hu.
Qed.

Lemma unknown_id_unreachable (uid i : string) (d : Db) :
  ~ In i (map id (leads d)) -> unreachable uid i d.
Proof.
  intros Hi r Hr. unfold targets.
  destruct (String.eqb_spec (id r) i) as [<- | _]; [| reflexivity].
  exfalso. apply Hi. now apply in_map.
Qed.

Lemma update_lead_unreachable (uid t i : string) (fd : FormData) (d : Db) :
  unreachable uid i d -> update_lead uid t i uid fd d = (inl NoRows, d).
Proof.
  intros H. unfold update_lead. now rewrite (filter_none _ _ H).
Qed.

Lemma update_status_unreachable (uid t i : string) (s : LeadStatus)
    (d : Db) :
  unreachable uid i d -> update_status uid t i uid s d = (None, d).
Proof.
  intros H. unfold update_status.
  now rewrite (map_untouched _ _ _ H), with_leads_same.
Qed.

Lemma delete_lead_unreachable (uid i : string) (d : Db) :
  unreachable uid i d -> delete_lead uid i uid d = (None, d).
Proof.
  intros H. unfold delete_lead. rewrite (filter_none _ _ H). simpl.
  rewrite (filter_keeps (fun r => negb (targets uid i uid r)))
    by (intros r Hr; now rewrite (H r Hr)).
  rewrite !(filter_all (fun _ : Link => true)) by reflexivity.
  now destruct d.
Qed.

(** A request that names a lead of the signed-in user reaches that row and
    no other. *)
Lemma own_lead_reached (uid : string) (l : Lead) (d : Db) :
  leads_pk d -> In l (leads d) -> user_id l = uid ->
  filter (targets uid (id l) uid) (leads d) = [l].
Proof.
  unfold leads_pk. intros Hpk Hl Hu.
  assert (Hself : targets uid (id l) uid l = true).
  { unfold targets. now rewrite Hu, !String.eqb_refl. }
  assert (Hother : forall r, In r (leads d) -> r <> l ->
                             targets uid (id l) uid r = false).
  { intros r Hr Hne. unfold targets.
    destruct (String.eqb_spec (id r) (id l)) as [Hid | _]; [| reflexivity].
    exfalso. apply Hne. eapply same_id_same_row; eauto. }
  revert Hpk Hl Hother. generalize (leads d) as ls.
  induction ls as [|x ls IH]; simpl; intros Hpk Hl Hother; [contradiction |].
  inversion Hpk as [| ? ? Hx Hpk']; subst.
  destruct Hl as [-> | Hl].
  - rewrite Hself. f_equal. apply filter_none. intros r Hr.
    apply Hother; [now right |]. intros ->. apply Hx. now apply in_map.
  - rewrite Hother; [| now left |].
    + apply IH; [assumption | assumption |].
      intros r Hr. apply Hother. now right.
    + intros ->. apply Hx. now apply in_map.
Qed.

(** What the columns keep of a payload: everything but the date and the
    amount, which they store as they read them. *)
Lemma columns_some (fd cols : FormData) :
  columns fd = Some cols ->
  exists date amount,
    date_in (f_follow_up_date fd) = Some date
    /\ numeric_10_2 (f_potential_amount fd) = Some amount
    /\ int4 (f_lead_score fd) = true
    /\ cols = with_columns date amount fd.
Proof.
  unfold columns. intros H.
  destruct (date_in (f_follow_up_date fd)) as [date|]; [| discriminate].
  destruct (numeric_10_2 (f_potential_amount fd)) as [amount|];
    [| discriminate].
  destruct (int4 (f_lead_score fd)); [| discriminate].
  injection H as <-. now exists date, amount.
Qed.

Lemma columns_score (fd cols : FormData) :
  columns fd = Some cols -> f_lead_score cols = f_lead_score fd.
Proof.
  intros H. destruct (columns_some fd cols H) as [date [amount [_ [_ [_ ->]]]]].
  reflexivity.
Qed.

(** No payload with an empty follow_up_date passes the columns. *)
Lemma columns_empty_date (fd : FormData) :
  f_follow_up_date fd = "" -> columns fd = None.
Proof.
  intros H. unfold columns. now rewrite H, date_in_empty.
Qed.

(** An update that names a row of the signed-in user reaches that row. *)
Lemma update_lead_own (uid t : string) (l old : Lead) (fd : FormData)
    (d : Db) :
  leads_pk d -> storedFor uid l old d ->
  update_lead uid t (id l) uid fd d =
  match columns fd with
  | None => (inl DataException, d)
  | Some cols =>
      if lead_score_check (f_lead_score cols)
      then (inr (updatedLead t cols old),
            with_leads (map (fun r => if targets uid (id l) uid r
                                      then updatedLead t cols r else r)
                            (leads d)) d)
      else (inl CheckViolation, d)
  end.
Proof.
  intros Hpk [Hin [Hid Hu]]. unfold update_lead. rewrite <- Hid.
  rewrite (own_lead_reached uid old d Hpk Hin Hu).
  destruct (columns fd) as [cols|]; [| reflexivity].
  now destruct (lead_score_check (f_lead_score cols)).
Qed.

(** A score outside [0,100] is never written by an update or an insert. *)
Lemma update_lead_out_of_range (uid t i : string) (fd : FormData) (d : Db) :
  lead_score_check (f_lead_score fd) = false ->
  snd (update_lead uid t i uid fd d) = d
  /\ exists e, fst (update_lead uid t i uid fd d) = inl e.
Proof.
  intros H. unfold update_lead.
  destruct (filter _ (leads d)) as [|a more]; [simpl; eauto |].
  destruct (columns fd) as [cols|] eqn:Hc; [| simpl; eauto].
  rewrite (columns_score fd cols Hc), H. simpl. eauto.
Qed.

Lemma insert_lead_out_of_range (uid newId t : string) (fd : FormData)
    (d : Db) :
  lead_score_check (f_lead_score fd) = false ->
  insert_lead uid newId t uid fd d =
  (inl (match columns fd with
        | None => DataException
        | Some _ => CheckViolation
        end), d).
Proof.
  intros H. unfold insert_lead.
  destruct (columns fd) as [cols|] eqn:Hc; [| reflexivity]. simpl.
  now rewrite String.eqb_refl, (columns_score fd cols Hc), H.
Qed.

(** No insert and no update writes a payload the columns refuse. *)
Lemma insert_lead_refused (uid newId t owner : string) (fd : FormData)
    (d : Db) :
  columns fd = None ->
  insert_lead uid newId t owner fd d = (inl DataException, d).
Proof. intros H. unfold insert_lead. now rewrite H. Qed.

Lemma update_lead_refused (uid t i : string) (fd : FormData) (d : Db) :
  columns fd = None ->
  snd (update_lead uid t i uid fd d) = d
  /\ exists e, fst (update_lead uid t i uid fd d) = inl e.
Proof.
  intros H. unfold update_lead.
  destruct (filter _ (leads d)) as [|a more]; [simpl; eauto |].
  rewrite H. simpl. eauto.
Qed.

Lemma handleSubmit_unreachable (uid : string) (l : Lead) (st : FormState)
    (w : World) :
  unreachable uid (id l) (db w) ->
  handleSubmit (Some uid) (Some l) st w =
  logged "Error saving lead:" (if online w then NoRows else Unavailable)
         (sent (snd (now w))).
Proof.
  intros H. rewrite handleSubmit_update. cbv zeta.
  rewrite (update_lead_unreachable _ _ _ _ _ H).
  destruct (online w); [| reflexivity].
  now destruct w.
Qed.

Lemma handleDelete_unreachable (uid i : string) (w : World) :
  unreachable uid i (db w) ->
  handleDelete (Some uid) true i w =
  if online w then called OnLeadDeleted (sent w)
  else logged "Error deleting lead:" Unavailable (sent w).
Proof.
  intros H. rewrite handleDelete_eq, (delete_lead_unreachable _ _ _ H).
  simpl. destruct (online w); [| reflexivity]. now destruct w.
Qed.

Lemma handleStatusChange_unreachable (uid i : string) (s : LeadStatus)
    (w : World) :
  unreachable uid i (db w) ->
  handleStatusChange (Some uid) i s w =
  if online w then called OnLeadUpdated (sent (snd (now w)))
  else logged "Error updating lead status:" Unavailable (sent (snd (now w))).
Proof.
  intros H. rewrite handleStatusChange_eq. cbv zeta.
  rewrite (update_status_unreachable _ _ _ _ _ H). simpl.
  destruct (online w); [| reflexivity]. now destruct w.
Qed.

(** C3, as the code has it.  For a lead owned by another user, under the
    primary key of [leads]: an update, a delete and a status change issued
    by the signed-in user leave every table as it was.  When the request
    gets through, the update logs the no-row error of [.single()] (NotFound)
    and does not call back; the delete and the status change log nothing and
    call back as after a success.  In each of the three the world left is
    the one left for an id that no lead has. *)
Theorem foreign_lead_is_left_unchanged :
  forall (uid : string) (l : Lead) (st : FormState) (s : LeadStatus)
         (w : World),
    leads_pk (db w) -> In l (leads (db w)) -> user_id l <> uid ->
    (db (handleSubmit (Some uid) (Some l) st w) = db w
     /\ db (handleDelete (Some uid) true (id l) w) = db w
     /\ db (handleStatusChange (Some uid) (id l) s w) = db w)
    /\ (online w = true ->
        (console (handleSubmit (Some uid) (Some l) st w)
           = console w ++ [("Error saving lead:", NoRows)]
         /\ classify NoRows = NotFound
         /\ callbacks (handleSubmit (Some uid) (Some l) st w) = callbacks w)
        /\ (console (handleDelete (Some uid) true (id l) w) = console w
            /\ callbacks (handleDelete (Some uid) true (id l) w)
               = callbacks w ++ [OnLeadDeleted])
        /\ (console (handleStatusChange (Some uid) (id l) s w) = console w
            /\ callbacks (handleStatusChange (Some uid) (id l) s w)
               = callbacks w ++ [OnLeadUpdated]))
    /\ (forall l' : Lead,
          ~ In (id l') (map id (leads (db w))) ->
          handleSubmit (Some uid) (Some l') st w
            = handleSubmit (Some uid) (Some l) st w
          /\ handleDelete (Some uid) true (id l') w
             = handleDelete (Some uid) true (id l) w
          /\ handleStatusChange (Some uid) (id l') s w
             = handleStatusChange (Some uid) (id l) s w).
Proof.
  intros uid l st s w Hpk Hl Hu.
  pose proof (foreign_lead_unreachable uid l (db w) Hpk Hl Hu) as Hun.
  rewrite (handleSubmit_unreachable uid l st w Hun),
          (handleDelete_unreachable uid (id l) w Hun),
          (handleStatusChange_unreachable uid (id l) s w Hun).
  split; [| split].
  - destruct (online w); repeat split.
  - intros ->. repeat split.
  - intros l' Hl'.
    pose proof (unknown_id_unreachable uid (id l') (db w) Hl') as Hun'.
    now rewrite (handleSubmit_unreachable uid l' st w Hun'),
                (handleDelete_unreachable uid (id l') w Hun'),
                (handleStatusChange_unreachable uid (id l') s w Hun').
Qed.

(* ===================================================================== *)
(** ** Validation of lead_score *)
(* ===================================================================== *)

Lemma out_of_range_check (score : Z) :
  score < 0 \/ 100 < score -> lead_score_check score = false.
Proof.
  intros H. unfold lead_score_check.
  destruct (Z.leb_spec 0 score), (Z.leb_spec score 100); simpl; lia || auto.
Qed.

(** C4.  With a lead_score outside [0,100] in the form, a click on the
    submit button does nothing: the browser finds the score input out of
    its [min] and [max], [handleSubmit] is not run and no request is made,
    for a new lead and for an existing one.  Were [handleSubmit] run all the
    same, nothing would be persisted either: the tables stay as they were,
    an error is logged and the callback of a success is not called; when
    the request gets through with values the column types take, the error
    of a create, and of an update of a lead of the signed-in user, is the
    violation of the CHECK on lead_score. *)
Theorem lead_score_out_of_range_is_rejected :
  forall (uid : string) (lead : option Lead) (st : FormState) (w : World),
    f_lead_score (formData st) < 0 \/ 100 < f_lead_score (formData st) ->
    (forall othersValid : bool,
        requestSubmit othersValid (Some uid) lead st w = w)
    /\ db (handleSubmit (Some uid) lead st w) = db w
    /\ callbacks (handleSubmit (Some uid) lead st w) = callbacks w
    /\ (exists e, console (handleSubmit (Some uid) lead st w)
                  = console w ++ [("Error saving lead:", e)])
    /\ (online w = true ->
        columns (formData st) <> None ->
        lead = None
        \/ (exists l old, lead = Some l /\ leads_pk (db w)
                          /\ storedFor uid l old (db w)) ->
        console (handleSubmit (Some uid) lead st w)
          = console w ++ [("Error saving lead:", CheckViolation)]).
Proof.
  intros uid lead st w Hscore.
  apply out_of_range_check in Hscore.
  split.
  { intros ov. unfold requestSubmit, scoreInputValid.
    unfold lead_score_check in Hscore. now rewrite Hscore. }
  destruct lead as [l |].
  - rewrite handleSubmit_update. cbv zeta.
    destruct (update_lead_out_of_range uid (hd "" (clock w)) (id l)
                (formData st) (db w) Hscore) as [Hd [e He]].
    destruct (online w) eqn:Hon.
    + destruct (update_lead _ _ _ _ _ _) as [[e' | row] d] eqn:Hup;
        simpl in Hd, He; [| discriminate]. subst d.
      split; [reflexivity |]. split; [reflexivity |].
      split; [now exists e' |].
      intros _ Hcols [Hnone | [l' [old [Hl' [Hpk Hst]]]]]; [discriminate |].
      injection Hl' as <-.
      rewrite (update_lead_own uid _ l old _ _ Hpk Hst) in Hup.
      destruct (columns (formData st)) as [cols|] eqn:Hc; [| congruence].
      rewrite (columns_score _ _ Hc), Hscore in Hup.
      now injection Hup as <-.
    + split; [reflexivity |]. split; [reflexivity |].
      split; [now exists Unavailable | discriminate].
  - rewrite handleSubmit_create, createLead_eq. cbv zeta.
    rewrite (insert_lead_out_of_range _ _ _ _ _ Hscore).
    destruct (online w) eqn:Hon.
    + split; [reflexivity |]. split; [reflexivity |].
      split; [eexists; reflexivity |]. intros _ Hcols _.
      destruct (columns (formData st)); [reflexivity | congruence].
    + split; [reflexivity |]. split; [reflexivity |].
      split; [now exists Unavailable | discriminate].
Qed.

(* ===================================================================== *)
(** ** Associations: written at creation only *)
(* ===================================================================== *)

Lemma update_lead_keeps_links (uid t i : string) (fd : FormData) (d : Db) :
  lead_products (snd (update_lead uid t i uid fd d)) = lead_products d
  /\ lead_services (snd (update_lead uid t i uid fd d)) = lead_services d.
Proof.
  unfold update_lead.
  destruct (filter _ (leads d)) as [|a [|b rest]]; [simpl; auto | |];
    (destruct (columns fd) as [cols|]; [| simpl; auto]);
    destruct (lead_score_check (f_lead_score cols)); simpl; auto.
Qed.

Lemma handleSubmit_update_keeps_links (user : option string) (l : Lead)
    (st : FormState) (w : World) :
  lead_products (db (handleSubmit user (Some l) st w)) = lead_products (db w)
  /\ lead_services (db (handleSubmit user (Some l) st w))
     = lead_services (db w).
Proof.
  destruct user as [uid |]; [| split; reflexivity].
  rewrite handleSubmit_update. cbv zeta.
  destruct (online w); [| split; reflexivity].
  pose proof (update_lead_keeps_links uid (hd "" (clock w)) (id l)
                (formData st) (db w)) as H.
  destruct (update_lead _ _ _ _ _ _) as [[e | row] d]; exact H.
Qed.

Lemma handleStatusChange_keeps_links (user : option string) (i : string)
    (s : LeadStatus) (w : World) :
  lead_products (db (handleStatusChange user i s w)) = lead_products (db w)
  /\ lead_services (db (handleStatusChange user i s w))
     = lead_services (db w).
Proof.
  destruct user as [uid |]; [| split; reflexivity].
  rewrite handleStatusChange_eq. cbv zeta.
  destruct (online w); split; reflexivity.
Qed.

(** C7.  An update of an existing lead leaves [lead_products] and
    [lead_services] as they were: the update of [handleSubmit], whoever is
    signed in, whatever is selected in the form and however the update ends,
    and the status change of the leads list.  So a submit that changes
    either table is the creation of a new lead. *)
Theorem update_leaves_associations_unchanged :
  forall (user : option string) (lead : option Lead) (st : FormState)
         (w : World),
    (forall l, lead = Some l ->
       lead_products (db (handleSubmit user lead st w)) = lead_products (db w)
       /\ lead_services (db (handleSubmit user lead st w))
          = lead_services (db w))
    /\ (forall i s,
          lead_products (db (handleStatusChange user i s w))
            = lead_products (db w)
          /\ lead_services (db (handleStatusChange user i s w))
             = lead_services (db w))
    /\ (lead_products (db (handleSubmit user lead st w))
          <> lead_products (db w)
        \/ lead_services (db (handleSubmit user lead st w))
           <> lead_services (db w) ->
        lead = None).
Proof.
  intros user lead st w. split; [| split].
  - intros l ->. apply handleSubmit_update_keeps_links.
  - intros i s. apply handleStatusChange_keeps_links.
  - destruct lead as [l |]; [| reflexivity].
    destruct (handleSubmit_update_keeps_links user l st w) as [Hp Hs].
    intros [H | H]; contradiction.
Qed.

(* ===================================================================== *)
(** ** Creation: a failing association insert *)
(* ===================================================================== *)

Lemma add_links_appends (uid : string) (d : Db) (rows : list Link) :
  forall table t,
    add_links uid d rows table = inr t -> t = table ++ rows.
Proof.
  induction rows as [|l rows IH]; intros table t H; simpl in H.
  - injection H as <-. now rewrite app_nil_r.
  - destruct (negb (owns_lead uid d l)); [discriminate |].
    destruct (existsb (same_link l) table); [discriminate |].
    rewrite (IH _ _ H), <- app_assoc. reflexivity.
Qed.

Lemma add_links_error (uid : string) (d : Db) (rows : list Link) :
  forall table e,
    add_links uid d rows table = inl e ->
    e = RlsViolation \/ e = UniqueViolation.
Proof.
  induction rows as [|l rows IH]; intros table e H; simpl in H.
  - discriminate.
  - destruct (negb (owns_lead uid d l)); [injection H as <-; now left |].
    destruct (existsb (same_link l) table);
      [injection H as <-; now right |].
    eapply IH; eassumption.
Qed.

(** An insert on a link table adds all its rows or none, and its errors
    are failures of the backend. *)
Lemma insert_links_cases (catalog : list CatalogItem) (uid : string)
    (d : Db) (rows table : list Link) :
  insert_links catalog uid d rows table = (None, table ++ rows)
  \/ exists e, insert_links catalog uid d rows table = (Some e, table)
               /\ classify e = RepositoryError.
Proof.
  unfold insert_links.
  destruct (add_links uid d rows table) as [e | t] eqn:Hadd.
  - right. exists e. split; [reflexivity |].
    destruct (add_links_error _ _ _ _ _ Hadd) as [-> | ->]; reflexivity.
  - apply add_links_appends in Hadd. subst t.
    destruct (forallb _ rows); [now left |].
    right. now exists ForeignKeyViolation.
Qed.

Lemma request_lead_products (uid : string) (rows : list Link) (w : World) :
  exists err w',
    request (Some Unavailable) (insert_lead_products uid rows) w
      = (inr err, w')
    /\ console w' = console w /\ callbacks w' = callbacks w
    /\ leads (db w') = leads (db w)
    /\ lead_services (db w') = lead_services (db w)
    /\ ((err = None
         /\ lead_products (db w') = lead_products (db w) ++ rows)
        \/ (exists e, err = Some e /\ classify e = RepositoryError
                      /\ lead_products (db w') = lead_products (db w))).
Proof.
  unfold request, insert_lead_products.
  destruct (online w).
  - destruct (insert_links_cases (products_tbl (db (sent w))) uid
                (db (sent w)) rows (lead_products (db (sent w))))
      as [H | [e [H He]]]; rewrite H; do 2 eexists;
      (split; [reflexivity |]); simpl; repeat split; eauto.
  - do 2 eexists. split; [reflexivity |]. simpl. repeat split.
    right. now exists Unavailable.
Qed.

Lemma request_lead_services (uid : string) (rows : list Link) (w : World) :
  exists err w',
    request (Some Unavailable) (insert_lead_services uid rows) w
      = (inr err, w')
    /\ console w' = console w /\ callbacks w' = callbacks w
    /\ leads (db w') = leads (db w)
    /\ lead_products (db w') = lead_products (db w)
    /\ ((err = None
         /\ lead_services (db w') = lead_services (db w) ++ rows)
        \/ (exists e, err = Some e /\ classify e = RepositoryError
                      /\ lead_services (db w') = lead_services (db w))).
Proof.
  unfold request, insert_lead_services.
  destruct (online w).
  - destruct (insert_links_cases (services_tbl (db (sent w))) uid
                (db (sent w)) rows (lead_services (db (sent w))))
      as [H | [e [H He]]]; rewrite H; do 2 eexists;
      (split; [reflexivity |]); simpl; repeat split; eauto.
  - do 2 eexists. split; [reflexivity |]. simpl. repeat split.
    right. now exists Unavailable.
Qed.

(** What a failed run of the association block leaves. *)
Lemma insertAssociations_failure (uid : string) (row : Lead)
    (st : FormState) (w1 w2 : World) (e : PgError) :
  insertAssociations uid row st w1 = (inl e, w2) ->
  classify e = RepositoryError
  /\ console w2 = console w1 /\ callbacks w2 = callbacks w1
  /\ leads (db w2) = leads (db w1)
  /\ lead_services (db w2) = lead_services (db w1)
  /\ (lead_products (db w2) = lead_products (db w1)
      \/ lead_products (db w2)
         = lead_products (db w1) ++ linkRows (id row) (selectedProducts st)).
Proof.
  unfold insertAssociations, bind.
  destruct (nonEmpty (selectedProducts st)).
  - destruct (request_lead_products uid
                (linkRows (id row) (selectedProducts st)) w1)
      as [err [wp [Hreq [Hc [Hk [Hl [Hs Hcase]]]]]]].
    rewrite Hreq.
    destruct Hcase as [[-> Hp] | [e' [-> [He Hp]]]]; simpl.
    + destruct (nonEmpty (selectedServices st)).
      * destruct (request_lead_services uid
                    (linkRows (id row) (selectedServices st)) wp)
          as [err [ws [Hreq' [Hc' [Hk' [Hl' [Hp' Hcase']]]]]]].
        rewrite Hreq'.
        destruct Hcase' as [[-> _] | [e' [-> [He Hs']]]]; simpl;
          [discriminate |].
        intros H. injection H as <- <-.
        repeat split; try congruence. right. congruence.
      * discriminate.
    + intros H. injection H as <- <-.
      repeat split; try congruence. left. congruence.
  - simpl. destruct (nonEmpty (selectedServices st)).
    + destruct (request_lead_services uid
                  (linkRows (id row) (selectedServices st)) w1)
        as [err [ws [Hreq' [Hc' [Hk' [Hl' [Hp' Hcase']]]]]]].
      rewrite Hreq'.
      destruct Hcase' as [[-> _] | [e' [-> [He Hs']]]]; simpl;
        [discriminate |].
      intros H. injection H as <- <-.
      repeat split; try congruence. left. congruence.
    + discriminate.
Qed.

(** What a successful insert of the lead row leaves. *)
Lemma createLead_success (uid : string) (st : FormState) (w w1 : World)
    (row : Lead) :
  createLead uid st w = (inr row, w1) ->
  (exists cols,
      columns (formData st) = Some cols
      /\ row = insertedLead (hd "" (uuids w)) (hd "" (clock w)) uid cols)
  /\ leads (db w1) = leads (db w) ++ [row]
  /\ lead_products (db w1) = lead_products (db w)
  /\ lead_services (db w1) = lead_services (db w)
  /\ console w1 = console w /\ callbacks w1 = callbacks w.
Proof.
  rewrite createLead_eq. cbv zeta.
  destruct (online w); [| discriminate].
  unfold insert_lead.
  destruct (columns (formData st)) as [cols|]; [| discriminate].
  destruct (negb (uid =? uid)%string); [discriminate |].
  destruct (negb (lead_score_check _)); [discriminate |].
  destruct (existsb _ (leads (db w))); [discriminate |].
  intros H. injection H as <- <-. simpl. repeat split.
  now exists cols.
Qed.

(** C8.  When the insert of the lead row has succeeded and an association
    insert then fails with [e], [handleSubmit] logs [e], a failure of the
    backend (RepositoryError), and does not call back; the lead row stays in
    [leads] (nothing undoes it), [lead_services] has no link of it, and
    [lead_products] has either none or all of its product links. *)
Theorem association_failure_keeps_lead_and_reports_error :
  forall (uid : string) (st : FormState) (w w1 w2 : World) (row : Lead)
         (e : PgError),
    createLead uid st w = (inr row, w1) ->
    insertAssociations uid row st w1 = (inl e, w2) ->
    handleSubmit (Some uid) None st w = logged "Error saving lead:" e w2
    /\ classify e = RepositoryError
    /\ console (handleSubmit (Some uid) None st w)
       = console w ++ [("Error saving lead:", e)]
    /\ callbacks (handleSubmit (Some uid) None st w) = callbacks w
    /\ leads (db (handleSubmit (Some uid) None st w)) = leads (db w) ++ [row]
    /\ In row (leads (db (handleSubmit (Some uid) None st w)))
    /\ lead_services (db (handleSubmit (Some uid) None st w))
       = lead_services (db w)
    /\ (lead_products (db (handleSubmit (Some uid) None st w))
          = lead_products (db w)
        \/ lead_products (db (handleSubmit (Some uid) None st w))
           = lead_products (db w)
             ++ linkRows (id row) (selectedProducts st)).
Proof.
  intros uid st w w1 w2 row e Hlead Hlinks.
  rewrite handleSubmit_create, Hlead, Hlinks.
  destruct (createLead_success _ _ _ _ _ Hlead)
    as [_ [Hl1 [Hp1 [Hs1 [Hc1 Hk1]]]]].
  destruct (insertAssociations_failure _ _ _ _ _ _ Hlinks)
    as [He [Hc2 [Hk2 [Hl2 [Hs2 Hp2]]]]].
  unfold logged, exec, console_error. simpl.
  split; [reflexivity |]. split; [exact He |].
  split; [congruence |]. split; [congruence |].
  split; [congruence |].
  split; [rewrite Hl2, Hl1; apply in_or_app; right; now left |].
  split; [congruence |].
  destruct Hp2 as [Hp2 | Hp2]; [left | right]; congruence.
Qed.


(* ===================================================================== *)
(** ** The follow-up gate *)
(* ===================================================================== *)

Lemma autoUpdateAmount_keeps_follow_up (lead : option Lead) (c : float)
    (fd : FormData) :
  followUpCleared fd -> followUpCleared (autoUpdateAmount lead c fd).
Proof.
  unfold autoUpdateAmount, followUpCleared.
  destruct (isNew lead && (0 <? c)%float); simpl; auto.
Qed.

Lemma handleEvent_keeps_follow_up (lead : option Lead) (st : FormState)
    (ev : FormEvent) :
  rendered lead st ev = true ->
  followUpCleared (formData st) ->
  followUpCleared (formData (handleEvent lead ev st)).
Proof.
  unfold followUpCleared. intros Hr Hst.
  destruct ev as [k v | c | p | b | i | i | data | data]; simpl in *;
    try assumption.
  - destruct k; simpl in *; try assumption; congruence.
  - unfold editAmount. destruct (amountReadOnly lead (calculated st));
      simpl; assumption.
  - destruct b; simpl; [discriminate | auto].
Qed.

(** The coupling holds along every run of the form that starts with it. *)
Lemma formStep_keeps_follow_up (lead : option Lead) (st : FormState)
    (ev : FormEvent) :
  followUpCleared (formData st) ->
  followUpCleared (formData (formStep lead st ev)).
Proof.
  intros Hst. unfold formStep.
  destruct (rendered lead st ev) eqn:Hr; [| assumption].
  pose proof (handleEvent_keeps_follow_up lead st ev Hr Hst) as H.
  destruct (PrimFloat.Leibniz.eqb (calculated (handleEvent lead ev st))
                                  (calculated st));
    [assumption |].
  simpl. now apply autoUpdateAmount_keeps_follow_up.
Qed.

Lemma formRun_keeps_follow_up (lead : option Lead) (evs : list FormEvent) :
  followUpCleared (formData (openForm lead)) ->
  followUpCleared (formData (formRun lead evs)).
Proof.
  intros H0. unfold formRun.
  apply (fold_left_preserves (formStep lead) (fun _ => True)
           (fun st => followUpCleared (formData st))).
  - intros st ev _. apply formStep_keeps_follow_up.
  - apply Forall_forall. auto.
  - assumption.
Qed.

(** An update the backend answers with an error leaves the tables, logs the
    error and calls nothing back. *)
Lemma handleSubmit_update_failed (uid : string) (l : Lead) (st : FormState)
    (w : World) :
  snd (update_lead uid (hd "" (clock w)) (id l) uid (formData st) (db w))
    = db w ->
  (exists e,
      fst (update_lead uid (hd "" (clock w)) (id l) uid (formData st) (db w))
      = inl e) ->
  db (handleSubmit (Some uid) (Some l) st w) = db w
  /\ callbacks (handleSubmit (Some uid) (Some l) st w) = callbacks w
  /\ exists e, console (handleSubmit (Some uid) (Some l) st w)
               = console w ++ [("Error saving lead:", e)].
Proof.
  intros Hd [e He]. rewrite handleSubmit_update. cbv zeta.
  destruct (online w).
  - destruct (update_lead _ _ _ _ _ _) as [[e' | row] d];
      simpl in Hd, He; [| discriminate]. subst d.
    repeat split. now exists e'.
  - repeat split. now exists Unavailable.
Qed.

(** A successful update of a lead of the signed-in user writes the values
    of the form as the columns read them. *)
Lemma handleSubmit_update_own (uid : string) (l old : Lead) (st : FormState)
    (w : World) (cols : FormData) :
  leads_pk (db w) -> storedFor uid l old (db w) ->
  online w = true ->
  columns (formData st) = Some cols ->
  lead_score_check (f_lead_score (formData st)) = true ->
  In (updatedLead (hd "" (clock w)) cols old)
     (leads (db (handleSubmit (Some uid) (Some l) st w)))
  /\ console (handleSubmit (Some uid) (Some l) st w) = console w
  /\ callbacks (handleSubmit (Some uid) (Some l) st w)
     = callbacks w ++ [OnLeadCreated].
Proof.
  intros Hpk Hst Hon Hcols Hscore.
  rewrite handleSubmit_update. cbv zeta.
  rewrite Hon, (update_lead_own uid _ l old _ _ Hpk Hst), Hcols,
          (columns_score _ _ Hcols), Hscore. simpl.
  repeat split.
  destruct Hst as [Hin [Hid Hu]].
  apply in_map_iff. exists old. split; [| assumption].
  assert (Hself : targets uid (id l) uid old = true).
  { unfold targets. now rewrite Hid, Hu, !String.eqb_refl. }
  now rewrite Hself.
Qed.

(** C2, what the code does.  Unchecking the follow-up box sets
    follow_up_date and follow_up_notes of the form to the empty string, not
    to null.  So for a lead whose loaded form has the two fields empty
    whenever follow_up is off, every run of form events that ends with
    follow_up off leaves an empty follow_up_date in the form, which the
    [date] column refuses: the update writes nothing, [handleSubmit] logs an
    error and does not call back, and the lead keeps the follow-up fields
    it had.  When the request gets through to a lead of the signed-in user,
    the error is the column's. *)
Theorem follow_up_off_update_is_refused :
  forall (uid : string) (l : Lead) (evs : list FormEvent) (w : World),
    followUpCleared (formDataOfLead l) ->
    f_follow_up (formData (formRun (Some l) evs)) = false ->
    (forall fd, f_follow_up_date (followUpChange false fd) = ""
                /\ f_follow_up_notes (followUpChange false fd) = "")
    /\ f_follow_up_date (formData (formRun (Some l) evs)) = ""
    /\ f_follow_up_notes (formData (formRun (Some l) evs)) = ""
    /\ columns (formData (formRun (Some l) evs)) = None
    /\ db (handleSubmit (Some uid) (Some l) (formRun (Some l) evs) w) = db w
    /\ callbacks (handleSubmit (Some uid) (Some l) (formRun (Some l) evs) w)
       = callbacks w
    /\ (exists e,
           console (handleSubmit (Some uid) (Some l) (formRun (Some l) evs) w)
           = console w ++ [("Error saving lead:", e)])
    /\ (forall old,
           online w = true -> leads_pk (db w) -> storedFor uid l old (db w) ->
           console (handleSubmit (Some uid) (Some l) (formRun (Some l) evs) w)
           = console w ++ [("Error saving lead:", DataException)]).
Proof.
  intros uid l evs w Hload Hoff.
  split; [intros fd; split; reflexivity |].
  destruct (formRun_keeps_follow_up (Some l) evs Hload Hoff) as [Hd Hn].
  pose proof (columns_empty_date _ Hd) as Hcols.
  split; [exact Hd |]. split; [exact Hn |]. split; [exact Hcols |].
  destruct (update_lead_refused uid (hd "" (clock w)) (id l) _ (db w) Hcols)
    as [Hdb Herr].
  destruct (handleSubmit_update_failed uid l _ w Hdb Herr) as [H1 [H2 H3]].
  split; [exact H1 |]. split; [exact H2 |]. split; [exact H3 |].
  intros old Hon Hpk Hst.
  rewrite handleSubmit_update. cbv zeta.
  now rewrite Hon, (update_lead_own uid _ l old _ _ Hpk Hst), Hcols.
Qed.

(* ===================================================================== *)
(** ** More on the form: selections and the amount along a run *)
(* ===================================================================== *)

Lemma calculated_with_formData (fd : FormData) (st : FormState) :
  calculated (with_formData fd st) = calculated st.
Proof. reflexivity. Qed.

(** While the total is positive no handler of a new lead's form changes
    potential_amount: the amount input is read-only then. *)
Lemma handleEvent_new_keeps_amount (st : FormState) (ev : FormEvent) :
  (0 <? calculated st)%float = true ->
  f_potential_amount (formData (handleEvent None ev st)) =
  f_potential_amount (formData st).
Proof.
  intros Hpos.
  destruct ev as [k v | c | p | b | i | i | data | data]; simpl;
    try reflexivity.
  unfold editAmount, amountReadOnly. simpl. now rewrite Hpos.
Qed.

Lemma formStep_new_amount (st : FormState) (ev : FormEvent) :
  ((0 <? calculated st)%float = true ->
   f_potential_amount (formData st) = calculated st) ->
  (0 <? calculated (formStep None st ev))%float = true ->
  f_potential_amount (formData (formStep None st ev)) =
  calculated (formStep None st ev).
Proof.
  intros IH. unfold formStep.
  destruct (rendered None st ev); [| exact IH].
  destruct (PrimFloat.Leibniz.eqb (calculated (handleEvent None ev st))
                                  (calculated st)) eqn:Heq.
  - apply Leibniz.eqb_spec in Heq.
    intros Hpos. rewrite Heq in *.
    rewrite handleEvent_new_keeps_amount by assumption. now apply IH.
  - rewrite calculated_with_formData. intros Hpos. simpl.
    unfold autoUpdateAmount. simpl. now rewrite Hpos.
Qed.

Lemma formRun_new_amount (evs : list FormEvent) :
  (0 <? calculated (formRun None evs))%float = true ->
  f_potential_amount (formData (formRun None evs)) =
  calculated (formRun None evs).
Proof.
  unfold formRun.
  apply (fold_left_preserves (formStep None) (fun _ => True)
           (fun st => (0 <? calculated st)%float = true ->
                      f_potential_amount (formData st) = calculated st)).
  - intros st ev _ IH. now apply formStep_new_amount.
  - apply Forall_forall. auto.
  - intros _. reflexivity.
Qed.

(** X1.  In the form of a new lead, after any run of events: whenever the
    calculated total is above 0, potential_amount is that total and the
    amount input is read-only.  What the user typed before selecting, and
    what the effect wrote for an earlier selection, never survives a
    positive total. *)
Theorem new_lead_amount_tracks_positive_total :
  forall evs : list FormEvent,
    (0 <? calculated (formRun None evs))%float = true ->
    f_potential_amount (formData (formRun None evs))
      = calculatedAmount (selectedProducts (formRun None evs))
          (selectedServices (formRun None evs))
          (products (formRun None evs)) (services (formRun None evs))
    /\ amountReadOnly None (calculated (formRun None evs)) = true.
Proof.
  intros evs Hpos. split.
  - now apply formRun_new_amount.
  - unfold amountReadOnly. simpl. exact Hpos.
Qed.

(** X2.  In the form of a new lead whose total is above 0, an event after
    which the total is no longer above 0 (the last item deselected, a
    catalog fetched anew) leaves the old total in potential_amount: the
    field is not reset, and it becomes editable again. *)
Theorem new_lead_amount_keeps_last_total :
  forall (evs : list FormEvent) (ev : FormEvent),
    (0 <? calculated (formRun None evs))%float = true ->
    (0 <? calculated (formStep None (formRun None evs) ev))%float = false ->
    f_potential_amount (formData (formStep None (formRun None evs) ev))
      = calculated (formRun None evs)
    /\ amountReadOnly None (calculated (formStep None (formRun None evs) ev))
       = false.
Proof.
  intros evs ev Hpos Hzero.
  pose proof (formRun_new_amount evs Hpos) as Hamount.
  split.
  - revert Hzero. unfold formStep.
    destruct (rendered None (formRun None evs) ev); [| congruence].
    destruct (PrimFloat.Leibniz.eqb
                (calculated (handleEvent None ev (formRun None evs)))
                (calculated (formRun None evs))) eqn:Heq.
    + apply Leibniz.eqb_spec in Heq. intros Hz. rewrite Heq in Hz.
      congruence.
    + rewrite calculated_with_formData. intros Hzero. simpl.
      unfold autoUpdateAmount. simpl. rewrite Hzero.
      now rewrite handleEvent_new_keeps_amount.
  - unfold amountReadOnly. simpl. exact Hzero.
Qed.

Lemma handleServiceToggle_NoDup (prev : list string) (x : string) :
  NoDup prev -> NoDup (handleServiceToggle x prev).
Proof. exact (handleProductToggle_NoDup prev x). Qed.

Lemma formStep_selections (lead : option Lead) (st : FormState)
    (ev : FormEvent) :
  NoDup (selectedProducts st) /\ NoDup (selectedServices st)
  /\ (isNew lead = false ->
      selectedProducts st = [] /\ selectedServices st = []) ->
  NoDup (selectedProducts (formStep lead st ev))
  /\ NoDup (selectedServices (formStep lead st ev))
  /\ (isNew lead = false ->
      selectedProducts (formStep lead st ev) = []
      /\ selectedServices (formStep lead st ev) = []).
Proof.
  intros [Hp [Hs He]]. unfold formStep.
  destruct (rendered lead st ev) eqn:Hr; [| auto].
  assert (H : NoDup (selectedProducts (handleEvent lead ev st))
              /\ NoDup (selectedServices (handleEvent lead ev st))
              /\ (isNew lead = false ->
                  selectedProducts (handleEvent lead ev st) = []
                  /\ selectedServices (handleEvent lead ev st) = [])).
  { destruct ev as [k v | c | p | b | i | i | data | data]; simpl in *;
      auto.
    - split; [now apply handleProductToggle_NoDup |]. split; [assumption |].
      intros Hedit. rewrite Hedit in Hr. discriminate.
    - split; [assumption |]. split; [now apply handleServiceToggle_NoDup |].
      intros Hedit. rewrite Hedit in Hr. discriminate. }
  destruct (PrimFloat.Leibniz.eqb (calculated (handleEvent lead ev st))
                                  (calculated st)); exact H.
Qed.

(** X3.  After any run of form events each selection lists an id at most
    once, so the total counts a selected item once and one insert never
    offers the same link twice.  In the form of an existing lead nothing is
    ever selected and the calculated total stays 0. *)
Theorem form_selections_never_repeat :
  forall (lead : option Lead) (evs : list FormEvent),
    NoDup (selectedProducts (formRun lead evs))
    /\ NoDup (selectedServices (formRun lead evs))
    /\ (forall l, lead = Some l ->
          selectedProducts (formRun lead evs) = []
          /\ selectedServices (formRun lead evs) = []
          /\ calculated (formRun lead evs) = 0%float).
Proof.
  intros lead evs.
  assert (H : NoDup (selectedProducts (formRun lead evs))
              /\ NoDup (selectedServices (formRun lead evs))
              /\ (isNew lead = false ->
                  selectedProducts (formRun lead evs) = []
                  /\ selectedServices (formRun lead evs) = [])).
  { unfold formRun.
    apply (fold_left_preserves (formStep lead) (fun _ => True)
             (fun st => NoDup (selectedProducts st)
                        /\ NoDup (selectedServices st)
                        /\ (isNew lead = false ->
                            selectedProducts st = []
                            /\ selectedServices st = []))).
    - intros st ev _. apply formStep_selections.
    - apply Forall_forall. auto.
    - simpl. repeat split; constructor. }
  destruct H as [Hp [Hs He]]. split; [exact Hp |]. split; [exact Hs |].
  intros l ->. destruct (He eq_refl) as [H1 H2].
  unfold calculated. rewrite H1, H2. repeat split.
Qed.

(* ===================================================================== *)
(** ** More on saving: what is stored, and for whom *)
(* ===================================================================== *)

(** Opening the row an insert or an update has written gives back the form
    that was saved. *)
Lemma formDataOfLead_updatedLead (t : string) (cols : FormData)
    (old : Lead) :
  formDataOfLead (updatedLead t cols old) = cols.
Proof.
  destruct cols. unfold formDataOfLead, updatedLead. simpl. f_equal.
  destruct (Z.eqb_spec f_pincode0 0) as [-> | _]; reflexivity.
Qed.

Lemma formDataOfLead_insertedLead (i t u : string) (cols : FormData) :
  formDataOfLead (insertedLead i t u cols) = cols.
Proof.
  destruct cols. unfold formDataOfLead, insertedLead. simpl. f_equal.
  destruct (Z.eqb_spec f_pincode0 0) as [-> | _]; reflexivity.
Qed.

(** The tables each handler leaves, in terms of the request it sends. *)
Lemma db_handleSubmit_update (uid : string) (l : Lead) (st : FormState)
    (w : World) :
  db (handleSubmit (Some uid) (Some l) st w) =
  if online w
  then snd (update_lead uid (hd "" (clock w)) (id l) uid (formData st) (db w))
  else db w.
Proof.
  rewrite handleSubmit_update. cbv zeta.
  destruct (online w); [| reflexivity].
  destruct (update_lead _ _ _ _ _ _) as [[e | row] d]; reflexivity.
Qed.

Lemma db_handleDelete (uid i : string) (w : World) :
  db (handleDelete (Some uid) true i w) =
  if online w then snd (delete_lead uid i uid (db w)) else db w.
Proof.
  rewrite handleDelete_eq. destruct (online w); reflexivity.
Qed.

Lemma db_handleStatusChange (uid i : string) (s : LeadStatus) (w : World) :
  db (handleStatusChange (Some uid) i s w) =
  if online w
  then snd (update_status uid (hd "" (clock w)) i uid s (db w))
  else db w.
Proof.
  rewrite handleStatusChange_eq. cbv zeta. destruct (online w); reflexivity.
Qed.

(** An update writes no table but [leads], and there either nothing or the
    values of the form, as the columns read them, over the rows it
    reaches. *)
Lemma update_lead_db (uid t i : string) (fd : FormData) (d : Db) :
  snd (update_lead uid t i uid fd d) = d
  \/ exists cols,
       columns fd = Some cols
       /\ lead_score_check (f_lead_score cols) = true
       /\ snd (update_lead uid t i uid fd d)
          = with_leads (map (fun r => if targets uid i uid r
                                      then updatedLead t cols r else r)
                            (leads d)) d.
Proof.
  unfold update_lead.
  destruct (filter _ (leads d)) as [|a [|b rest]]; [simpl; auto | |];
    (destruct (columns fd) as [cols|]; [| simpl; auto]);
    destruct (lead_score_check (f_lead_score cols)) eqn:Hs; simpl; auto.
  right. now exists cols.
Qed.

(** A request on a link table writes that table only and neither logs nor
    calls back. *)
Lemma request_lead_products_frame (uid : string) (rows : list Link)
    (w : World) :
  exists err w',
    request (Some Unavailable) (insert_lead_products uid rows) w
      = (inr err, w')
    /\ leads (db w') = leads (db w)
    /\ products_tbl (db w') = products_tbl (db w)
    /\ services_tbl (db w') = services_tbl (db w)
    /\ console w' = console w /\ callbacks w' = callbacks w.
Proof.
  unfold request, insert_lead_products.
  destruct (online w).
  - destruct (insert_links _ uid (db (sent w)) rows _) as [e t].
    do 2 eexists. split; [reflexivity |]. simpl. repeat split.
  - do 2 eexists. split; [reflexivity |]. simpl. repeat split.
Qed.

Lemma request_lead_services_frame (uid : string) (rows : list Link)
    (w : World) :
  exists err w',
    request (Some Unavailable) (insert_lead_services uid rows) w
      = (inr err, w')
    /\ leads (db w') = leads (db w)
    /\ products_tbl (db w') = products_tbl (db w)
    /\ services_tbl (db w') = services_tbl (db w)
    /\ console w' = console w /\ callbacks w' = callbacks w.
Proof.
  unfold request, insert_lead_services.
  destruct (online w).
  - destruct (insert_links _ uid (db (sent w)) rows _) as [e t].
    do 2 eexists. split; [reflexivity |]. simpl. repeat split.
  - do 2 eexists. split; [reflexivity |]. simpl. repeat split.
Qed.

(** Whatever the association block does, it writes the link tables only
    and neither logs nor calls back. *)
Lemma insertAssociations_frame (uid : string) (row : Lead) (st : FormState)
    (w1 : World) :
  leads (db (snd (insertAssociations uid row st w1))) = leads (db w1)
  /\ products_tbl (db (snd (insertAssociations uid row st w1)))
     = products_tbl (db w1)
  /\ services_tbl (db (snd (insertAssociations uid row st w1)))
     = services_tbl (db w1)
  /\ console (snd (insertAssociations uid row st w1)) = console w1
  /\ callbacks (snd (insertAssociations uid row st w1)) = callbacks w1.
Proof.
  unfold insertAssociations, bind.
  destruct (nonEmpty (selectedProducts st)), (nonEmpty (selectedServices st));
    cbv beta iota.
  - destruct (request_lead_products_frame uid
                (linkRows (id row) (selectedProducts st)) w1)
      as [err [wp [Hreq [Hl [Hp [Hs [Hc Hk]]]]]]].
    rewrite Hreq. destruct err as [e |]; simpl;
      [repeat split; assumption |].
    destruct (request_lead_services_frame uid
                (linkRows (id row) (selectedServices st)) wp)
      as [err [ws [Hreq' [Hl' [Hp' [Hs' [Hc' Hk']]]]]]].
    rewrite Hreq'. destruct err as [e |]; simpl; repeat split; congruence.
  - destruct (request_lead_products_frame uid
                (linkRows (id row) (selectedProducts st)) w1)
      as [err [wp [Hreq [Hl [Hp [Hs [Hc Hk]]]]]]].
    rewrite Hreq. destruct err as [e |]; simpl; repeat split; assumption.
  - simpl.
    destruct (request_lead_services_frame uid
                (linkRows (id row) (selectedServices st)) w1)
      as [err [ws [Hreq' [Hl' [Hp' [Hs' [Hc' Hk']]]]]]].
    rewrite Hreq'. destruct err as [e |]; simpl; repeat split; assumption.
  - simpl. repeat split.
Qed.

(** The row a create has inserted passes the CHECK on lead_score. *)
Lemma createLead_checked (uid : string) (st : FormState) (w w1 : World)
    (row : Lead) :
  createLead uid st w = (inr row, w1) ->
  lead_score_check (lead_score row) = true.
Proof.
  rewrite createLead_eq. cbv zeta.
  destruct (online w); [| discriminate].
  unfold insert_lead.
  destruct (columns (formData st)) as [cols|]; [| discriminate].
  destruct (negb (uid =? uid)%string); [discriminate |].
  destruct (lead_score_check _) eqn:Hs; [| discriminate]. simpl.
  destruct (existsb _ (leads (db w))); [discriminate |].
  intros H. injection H as <- _. exact Hs.
Qed.

(** The rows of [leads] after a create: the old ones, and perhaps the new
    row at the end. *)
Lemma leads_handleSubmit_create (uid : string) (st : FormState) (w : World) :
  leads (db (handleSubmit (Some uid) None st w)) = leads (db w)
  \/ exists cols,
       columns (formData st) = Some cols
       /\ lead_score_check (f_lead_score cols) = true
       /\ leads (db (handleSubmit (Some uid) None st w))
          = leads (db w)
            ++ [insertedLead (hd "" (uuids w)) (hd "" (clock w)) uid cols].
Proof.
  rewrite handleSubmit_create.
  destruct (createLead uid st w) as [[e | row] w1] eqn:Hc.
  - left. rewrite createLead_eq in Hc. cbv zeta in Hc.
    destruct (online w); [| injection Hc as _ <-; reflexivity].
    unfold insert_lead in Hc.
    destruct (columns (formData st)) as [cols|];
      [| injection Hc as _ <-; reflexivity].
    destruct (negb (uid =? uid)%string);
      [injection Hc as _ <-; reflexivity |].
    destruct (negb (lead_score_check _));
      [injection Hc as _ <-; reflexivity |].
    destruct (existsb _ (leads (db w)));
      [injection Hc as _ <-; reflexivity | discriminate].
  - right. pose proof (createLead_checked _ _ _ _ _ Hc) as Hs.
    destruct (createLead_success _ _ _ _ _ Hc) as [[cols [Hcols ->]] [Hl _]].
    exists cols. split; [exact Hcols |]. split; [exact Hs |].
    destruct (insertAssociations_frame uid
                (insertedLead (hd "" (uuids w)) (hd "" (clock w)) uid cols)
                st w1) as [Hl2 _].
    destruct (insertAssociations uid _ st w1) as [[e | []] w2];
      simpl in *; congruence.
Qed.

Lemma targets_owner (uid i : string) (r : Lead) :
  targets uid i uid r = true -> user_id r = uid.
Proof.
  unfold targets. rewrite !andb_true_iff, !String.eqb_eq. tauto.
Qed.

(** The rows of a table rewritten where a request reaches: each is an old
    row, or the rewriting of an old row of the requesting user. *)
Lemma In_rewritten (uid i : string) (g : Lead -> Lead) (ls : list Lead)
    (r : Lead) :
  In r (map (fun x => if targets uid i uid x then g x else x) ls) ->
  In r ls \/ exists old, In old ls /\ user_id old = uid /\ r = g old.
Proof.
  rewrite in_map_iff. intros [x [Hx Hin]].
  destruct (targets uid i uid x) eqn:Ht.
  - right. exists x. split; [assumption |].
    split; [now apply targets_owner in Ht | now symmetry].
  - left. now subst.
Qed.

Lemma In_rewritten_other (uid i : string) (g : Lead -> Lead)
    (ls : list Lead) (r : Lead) :
  (forall x, user_id (g x) = user_id x) ->
  user_id r <> uid ->
  In r (map (fun x => if targets uid i uid x then g x else x) ls)
  <-> In r ls.
Proof.
  intros Hg Hr. split.
  - intros H. destruct (In_rewritten _ _ _ _ _ H)
      as [Hin | [old [_ [Hu ->]]]]; [assumption |].
    exfalso. apply Hr. now rewrite Hg.
  - intros H. apply in_map_iff. exists r. split; [| assumption].
    destruct (targets uid i uid r) eqn:Ht; [| reflexivity].
    apply targets_owner in Ht. contradiction.
Qed.

(** X4.  A handler run for the signed-in user never adds, changes or
    removes a lead of anyone else: whatever lead, form, id or status it is
    given, and however it ends, a row of another user is in [leads]
    afterwards exactly if it was there before. *)
Theorem handlers_leave_other_users_leads :
  forall (uid : string) (lead : option Lead) (st : FormState)
         (confirmed : bool) (i : string) (s : LeadStatus) (w : World)
         (r : Lead),
    user_id r <> uid ->
    (In r (leads (db (handleSubmit (Some uid) lead st w)))
     <-> In r (leads (db w)))
    /\ (In r (leads (db (handleDelete (Some uid) confirmed i w)))
        <-> In r (leads (db w)))
    /\ (In r (leads (db (handleStatusChange (Some uid) i s w)))
        <-> In r (leads (db w))).
Proof.
  intros uid lead st confirmed i s w r Hr. split; [| split].
  - destruct lead as [l |].
    + rewrite db_handleSubmit_update.
      destruct (online w); [| tauto].
      destruct (update_lead_db uid (hd "" (clock w)) (id l) (formData st)
                  (db w)) as [-> | [cols [_ [_ ->]]]]; [tauto |].
      simpl. now apply In_rewritten_other.
    + destruct (leads_handleSubmit_create uid st w)
        as [-> | [cols [_ [_ ->]]]]; [tauto |].
      rewrite in_app_iff. simpl. split; [| tauto].
      intros [H | [H | []]]; [assumption |].
      exfalso. apply Hr. now rewrite <- H.
  - destruct confirmed; [| tauto].
    rewrite db_handleDelete. destruct (online w); [| tauto].
    simpl. rewrite filter_In. split; [tauto |].
    intros H. split; [assumption |].
    destruct (targets uid i uid r) eqn:Ht; [| reflexivity].
    apply targets_owner in Ht. contradiction.
  - rewrite db_handleStatusChange. destruct (online w); [| tauto].
    simpl. now apply In_rewritten_other.
Qed.

Lemma followUpCleared_restated (t : string) (s : LeadStatus) (r : Lead) :
  followUpCleared (formDataOfLead r) ->
  followUpCleared (formDataOfLead (restatedLead t s r)).
Proof. unfold followUpCleared. simpl. auto. Qed.

(** The columns take no payload in which follow_up is off and the
    follow-up date is empty, so what they take of a coupled form is
    coupled. *)
Lemma columns_keep_follow_up (fd cols : FormData) :
  columns fd = Some cols -> followUpCleared fd -> followUpCleared cols.
Proof.
  intros Hcols Hfd Hoff.
  destruct (columns_some fd cols Hcols) as [date [amount [Hd [_ [_ ->]]]]].
  simpl in Hoff. destruct (Hfd Hoff) as [He _].
  rewrite He, date_in_empty in Hd. discriminate.
Qed.

(** X5.  Starting from a table in which no lead has follow_up off together
    with a follow-up date or notes, the application keeps it so: a create
    from a new lead's form, an update from the form of such a lead (each
    after any run of form events), a status change and a delete all leave
    [leads] without such a row. *)
Theorem application_keeps_follow_up_coupling :
  forall (user : option string) (evs : list FormEvent) (w : World),
    coupled (db w) ->
    coupled (db (handleSubmit user None (formRun None evs) w))
    /\ (forall l, followUpCleared (formDataOfLead l) ->
          coupled (db (handleSubmit user (Some l) (formRun (Some l) evs) w)))
    /\ (forall i s, coupled (db (handleStatusChange user i s w)))
    /\ (forall c i, coupled (db (handleDelete user c i w))).
Proof.
  intros user evs w Hw.
  destruct user as [uid |];
    [| split; [exact Hw | split; [intros; exact Hw | split; intros; exact Hw]]].
  split; [| split; [| split]].
  - pose proof (formRun_keeps_follow_up None evs) as Hform.
    intros r Hr.
    destruct (leads_handleSubmit_create uid (formRun None evs) w)
      as [H | [cols [Hcols [_ H]]]]; rewrite H in Hr; [now apply Hw |].
    apply in_app_iff in Hr. destruct Hr as [Hr | [<- | []]]; [now apply Hw |].
    rewrite formDataOfLead_insertedLead.
    apply (columns_keep_follow_up _ _ Hcols), Hform.
    intros _. split; reflexivity.
  - intros l Hl r Hr. rewrite db_handleSubmit_update in Hr.
    destruct (online w); [| now apply Hw].
    destruct (update_lead_db uid (hd "" (clock w)) (id l)
                (formData (formRun (Some l) evs)) (db w))
      as [H | [cols [Hcols [_ H]]]];
      rewrite H in Hr; [now apply Hw |].
    simpl in Hr. apply In_rewritten in Hr.
    destruct Hr as [Hr | [old [_ [_ ->]]]]; [now apply Hw |].
    rewrite formDataOfLead_updatedLead.
    apply (columns_keep_follow_up _ _ Hcols).
    now apply formRun_keeps_follow_up.
  - intros i s r Hr. rewrite db_handleStatusChange in Hr.
    destruct (online w); [| now apply Hw].
    simpl in Hr. apply In_rewritten in Hr.
    destruct Hr as [Hr | [old [Hold [_ ->]]]]; [now apply Hw |].
    apply followUpCleared_restated. now apply Hw.
  - intros c i r Hr. destruct c; [| now apply Hw].
    rewrite db_handleDelete in Hr.
    destruct (online w); [| now apply Hw].
    simpl in Hr. apply filter_In in Hr. now apply Hw.
Qed.

(** X6.  What is saved is what reopening shows.  The row a create has
    inserted, and the row a successful update has written over the stored
    row of a lead of the signed-in user, reopen in the form as the form
    data that was submitted, with the follow-up date and the amount as
    their columns read them; the update keeps the id, the owner and the
    creation time of the stored row. *)
Theorem saved_lead_reopens_as_stored :
  forall (uid : string) (st : FormState) (w : World),
    (forall row w1,
        createLead uid st w = (inr row, w1) ->
        In row (leads (db w1))
        /\ user_id row = uid
        /\ exists date amount,
             date_in (f_follow_up_date (formData st)) = Some date
             /\ numeric_10_2 (f_potential_amount (formData st)) = Some amount
             /\ formData (openForm (Some row))
                = with_columns date amount (formData st))
    /\ (forall l old date amount,
          leads_pk (db w) -> storedFor uid l old (db w) ->
          online w = true ->
          date_in (f_follow_up_date (formData st)) = Some date ->
          numeric_10_2 (f_potential_amount (formData st)) = Some amount ->
          lead_score_check (f_lead_score (formData st)) = true ->
          exists row,
            In row (leads (db (handleSubmit (Some uid) (Some l) st w)))
            /\ id row = id l /\ user_id row = uid
            /\ created_at row = created_at old
            /\ formData (openForm (Some row))
               = with_columns date amount (formData st)).
Proof.
  intros uid st w. split.
  - intros row w1 Hc.
    destruct (createLead_success _ _ _ _ _ Hc) as [[cols [Hcols ->]] [Hl _]].
    split; [rewrite Hl; apply in_or_app; right; now left |].
    split; [reflexivity |].
    destruct (columns_some _ _ Hcols) as [date [amount [Hd [Ha [_ ->]]]]].
    exists date, amount. split; [exact Hd |]. split; [exact Ha |].
    simpl. apply formDataOfLead_insertedLead.
  - intros l old date amount Hpk Hst Hon Hd Ha Hscore.
    assert (Hcols : columns (formData st)
                    = Some (with_columns date amount (formData st))).
    { unfold columns. rewrite Hd, Ha.
      unfold lead_score_check in Hscore. unfold int4.
      apply andb_true_iff in Hscore. destruct Hscore as [H0 H100].
      apply Z.leb_le in H0, H100.
      replace (-2147483648 <=? f_lead_score (formData st)) with true
        by (symmetry; apply Z.leb_le; lia).
      replace (f_lead_score (formData st) <=? 2147483647) with true
        by (symmetry; apply Z.leb_le; lia).
      reflexivity. }
    destruct (handleSubmit_update_own uid l old st w _ Hpk Hst Hon Hcols
                Hscore) as [Hrow _].
    destruct Hst as [_ [Hid Hu]].
    exists (updatedLead (hd "" (clock w))
              (with_columns date amount (formData st)) old).
    split; [exact Hrow |]. split; [exact Hid |]. split; [exact Hu |].
    split; [reflexivity |]. simpl. apply formDataOfLead_updatedLead.
Qed.

(* ===================================================================== *)
(** ** The keys of the tables along the handlers *)
(* ===================================================================== *)

Lemma NoDup_map_filter {Row Key : Type} (key : Row -> Key)
    (keep : Row -> bool) (rows : list Row)
    (Hkeys : NoDup (map key rows)) :
  NoDup (map key (filter keep rows)).
Proof.
  induction rows as [| r rows IH]; simpl in *; [constructor |].
  inversion Hkeys as [| ? ? Hr Hrows]; subst.
  destruct (keep r); simpl; [| now apply IH].
  constructor; [| now apply IH].
  intros Hin. apply Hr. apply in_map_iff in Hin.
  destruct Hin as [x [Hx Hin]]. apply filter_In in Hin.
  apply in_map_iff. exists x. tauto.
Qed.

Lemma same_link_key (a b : Link) :
  same_link a b = true <-> link_key a = link_key b.
Proof.
  unfold same_link, link_key.
  rewrite andb_true_iff, !String.eqb_eq. split.
  - intros [-> ->]. reflexivity.
  - intros H. injection H. auto.
Qed.

Lemma no_same_link (l : Link) (table : list Link) :
  existsb (same_link l) table = false ->
  ~ In (link_key l) (map link_key table).
Proof.
  intros H Hin. apply in_map_iff in Hin. destruct Hin as [x [Hk Hx]].
  assert (Ht : existsb (same_link l) table = true).
  { apply existsb_exists. exists x. split; [assumption |].
    apply same_link_key. now symmetry. }
  congruence.
Qed.

Lemma owns_lead_ref (uid : string) (d : Db) (l : Link) :
  owns_lead uid d l = true -> In (link_lead l) (map id (leads d)).
Proof.
  unfold owns_lead. rewrite existsb_exists. intros [r [Hr H]].
  apply andb_true_iff in H. destruct H as [H _].
  apply String.eqb_eq in H. rewrite <- H. now apply in_map.
Qed.

(** The rows [add_links] lets in belong to leads of the table and repeat
    no key, among themselves or with the rows already there. *)
Lemma add_links_accepted (uid : string) (d : Db) (rows : list Link) :
  forall table t,
    add_links uid d rows table = inr t ->
    (forall l, In l rows -> In (link_lead l) (map id (leads d)))
    /\ (NoDup (map link_key table) -> NoDup (map link_key t)).
Proof.
  induction rows as [|l rows IH]; intros table t H; simpl in H.
  - injection H as <-. split; [intros l [] | auto].
  - destruct (owns_lead uid d l) eqn:Ho; simpl in H; [| discriminate].
    destruct (existsb (same_link l) table) eqn:Hs; [discriminate |].
    destruct (IH _ _ H) as [Href Hnd]. split.
    + intros x [<- | Hx]; [now apply owns_lead_ref with uid | now apply Href].
    + intros Ht. apply Hnd. rewrite map_app. simpl.
      apply NoDup_app; [assumption | repeat constructor; intros [] |].
      intros k Hk [<- | []]. now apply (no_same_link l table).
Qed.

Lemma insert_links_result (catalog : list CatalogItem) (uid : string)
    (d : Db) (rows table : list Link) :
  snd (insert_links catalog uid d rows table) = table
  \/ (snd (insert_links catalog uid d rows table) = table ++ rows
      /\ fst (insert_links catalog uid d rows table) = None
      /\ (forall l, In l rows ->
            In (link_lead l) (map id (leads d))
            /\ In (link_item l) (map item_id catalog))
      /\ (NoDup (map link_key table) ->
          NoDup (map link_key (table ++ rows)))).
Proof.
  unfold insert_links.
  destruct (add_links uid d rows table) as [e | t] eqn:Hadd; [now left |].
  pose proof (add_links_appends _ _ _ _ _ Hadd) as Ht. subst t.
  destruct (add_links_accepted _ _ _ _ _ Hadd) as [Href Hnd].
  destruct (forallb _ rows) eqn:Hfk; [| now left].
  right. repeat split; auto.
  rewrite forallb_forall in Hfk. specialize (Hfk l H).
  apply existsb_exists in Hfk. destruct Hfk as [p [Hp He]].
  apply String.eqb_eq in He. rewrite <- He. now apply in_map.
Qed.

Lemma constraints_insert_lead (uid newId t : string) (fd : FormData)
    (d : Db) :
  constraints d -> constraints (snd (insert_lead uid newId t uid fd d)).
Proof.
  intros H. unfold insert_lead.
  destruct (columns fd) as [cols|]; [| exact H].
  destruct (negb (uid =? uid)%string); [exact H |].
  destruct (negb (lead_score_check _)); [exact H |].
  destruct (existsb _ (leads d)) eqn:Hex; [exact H |].
  destruct H as [Hpk [Hrl [Hrc Hu]]].
  simpl. unfold constraints, leads_pk, links_ref_leads. simpl.
  split; [| split; [| split; assumption]].
  - rewrite map_app. simpl.
    apply NoDup_app; [assumption | repeat constructor; intros [] |].
    intros k Hk [<- | []].
    apply in_map_iff in Hk. destruct Hk as [r [Hid Hr]].
    assert (Ht : existsb (fun r0 => (id r0 =? newId)%string) (leads d) = true).
    { apply existsb_exists. exists r. split; [assumption |].
      now apply String.eqb_eq. }
    congruence.
  - intros l Hl. rewrite map_app. apply in_or_app. left. now apply Hrl.
Qed.

Lemma map_id_rewritten (uid i : string) (g : Lead -> Lead) (ls : list Lead) :
  (forall x, id (g x) = id x) ->
  map id (map (fun x => if targets uid i uid x then g x else x) ls)
  = map id ls.
Proof.
  intros Hg. rewrite map_map. apply map_ext. intros x.
  destruct (targets uid i uid x); [apply Hg | reflexivity].
Qed.

Lemma constraints_rewritten (uid i : string) (g : Lead -> Lead) (d : Db) :
  (forall x, id (g x) = id x) ->
  constraints d ->
  constraints
    (with_leads (map (fun x => if targets uid i uid x then g x else x)
                     (leads d)) d).
Proof.
  intros Hg [Hpk [Hrl [Hrc Hu]]].
  unfold constraints, leads_pk, links_ref_leads. simpl.
  rewrite (map_id_rewritten uid i g (leads d) Hg). auto.
Qed.

Lemma constraints_update_lead (uid t i : string) (fd : FormData) (d : Db) :
  constraints d -> constraints (snd (update_lead uid t i uid fd d)).
Proof.
  intros H.
  destruct (update_lead_db uid t i fd d) as [-> | [cols [_ [_ ->]]]];
    [assumption | now apply constraints_rewritten].
Qed.

Lemma constraints_update_status (uid t i : string) (s : LeadStatus)
    (d : Db) :
  constraints d -> constraints (snd (update_status uid t i uid s d)).
Proof. intros H. simpl. now apply constraints_rewritten. Qed.

Lemma constraints_delete_lead (uid i : string) (d : Db) :
  constraints d -> constraints (snd (delete_lead uid i uid d)).
Proof.
  intros [Hpk [Hrl [[Hrp Hrs] [Hup Hus]]]].
  unfold constraints, leads_pk, links_ref_leads, links_ref_catalog,
    links_unique. simpl.
  split; [now apply NoDup_map_filter |].
  split; [| split; [split | split; now apply NoDup_map_filter]].
  - intros l Hl.
    assert (Hkept : In l (lead_products d) \/ In l (lead_services d)).
    { destruct Hl as [Hl | Hl]; apply filter_In in Hl; tauto. }
    assert (Hnot : arr_includes
                     (map id (filter (targets uid i uid) (leads d)))
                     (link_lead l) = false).
    { destruct Hl as [Hl | Hl]; apply filter_In in Hl;
        now apply negb_true_iff. }
    apply arr_includes_not_In in Hnot.
    pose proof (Hrl l Hkept) as Hin. apply in_map_iff in Hin.
    destruct Hin as [r [Hid Hr]]. apply in_map_iff. exists r.
    split; [assumption |]. apply filter_In. split; [assumption |].
    destruct (targets uid i uid r) eqn:Ht; [| reflexivity].
    exfalso. apply Hnot. rewrite <- Hid. apply in_map.
    apply filter_In. tauto.
  - intros l Hl. apply filter_In in Hl. now apply Hrp.
  - intros l Hl. apply filter_In in Hl. now apply Hrs.
Qed.

Lemma constraints_insert_lead_products (uid : string) (rows : list Link)
    (d : Db) :
  constraints d -> constraints (snd (insert_lead_products uid rows d)).
Proof.
  intros H. unfold insert_lead_products.
  pose proof (insert_links_result (products_tbl d) uid d rows
                (lead_products d)) as Hres.
  destruct (insert_links _ uid d rows _) as [e t]. simpl in *.
  destruct Hres as [-> | [-> [_ [Hrows Hnd]]]].
  - now destruct d.
  - destruct H as [Hpk [Hrl [[Hrp Hrs] [Hup Hus]]]].
    unfold constraints, leads_pk, links_ref_leads, links_ref_catalog,
      links_unique. simpl.
    split; [assumption |]. split; [| split; [split |]].
    + intros l [Hl | Hl]; [| now apply Hrl; right].
      apply in_app_iff in Hl. destruct Hl as [Hl | Hl];
        [apply Hrl; now left | now apply Hrows].
    + intros l Hl. apply in_app_iff in Hl.
      destruct Hl as [Hl | Hl]; [now apply Hrp | now apply Hrows].
    + assumption.
    + split; [now apply Hnd | assumption].
Qed.

Lemma constraints_insert_lead_services (uid : string) (rows : list Link)
    (d : Db) :
  constraints d -> constraints (snd (insert_lead_services uid rows d)).
Proof.
  intros H. unfold insert_lead_services.
  pose proof (insert_links_result (services_tbl d) uid d rows
                (lead_services d)) as Hres.
  destruct (insert_links _ uid d rows _) as [e t]. simpl in *.
  destruct Hres as [-> | [-> [_ [Hrows Hnd]]]].
  - now destruct d.
  - destruct H as [Hpk [Hrl [[Hrp Hrs] [Hup Hus]]]].
    unfold constraints, leads_pk, links_ref_leads, links_ref_catalog,
      links_unique. simpl.
    split; [assumption |]. split; [| split; [split |]].
    + intros l [Hl | Hl]; [now apply Hrl; left |].
      apply in_app_iff in Hl. destruct Hl as [Hl | Hl];
        [apply Hrl; now right | now apply Hrows].
    + assumption.
    + intros l Hl. apply in_app_iff in Hl.
      destruct Hl as [Hl | Hl]; [now apply Hrs | now apply Hrows].
    + split; [assumption | now apply Hnd].
Qed.

(** A request leaves the tables as they were or as its statement makes
    them. *)
Lemma request_db {A : Type} (lost : A) (q : Db -> A * Db) (w : World) :
  exists a w',
    request lost q w = (inr a, w')
    /\ (db w' = db w \/ db w' = snd (q (db w))).
Proof.
  unfold request. destruct (online w).
  - destruct (q (db (sent w))) as [a d] eqn:Hq. do 2 eexists.
    split; [reflexivity |]. right. simpl.
    change (db (sent w)) with (db w) in Hq. now rewrite Hq.
  - do 2 eexists. split; [reflexivity |]. now left.
Qed.

(** What every statement of the association block keeps, the block
    keeps. *)
Lemma insertAssociations_keeps (P : Db -> Prop) (uid : string) (row : Lead)
    (st : FormState) (w1 : World) :
  (forall rows d, P d -> P (snd (insert_lead_products uid rows d))) ->
  (forall rows d, P d -> P (snd (insert_lead_services uid rows d))) ->
  P (db w1) -> P (db (snd (insertAssociations uid row st w1))).
Proof.
  intros Hp Hs H1. unfold insertAssociations, bind.
  assert (Hstep : forall (w : World) (q : Db -> option PgError * Db),
            (forall d, P d -> P (snd (q d))) -> P (db w) ->
            exists a w', request (Some Unavailable) q w = (inr a, w')
                         /\ P (db w')).
  { intros w q Hq Hw.
    destruct (request_db (Some Unavailable) q w) as [a [w' [Hr Hd]]].
    exists a, w'. split; [assumption |].
    destruct Hd as [-> | ->]; auto. }
  destruct (nonEmpty (selectedProducts st)), (nonEmpty (selectedServices st));
    cbv beta iota.
  - destruct (Hstep w1 _ (Hp (linkRows (id row) (selectedProducts st))) H1)
      as [a [wp [Hr Hwp]]].
    rewrite Hr. destruct a as [e |]; simpl; [assumption |].
    destruct (Hstep wp _ (Hs (linkRows (id row) (selectedServices st))) Hwp)
      as [a [ws [Hr' Hws]]].
    rewrite Hr'. destruct a as [e |]; simpl; assumption.
  - destruct (Hstep w1 _ (Hp (linkRows (id row) (selectedProducts st))) H1)
      as [a [wp [Hr Hwp]]].
    rewrite Hr. destruct a as [e |]; simpl; assumption.
  - simpl.
    destruct (Hstep w1 _ (Hs (linkRows (id row) (selectedServices st))) H1)
      as [a [ws [Hr' Hws]]].
    rewrite Hr'. destruct a as [e |]; simpl; assumption.
  - simpl. assumption.
Qed.

Lemma db_createLead (uid : string) (st : FormState) (w : World) :
  db (snd (createLead uid st w)) = db w
  \/ db (snd (createLead uid st w))
     = snd (insert_lead uid (hd "" (uuids w)) (hd "" (clock w)) uid
              (formData st) (db w)).
Proof.
  rewrite createLead_eq. cbv zeta.
  destruct (online w); [| now left].
  destruct (insert_lead _ _ _ _ _ _) as [[e | row] d]; now right.
Qed.

Lemma db_handleSubmit_create (uid : string) (st : FormState) (w : World) :
  db (handleSubmit (Some uid) None st w) = db (snd (createLead uid st w))
  \/ exists row,
       db (handleSubmit (Some uid) None st w)
       = db (snd (insertAssociations uid row st (snd (createLead uid st w)))).
Proof.
  rewrite handleSubmit_create.
  destruct (createLead uid st w) as [[e | row] w1]; [now left |].
  right. exists row. simpl.
  destruct (insertAssociations uid row st w1) as [[e | []] w2]; reflexivity.
Qed.

(** X7.  The handlers keep the keys the migrations declare: if [leads] has
    no two rows with one id, every link refers to a lead of [leads] and to
    an item of its catalog, and no link table repeats a (lead, item) pair,
    then the same holds after a submit (create or update), a delete and a
    status change, whatever their arguments and however they end.  In
    particular a delete leaves no link of the deleted lead behind. *)
Theorem handlers_keep_table_keys :
  forall (user : option string) (lead : option Lead) (st : FormState)
         (confirmed : bool) (i : string) (s : LeadStatus) (w : World),
    constraints (db w) ->
    constraints (db (handleSubmit user lead st w))
    /\ constraints (db (handleDelete user confirmed i w))
    /\ constraints (db (handleStatusChange user i s w)).
Proof.
  intros user lead st confirmed i s w H.
  destruct user as [uid |]; [| repeat split; apply H].
  split; [| split].
  - destruct lead as [l |].
    + rewrite db_handleSubmit_update. destruct (online w); [| exact H].
      now apply constraints_update_lead.
    + assert (H1 : constraints (db (snd (createLead uid st w)))).
      { destruct (db_createLead uid st w) as [-> | ->];
          [exact H | now apply constraints_insert_lead]. }
      destruct (db_handleSubmit_create uid st w) as [-> | [row ->]];
        [exact H1 |].
      apply insertAssociations_keeps; [| | exact H1].
      * intros rows d. apply constraints_insert_lead_products.
      * intros rows d. apply constraints_insert_lead_services.
  - destruct confirmed; [| exact H].
    rewrite db_handleDelete. destruct (online w); [| exact H].
    now apply constraints_delete_lead.
  - rewrite db_handleStatusChange. destruct (online w); [| exact H].
    now apply constraints_update_status.
Qed.

(* ===================================================================== *)
(** ** Deleting and restating a lead of one's own *)
(* ===================================================================== *)

(** Under the primary key a request that names a lead of the signed-in
    user reaches that row only. *)
Lemma targets_own (uid : string) (l r : Lead) (d : Db) :
  leads_pk d -> In l (leads d) -> user_id l = uid -> In r (leads d) ->
  targets uid (id l) uid r = true <-> r = l.
Proof.
  intros Hpk Hl Hu Hr. split.
  - intros Ht. unfold targets in Ht.
    rewrite !andb_true_iff, !String.eqb_eq in Ht.
    eapply same_id_same_row; eauto. tauto.
  - intros ->. unfold targets. now rewrite Hu, !String.eqb_refl.
Qed.

(** X8.  A confirmed delete of a lead of the signed-in user that gets
    through removes that row and no other, removes the links of that lead
    and no other (the cascade), logs nothing and calls onLeadDeleted. *)
Theorem delete_removes_lead_and_its_links :
  forall (uid : string) (l : Lead) (w : World),
    leads_pk (db w) -> In l (leads (db w)) -> user_id l = uid ->
    online w = true ->
    (forall r, In r (leads (db (handleDelete (Some uid) true (id l) w)))
               <-> In r (leads (db w)) /\ r <> l)
    /\ (forall k,
          In k (lead_products (db (handleDelete (Some uid) true (id l) w)))
          <-> In k (lead_products (db w)) /\ link_lead k <> id l)
    /\ (forall k,
          In k (lead_services (db (handleDelete (Some uid) true (id l) w)))
          <-> In k (lead_services (db w)) /\ link_lead k <> id l)
    /\ console (handleDelete (Some uid) true (id l) w) = console w
    /\ callbacks (handleDelete (Some uid) true (id l) w)
       = callbacks w ++ [OnLeadDeleted].
Proof.
  intros uid l w Hpk Hl Hu Hon.
  rewrite handleDelete_eq, Hon.
  unfold called, exec, call, delete_lead. simpl.
  rewrite (own_lead_reached uid l (db w) Hpk Hl Hu). simpl.
  assert (Hkept : forall k : Link,
            negb ((id l =? link_lead k)%string || false) = true
            <-> link_lead k <> id l).
  { intros k. rewrite orb_false_r, negb_true_iff, String.eqb_neq.
    split; intros H E; apply H; now symmetry. }
  split; [| split; [| split; [| split; reflexivity]]].
  - intros r. rewrite filter_In, negb_true_iff. split.
    + intros [Hr Ht]. split; [assumption |]. intros ->.
      rewrite (proj2 (targets_own uid l l (db w) Hpk Hl Hu Hl) eq_refl) in Ht.
      discriminate.
    + intros [Hr Hne]. split; [assumption |].
      destruct (targets uid (id l) uid r) eqn:Ht; [| reflexivity].
      exfalso. apply Hne. now apply (targets_own uid l r (db w)).
  - intros k. now rewrite filter_In, Hkept.
  - intros k. now rewrite filter_In, Hkept.
Qed.

(** X9.  A status change of a lead of the signed-in user that gets through
    replaces that row by the same row with the new status and the time of
    the change, whatever the old and the new status are; every other row
    and both link tables stay, nothing is logged and onLeadUpdated is
    called. *)
Theorem status_change_rewrites_status_only :
  forall (uid : string) (l : Lead) (s : LeadStatus) (w : World),
    leads_pk (db w) -> In l (leads (db w)) -> user_id l = uid ->
    online w = true ->
    (forall r,
        In r (leads (db (handleStatusChange (Some uid) (id l) s w)))
        <-> r = restatedLead (hd "" (clock w)) s l
            \/ (In r (leads (db w)) /\ r <> l))
    /\ status (restatedLead (hd "" (clock w)) s l) = s
    /\ formDataOfLead (restatedLead (hd "" (clock w)) s l)
       = set_choice (SetStatus s) (formDataOfLead l)
    /\ lead_products (db (handleStatusChange (Some uid) (id l) s w))
       = lead_products (db w)
    /\ lead_services (db (handleStatusChange (Some uid) (id l) s w))
       = lead_services (db w)
    /\ console (handleStatusChange (Some uid) (id l) s w) = console w
    /\ callbacks (handleStatusChange (Some uid) (id l) s w)
       = callbacks w ++ [OnLeadUpdated].
Proof.
  intros uid l s w Hpk Hl Hu Hon.
  rewrite handleStatusChange_eq. cbv zeta. rewrite Hon.
  unfold called, exec, call, update_status. simpl.
  split; [| repeat split].
  - intros r. rewrite in_map_iff. split.
    + intros [x [Hx Hin]].
      destruct (targets uid (id l) uid x) eqn:Ht.
      * left. apply (targets_own uid l x (db w) Hpk Hl Hu Hin) in Ht.
        now subst.
      * right. subst x. split; [assumption |]. intros ->.
        rewrite (proj2 (targets_own uid l l (db w) Hpk Hl Hu Hl) eq_refl)
          in Ht.
        discriminate.
    + intros [-> | [Hin Hne]].
      * exists l. split; [| assumption].
        now rewrite (proj2 (targets_own uid l l (db w) Hpk Hl Hu Hl) eq_refl).
      * exists r. split; [| assumption].
        destruct (targets uid (id l) uid r) eqn:Ht; [| reflexivity].
        exfalso. apply Hne. now apply (targets_own uid l r (db w)).
Qed.

(* ===================================================================== *)
(** ** Creating a lead with its associations *)
(* ===================================================================== *)

Lemma add_links_ok (uid : string) (d : Db) (rows : list Link) :
  forall table,
    (forall l, In l rows -> owns_lead uid d l = true) ->
    NoDup (map link_key rows) ->
    (forall l, In l rows -> ~ In (link_key l) (map link_key table)) ->
    add_links uid d rows table = inr (table ++ rows).
Proof.
  induction rows as [|l rows IH]; intros table Ho Hnd Hnew; simpl.
  - now rewrite app_nil_r.
  - rewrite (Ho l) by now left. simpl.
    assert (Hs : existsb (same_link l) table = false).
    { destruct (existsb (same_link l) table) eqn:He; [| reflexivity].
      exfalso. apply existsb_exists in He. destruct He as [x [Hx Hk]].
      apply same_link_key in Hk. apply (Hnew l); [now left |].
      rewrite Hk. now apply in_map. }
    rewrite Hs. inversion Hnd as [| ? ? Hl Hnd']; subst.
    rewrite IH.
    + now rewrite <- app_assoc.
    + intros x Hx. apply Ho. now right.
    + assumption.
    + intros x Hx Hin. rewrite map_app in Hin. apply in_app_iff in Hin.
      destruct Hin as [Hin | [Hin | []]].
      * apply (Hnew x); [now right | assumption].
      * apply Hl. rewrite Hin. now apply in_map.
Qed.

Lemma insert_links_ok (catalog : list CatalogItem) (uid : string) (d : Db)
    (rows table : list Link) :
  (forall l, In l rows -> owns_lead uid d l = true) ->
  NoDup (map link_key rows) ->
  (forall l, In l rows -> ~ In (link_key l) (map link_key table)) ->
  (forall l, In l rows -> In (link_item l) (map item_id catalog)) ->
  insert_links catalog uid d rows table = (None, table ++ rows).
Proof.
  intros Ho Hnd Hnew Hcat. unfold insert_links.
  rewrite (add_links_ok uid d rows table Ho Hnd Hnew).
  assert (Hfk : forallb
                  (fun l => existsb (fun p => (item_id p =? link_item l)%string)
                                    catalog) rows = true).
  { apply forallb_forall. intros l Hl. apply existsb_exists.
    specialize (Hcat l Hl). apply in_map_iff in Hcat.
    destruct Hcat as [p [Hp Hin]]. exists p. split; [assumption |].
    now apply String.eqb_eq. }
  now rewrite Hfk.
Qed.

(** The links made for a fresh lead of the signed-in user from a
    selection without repeats pass the policy and the UNIQUE key. *)
Lemma linkRows_pass (uid newId : string) (sel : list string) (d : Db)
    (table : list Link) :
  (exists r, In r (leads d) /\ id r = newId /\ user_id r = uid) ->
  NoDup sel ->
  (forall k, In k table -> link_lead k <> newId) ->
  (forall l, In l (linkRows newId sel) -> owns_lead uid d l = true)
  /\ NoDup (map link_key (linkRows newId sel))
  /\ (forall l, In l (linkRows newId sel) ->
        ~ In (link_key l) (map link_key table)).
Proof.
  intros [r [Hr [Hid Hu]]] Hnd Htable. unfold linkRows. split; [| split].
  - intros l Hl. apply in_map_iff in Hl. destruct Hl as [i [<- _]].
    unfold owns_lead. apply existsb_exists. exists r. simpl.
    split; [assumption |]. now rewrite Hid, Hu, !String.eqb_refl.
  - rewrite map_map. simpl. clear Htable.
    induction Hnd as [| i sel Hi Hnd IH]; simpl; constructor;
      [| assumption].
    intros Hin. apply Hi. apply in_map_iff in Hin.
    destruct Hin as [j [Hj Hin]]. injection Hj as ->. assumption.
  - intros l Hl Hin. apply in_map_iff in Hl. destruct Hl as [i [<- _]].
    apply in_map_iff in Hin. destruct Hin as [k [Hk Hin]].
    unfold link_key in Hk. simpl in Hk. injection Hk as Hlead _.
    now apply (Htable k).
Qed.

Lemma delivered_online (w : World) : delivered w -> online w = true.
Proof.
  unfold delivered, online. destruct (net w) as [|ok rest]; [reflexivity |].
  intros H. apply H. now left.
Qed.

Lemma delivered_sent (w : World) : delivered w -> delivered (sent w).
Proof.
  unfold delivered. simpl. intros H ok Hok. apply H.
  destruct (net w); [contradiction | now right].
Qed.

Lemma insert_lead_ok (uid newId t : string) (fd cols : FormData) (d : Db) :
  columns fd = Some cols ->
  lead_score_check (f_lead_score fd) = true ->
  ~ In newId (map id (leads d)) ->
  insert_lead uid newId t uid fd d
  = (inr (insertedLead newId t uid cols),
     with_leads (leads d ++ [insertedLead newId t uid cols]) d).
Proof.
  intros Hcols Hscore Hfresh. unfold insert_lead. rewrite Hcols. simpl.
  rewrite String.eqb_refl, (columns_score _ _ Hcols), Hscore. simpl.
  assert (Hex : existsb (fun r => (id r =? newId)%string) (leads d) = false).
  { destruct (existsb _ (leads d)) eqn:He; [| reflexivity].
    exfalso. apply existsb_exists in He. destruct He as [r [Hr Hid]].
    apply String.eqb_eq in Hid. apply Hfresh. rewrite <- Hid.
    now apply in_map. }
  now rewrite Hex.
Qed.

Lemma nonEmpty_false {A : Type} (l : list A) : nonEmpty l = false -> l = [].
Proof. destruct l; [reflexivity | discriminate]. Qed.

Lemma request_lead_products_ok (uid newId : string) (sel : list string)
    (w : World) :
  delivered w ->
  (exists r, In r (leads (db w)) /\ id r = newId /\ user_id r = uid) ->
  NoDup sel ->
  (forall k, In k (lead_products (db w)) -> link_lead k <> newId) ->
  (forall i, In i sel -> In i (map item_id (products_tbl (db w)))) ->
  request (Some Unavailable) (insert_lead_products uid (linkRows newId sel)) w
  = (inr None,
     with_db (with_lead_products
                (lead_products (db w) ++ linkRows newId sel) (db w))
             (sent w)).
Proof.
  intros Hdel Hrow Hnd Hnew Hcat. unfold request.
  rewrite (delivered_online w Hdel). unfold insert_lead_products.
  change (db (sent w)) with (db w).
  destruct (linkRows_pass uid newId sel (db w) (lead_products (db w))
              Hrow Hnd Hnew) as [Ho [Hk Hf]].
  rewrite (insert_links_ok (products_tbl (db w)) uid (db w)
             (linkRows newId sel) (lead_products (db w)) Ho Hk Hf).
  - reflexivity.
  - intros l Hl. unfold linkRows in Hl. apply in_map_iff in Hl.
    destruct Hl as [i [<- Hi]]. simpl. now apply Hcat.
Qed.

Lemma request_lead_services_ok (uid newId : string) (sel : list string)
    (w : World) :
  delivered w ->
  (exists r, In r (leads (db w)) /\ id r = newId /\ user_id r = uid) ->
  NoDup sel ->
  (forall k, In k (lead_services (db w)) -> link_lead k <> newId) ->
  (forall i, In i sel -> In i (map item_id (services_tbl (db w)))) ->
  request (Some Unavailable) (insert_lead_services uid (linkRows newId sel)) w
  = (inr None,
     with_db (with_lead_services
                (lead_services (db w) ++ linkRows newId sel) (db w))
             (sent w)).
Proof.
  intros Hdel Hrow Hnd Hnew Hcat. unfold request.
  rewrite (delivered_online w Hdel). unfold insert_lead_services.
  change (db (sent w)) with (db w).
  destruct (linkRows_pass uid newId sel (db w) (lead_services (db w))
              Hrow Hnd Hnew) as [Ho [Hk Hf]].
  rewrite (insert_links_ok (services_tbl (db w)) uid (db w)
             (linkRows newId sel) (lead_services (db w)) Ho Hk Hf).
  - reflexivity.
  - intros l Hl. unfold linkRows in Hl. apply in_map_iff in Hl.
    destruct Hl as [i [<- Hi]]. simpl. now apply Hcat.
Qed.

Lemma insertAssociations_ok (uid : string) (row : Lead) (st : FormState)
    (w1 : World) :
  delivered w1 ->
  (exists r, In r (leads (db w1)) /\ id r = id row /\ user_id r = uid) ->
  NoDup (selectedProducts st) -> NoDup (selectedServices st) ->
  (forall k, In k (lead_products (db w1)) -> link_lead k <> id row) ->
  (forall k, In k (lead_services (db w1)) -> link_lead k <> id row) ->
  (forall i, In i (selectedProducts st) ->
             In i (map item_id (products_tbl (db w1)))) ->
  (forall i, In i (selectedServices st) ->
             In i (map item_id (services_tbl (db w1)))) ->
  exists w2,
    insertAssociations uid row st w1 = (inr tt, w2)
    /\ leads (db w2) = leads (db w1)
    /\ lead_products (db w2)
       = lead_products (db w1) ++ linkRows (id row) (selectedProducts st)
    /\ lead_services (db w2)
       = lead_services (db w1) ++ linkRows (id row) (selectedServices st)
    /\ console w2 = console w1 /\ callbacks w2 = callbacks w1.
Proof.
  intros Hdel Hrow Hndp Hnds Hnp Hns Hcp Hcs.
  unfold insertAssociations, bind.
  assert (Hsvc : forall w,
            delivered w -> leads (db w) = leads (db w1) ->
            lead_services (db w) = lead_services (db w1) ->
            services_tbl (db w) = services_tbl (db w1) ->
            exists w2,
              (if nonEmpty (selectedServices st)
               then fun w0 =>
                      match request (Some Unavailable)
                              (insert_lead_services uid
                                 (linkRows (id row) (selectedServices st)))
                              w0 with
                      | (inl e, w') => (inl e, w')
                      | (inr a, w') => throwIf a w'
                      end
               else ret tt) w = (inr tt, w2)
              /\ leads (db w2) = leads (db w)
              /\ lead_products (db w2) = lead_products (db w)
              /\ lead_services (db w2)
                 = lead_services (db w)
                   ++ linkRows (id row) (selectedServices st)
              /\ console w2 = console w /\ callbacks w2 = callbacks w).
  { intros w Hd Hl Hs Ht.
    destruct (nonEmpty (selectedServices st)) eqn:Hne.
    - rewrite (request_lead_services_ok uid (id row) (selectedServices st) w);
        try assumption.
      + eexists. split; [reflexivity |]. simpl. repeat split.
      + now rewrite Hl.
      + now rewrite Hs.
      + now rewrite Ht.
    - apply nonEmpty_false in Hne. rewrite Hne. exists w.
      split; [reflexivity |]. simpl. rewrite app_nil_r. repeat split. }
  destruct (nonEmpty (selectedProducts st)) eqn:Hne.
  - rewrite (request_lead_products_ok uid (id row) (selectedProducts st) w1)
      by assumption.
    cbv beta iota. simpl throwIf. cbv beta iota.
    match goal with
    | |- context [with_db ?d (sent w1)] =>
        destruct (Hsvc (with_db d (sent w1)))
          as [w2 [Heq [Hl [Hp [Hs [Hc Hk]]]]]];
        [now apply delivered_sent | reflexivity | reflexivity
        | reflexivity |]
    end.
    exists w2. split; [exact Heq |]. simpl in *. repeat split; assumption.
  - apply nonEmpty_false in Hne. rewrite Hne. simpl linkRows.
    rewrite app_nil_r. cbv beta iota. simpl ret.
    destruct (Hsvc w1 Hdel eq_refl eq_refl eq_refl)
      as [w2 [Heq [Hl [Hp [Hs [Hc Hk]]]]]].
    exists w2. split; [exact Heq |]. repeat split; assumption.
Qed.

(** X10.  A create that nothing stops goes through whole.  If every request
    gets through, the column types take the values of the form (so the
    follow-up date is a date), the score is in [0,100], the id the backend
    generates is not in [leads] and no link carries it, the selections
    repeat no id and every selected id is (still) in the backend's catalog,
    then [handleSubmit] appends the new lead, owned by the signed-in user
    and holding the values as the columns read them, and one link with
    quantity 1 per selected product and per selected service; it logs
    nothing and calls onLeadCreated once. *)
Theorem create_stores_lead_and_every_association :
  forall (uid : string) (st : FormState) (w : World) (cols : FormData),
    delivered w ->
    columns (formData st) = Some cols ->
    lead_score_check (f_lead_score (formData st)) = true ->
    ~ In (hd "" (uuids w)) (map id (leads (db w))) ->
    (forall k, In k (lead_products (db w)) \/ In k (lead_services (db w)) ->
               link_lead k <> hd "" (uuids w)) ->
    NoDup (selectedProducts st) -> NoDup (selectedServices st) ->
    (forall i, In i (selectedProducts st) ->
               In i (map item_id (products_tbl (db w)))) ->
    (forall i, In i (selectedServices st) ->
               In i (map item_id (services_tbl (db w)))) ->
    leads (db (handleSubmit (Some uid) None st w))
      = leads (db w)
        ++ [insertedLead (hd "" (uuids w)) (hd "" (clock w)) uid cols]
    /\ lead_products (db (handleSubmit (Some uid) None st w))
       = lead_products (db w)
         ++ map (fun i => {| link_lead := hd "" (uuids w); link_item := i;
                             quantity := 1 |}) (selectedProducts st)
    /\ lead_services (db (handleSubmit (Some uid) None st w))
       = lead_services (db w)
         ++ map (fun i => {| link_lead := hd "" (uuids w); link_item := i;
                             quantity := 1 |}) (selectedServices st)
    /\ console (handleSubmit (Some uid) None st w) = console w
    /\ callbacks (handleSubmit (Some uid) None st w)
       = callbacks w ++ [OnLeadCreated].
Proof.
  intros uid st w cols Hdel Hcols Hscore Hfresh Hlinks Hndp Hnds Hcp Hcs.
  rewrite handleSubmit_create, createLead_eq. cbv zeta.
  rewrite (delivered_online w Hdel).
  rewrite (insert_lead_ok uid _ _ _ _ _ Hcols Hscore Hfresh).
  set (row := insertedLead (hd "" (uuids w)) (hd "" (clock w)) uid cols).
  set (w1 := with_db (with_leads (leads (db w) ++ [row]) (db w))
                     (sent (snd (now (snd (gen_random_uuid w)))))).
  destruct (insertAssociations_ok uid row st w1)
    as [w2 [Heq [Hl [Hp [Hs [Hc Hk]]]]]]; try assumption.
  - apply (delivered_sent (snd (now (snd (gen_random_uuid w))))).
    exact Hdel.
  - exists row. split; [| split; reflexivity].
    simpl. apply in_or_app. right. now left.
  - intros k Hk. apply Hlinks. now left.
  - intros k Hk. apply Hlinks. now right.
  - rewrite Heq. unfold called, exec, call. simpl.
    rewrite Hl, Hp, Hs, Hc, Hk. repeat split.
Qed.

(* ===================================================================== *)
(** ** More on the dashboard: statistics, failures, filters *)
(* ===================================================================== *)

Lemma countStatus_partition (data : list Lead) :
  Z.of_nat (List.length data)
  = countStatus New data + countStatus InProgress data
    + countStatus Closed data.
Proof.
  unfold countStatus. induction data as [|r data IH]; [reflexivity |].
  assert (Hcons : forall s,
            List.length
              (filter (fun lead => (status_str (status lead)
                                    =? status_str s)%string) (r :: data))
            = ((if (status_str (status r) =? status_str s)%string
                then 1 else 0)
               + List.length
                   (filter (fun lead => (status_str (status lead)
                                         =? status_str s)%string) data))%nat).
  { intros s. simpl.
    destruct (status_str (status r) =? status_str s)%string; reflexivity. }
  rewrite !Hcons. change (List.length (r :: data)) with (S (List.length data)).
  destruct (status r); simpl status_str in *;
    change ("New" =? "New")%string with true;
    change ("New" =? "In-Progress")%string with false;
    change ("New" =? "Closed")%string with false;
    change ("Closed" =? "New")%string with false;
    change ("Closed" =? "In-Progress")%string with false;
    change ("Closed" =? "Closed")%string with true;
    change ("In-Progress" =? "New")%string with false;
    change ("In-Progress" =? "In-Progress")%string with true;
    change ("In-Progress" =? "Closed")%string with false;
    cbv iota; lia.
Qed.

Lemma filter_length_le {A : Type} (f : A -> bool) (l : list A) :
  (List.length (filter f l) <= List.length l)%nat.
Proof.
  induction l as [|a l IH]; simpl; [lia |].
  destruct (f a); simpl; lia.
Qed.

(** X11.  After a fetch that gets through, the four statistics agree with
    the leads fetched: the total is their number and is the sum of the New,
    In-Progress and Closed counts.  The statistics count every lead of the
    user, whatever the search term and the filters hide. *)
Theorem fetched_stats_partition_the_leads :
  forall (uid : string) (d : Dashboard) (w : World),
    online w = true ->
    total (stats (fst (fetchLeads (Some uid) d w)))
      = Z.of_nat (List.length (d_leads (fst (fetchLeads (Some uid) d w))))
    /\ total (stats (fst (fetchLeads (Some uid) d w)))
       = new_count (stats (fst (fetchLeads (Some uid) d w)))
         + contacted (stats (fst (fetchLeads (Some uid) d w)))
         + closed (stats (fst (fetchLeads (Some uid) d w)))
    /\ Z.of_nat (List.length
                   (filteredLeads (fst (fetchLeads (Some uid) d w))))
       <= total (stats (fst (fetchLeads (Some uid) d w))).
Proof.
  intros uid d w Hon. rewrite (fetchLeads_online uid d w Hon). simpl.
  split; [reflexivity |]. split; [apply countStatus_partition |].
  unfold filteredLeads. simpl. apply Nat2Z.inj_le, filter_length_le.
Qed.

(** X12.  A fetch never writes a table and never changes the search term,
    the filters or whether the form is shown; with a user signed in it
    always ends with loading off.  When the request does not get through
    the leads and the statistics on screen stay as they were and one line,
    "Error fetching leads:", is logged. *)
Theorem fetch_failure_keeps_what_is_shown :
  forall (uid : string) (d : Dashboard) (w : World),
    (db (snd (fetchLeads (Some uid) d w)) = db w
     /\ searchTerm (fst (fetchLeads (Some uid) d w)) = searchTerm d
     /\ filterStatus (fst (fetchLeads (Some uid) d w)) = filterStatus d
     /\ filterLeadType (fst (fetchLeads (Some uid) d w)) = filterLeadType d
     /\ filterModelType (fst (fetchLeads (Some uid) d w)) = filterModelType d
     /\ showForm (fst (fetchLeads (Some uid) d w)) = showForm d
     /\ d_loading (fst (fetchLeads (Some uid) d w)) = false)
    /\ (online w = false ->
        d_leads (fst (fetchLeads (Some uid) d w)) = d_leads d
        /\ stats (fst (fetchLeads (Some uid) d w)) = stats d
        /\ filteredLeads (fst (fetchLeads (Some uid) d w)) = filteredLeads d
        /\ console (snd (fetchLeads (Some uid) d w))
           = console w ++ [("Error fetching leads:", Unavailable)]).
Proof.
  intros uid d w. unfold fetchLeads, request.
  destruct (online w); simpl.
  - split; [repeat split | discriminate].
  - split; [repeat split | intros _; repeat split].
Qed.

Lemma leadMatches_term_case (t1 t2 fS fL fM : string) (lead : Lead) :
  toLowerCase t1 = toLowerCase t2 ->
  leadMatches t1 fS fL fM lead = leadMatches t2 fS fL fM lead.
Proof. intros H. unfold leadMatches. now rewrite H. Qed.

(** X13.  The search ignores the case of an ASCII search term: two terms
    of ASCII characters with the same letters, case ignored, show the same
    leads, whatever the texts of the leads are. *)
Theorem search_ignores_case_of_term :
  forall (d : Dashboard) (t1 t2 : string),
    isAscii t1 = true -> isAscii t2 = true -> sameLetters t1 t2 = true ->
    filteredLeads (setSearchTerm t1 d) = filteredLeads (setSearchTerm t2 d).
Proof.
  intros d t1 t2 H1 H2 H. unfold filteredLeads. simpl.
  apply filter_ext. intros lead. apply leadMatches_term_case.
  rewrite (toLowerCase_ascii t1 H1), (toLowerCase_ascii t2 H2).
  now apply asciiLower_sameLetters.
Qed.

Lemma status_str_cases (s : LeadStatus) :
  status_str s = "New" \/ status_str s = "In-Progress"
  \/ status_str s = "Closed".
Proof. destruct s; simpl; auto. Qed.

(** X14.  A filter that is set keeps exactly the shown leads with that
    value: every lead left by a non-empty status, lead-type or model-type
    filter has that status, lead type or model type, and every lead it
    drops from the list without that filter has another one.  A status
    filter that is none of "New", "In-Progress", "Closed" leaves no lead.
    Filtering only narrows: what is shown is always among the fetched
    leads, in their order. *)
Theorem filters_keep_exactly_the_matching_leads :
  forall (d : Dashboard) (v : string),
    v <> "" ->
    (forall l, In l (filteredLeads (setFilterStatus v d))
               <-> In l (filteredLeads (setFilterStatus "" d))
                   /\ status_str (status l) = v)
    /\ (forall l, In l (filteredLeads (setFilterLeadType v d))
                  <-> In l (filteredLeads (setFilterLeadType "" d))
                      /\ lead_type_str (lead_type l) = v)
    /\ (forall l, In l (filteredLeads (setFilterModelType v d))
                  <-> In l (filteredLeads (setFilterModelType "" d))
                      /\ model_type_str (model_type l) = v)
    /\ (v <> "New" -> v <> "In-Progress" -> v <> "Closed" ->
        filteredLeads (setFilterStatus v d) = [])
    /\ (forall l, In l (filteredLeads d) -> In l (d_leads d))
    /\ (StronglySorted scoreDesc (d_leads d) ->
        StronglySorted scoreDesc (filteredLeads d)).
Proof.
  intros d v Hv.
  assert (Htruthy : truthy v = true).
  { destruct (truthy v) eqn:Ht; [reflexivity |].
    apply truthy_false_iff in Ht. contradiction. }
  assert (Hstatus : forall l,
            In l (filteredLeads (setFilterStatus v d))
            <-> In l (filteredLeads (setFilterStatus "" d))
                /\ status_str (status l) = v).
  { intros l. unfold filteredLeads. simpl. rewrite !filter_In.
    unfold leadMatches. rewrite Htruthy. simpl.
    rewrite !andb_true_iff, String.eqb_eq. tauto. }
  split; [exact Hstatus |]. split; [| split; [| split; [| split]]].
  - intros l. unfold filteredLeads. simpl. rewrite !filter_In.
    unfold leadMatches. rewrite Htruthy. simpl.
    rewrite !andb_true_iff, String.eqb_eq. tauto.
  - intros l. unfold filteredLeads. simpl. rewrite !filter_In.
    unfold leadMatches. rewrite Htruthy. simpl.
    rewrite !andb_true_iff, String.eqb_eq. tauto.
  - intros H1 H2 H3.
    destruct (filteredLeads (setFilterStatus v d)) as [|l rest] eqn:He;
      [reflexivity |].
    destruct (proj1 (Hstatus l) (or_introl eq_refl)) as [_ Hl].
    destruct (status_str_cases (status l)) as [H | [H | H]]; congruence.
  - intros l Hl. unfold filteredLeads in Hl. apply filter_In in Hl. tauto.
  - apply filter_sorted.
Qed.

(* ===================================================================== *)
(** ** Handlers and the refresh that follows them *)
(* ===================================================================== *)

Lemma fetched_leads_In (uid : string) (d : Dashboard) (w : World) (r : Lead) :
  online w = true ->
  In r (d_leads (fst (fetchLeads (Some uid) d w)))
  <-> In r (leads (db w)) /\ user_id r = uid.
Proof.
  intros Hon. rewrite (fetchLeads_online uid d w Hon). simpl.
  unfold select_leads. split.
  - intros H.
    apply (Permutation_in _ (order_by_score_desc_perm _)) in H.
    apply filter_In in H. rewrite andb_true_iff, String.eqb_eq in H. tauto.
  - intros [Hin Hu].
    apply (Permutation_in _
             (Permutation_sym (order_by_score_desc_perm _))).
    apply filter_In. split; [assumption |].
    now rewrite andb_true_iff, String.eqb_eq.
Qed.

(** X15.  Delete, then the refresh it triggers.  When both requests get
    through, after a confirmed delete of a lead of the signed-in user and
    the [handleLeadDeleted] that follows, the dashboard holds exactly the
    user's other leads; the deleted lead is no longer shown under any
    filter. *)
Theorem deleted_lead_is_gone_after_refresh :
  forall (uid : string) (l : Lead) (d : Dashboard) (w : World),
    leads_pk (db w) -> In l (leads (db w)) -> user_id l = uid ->
    delivered w ->
    (forall r,
        In r (d_leads (fst (handleLeadDeleted (Some uid) d
                              (handleDelete (Some uid) true (id l) w))))
        <-> In r (leads (db w)) /\ user_id r = uid /\ r <> l)
    /\ ~ In l (filteredLeads (fst (handleLeadDeleted (Some uid) d
                                     (handleDelete (Some uid) true (id l)
                                        w))))
    /\ callbacks (handleDelete (Some uid) true (id l) w)
       = callbacks w ++ [OnLeadDeleted].
Proof.
  intros uid l d w Hpk Hl Hu Hdel.
  pose proof (delivered_online w Hdel) as Hon.
  assert (Hon1 : online (handleDelete (Some uid) true (id l) w) = true).
  { rewrite handleDelete_eq, Hon.
    apply (delivered_online (sent w)), delivered_sent, Hdel. }
  assert (Hrows : forall r,
            In r (d_leads (fst (handleLeadDeleted (Some uid) d
                                  (handleDelete (Some uid) true (id l) w))))
            <-> In r (leads (db w)) /\ user_id r = uid /\ r <> l).
  { intros r. unfold handleLeadDeleted.
    rewrite (fetched_leads_In uid d _ r Hon1), db_handleDelete, Hon.
    simpl. rewrite filter_In, negb_true_iff. split.
    - intros [[Hr Ht] Hur]. repeat split; try assumption. intros ->.
      rewrite (proj2 (targets_own uid l l (db w) Hpk Hl Hu Hl) eq_refl) in Ht.
      discriminate.
    - intros [Hr [Hur Hne]]. split; [split |]; try assumption.
      destruct (targets uid (id l) uid r) eqn:Ht; [| reflexivity].
      exfalso. apply Hne. now apply (targets_own uid l r (db w)). }
  split; [exact Hrows |]. split.
  - intros Hin. unfold filteredLeads in Hin. apply filter_In in Hin.
    destruct Hin as [Hin _]. apply Hrows in Hin. tauto.
  - rewrite handleDelete_eq, Hon. reflexivity.
Qed.

Lemma createLead_frame (uid : string) (st : FormState) (w : World) :
  console (snd (createLead uid st w)) = console w
  /\ callbacks (snd (createLead uid st w)) = callbacks w.
Proof.
  rewrite createLead_eq. cbv zeta.
  destruct (online w); [| split; reflexivity].
  destruct (insert_lead _ _ _ _ _ _) as [[e | row] d]; split; reflexivity.
Qed.

(** A create either logs one error and does not call back, or calls back,
    logs nothing and has the new row in [leads]. *)
Lemma handleSubmit_create_cases (uid : string) (st : FormState) (w : World) :
  (exists e,
      console (handleSubmit (Some uid) None st w)
        = console w ++ [("Error saving lead:", e)]
      /\ callbacks (handleSubmit (Some uid) None st w) = callbacks w)
  \/ (console (handleSubmit (Some uid) None st w) = console w
      /\ callbacks (handleSubmit (Some uid) None st w)
         = callbacks w ++ [OnLeadCreated]
      /\ exists cols,
           columns (formData st) = Some cols
           /\ leads (db (handleSubmit (Some uid) None st w))
              = leads (db w)
                ++ [insertedLead (hd "" (uuids w)) (hd "" (clock w)) uid
                      cols]).
Proof.
  rewrite handleSubmit_create.
  destruct (createLead_frame uid st w) as [Hc Hk].
  destruct (createLead uid st w) as [[e | row] w1] eqn:Hcreate;
    simpl in Hc, Hk.
  - left. exists e. unfold logged, exec, console_error. simpl.
    now rewrite Hc, Hk.
  - destruct (createLead_success _ _ _ _ _ Hcreate)
      as [[cols [Hcols ->]] [Hl _]].
    destruct (insertAssociations_frame uid
                (insertedLead (hd "" (uuids w)) (hd "" (clock w)) uid cols)
                st w1) as [Hl2 [_ [_ [Hc2 Hk2]]]].
    destruct (insertAssociations uid _ st w1) as [[e | []] w2];
      simpl in Hl2, Hc2, Hk2.
    + left. exists e. unfold logged, exec, console_error. simpl.
      now rewrite Hc2, Hk2, Hc, Hk.
    + right. unfold called, exec, call. simpl.
      rewrite Hc2, Hk2, Hc, Hk. repeat split.
      exists cols. split; [exact Hcols |]. now rewrite Hl2, Hl.
Qed.

Lemma app_one_neq {A : Type} (l : list A) (x : A) : l <> l ++ [x].
Proof.
  intros H. apply (f_equal (@List.length A)) in H.
  rewrite length_app in H. simpl in H. lia.
Qed.

(** X16.  With a user signed in (and the delete confirmed) every run of a
    handler ends in exactly one of two ways: it logs one error line and
    does not call back, or it calls its callback once and logs nothing.
    Without a user, or without the confirmation, it does nothing at all. *)
Theorem handlers_report_success_or_one_error :
  forall (uid : string) (lead : option Lead) (st : FormState) (i : string)
         (s : LeadStatus) (w : World),
    ((exists e,
         console (handleSubmit (Some uid) lead st w)
           = console w ++ [("Error saving lead:", e)]
         /\ callbacks (handleSubmit (Some uid) lead st w) = callbacks w)
     \/ (console (handleSubmit (Some uid) lead st w) = console w
         /\ callbacks (handleSubmit (Some uid) lead st w)
            = callbacks w ++ [OnLeadCreated]))
    /\ ((exists e,
            console (handleDelete (Some uid) true i w)
              = console w ++ [("Error deleting lead:", e)]
            /\ callbacks (handleDelete (Some uid) true i w) = callbacks w)
        \/ (console (handleDelete (Some uid) true i w) = console w
            /\ callbacks (handleDelete (Some uid) true i w)
               = callbacks w ++ [OnLeadDeleted]))
    /\ ((exists e,
            console (handleStatusChange (Some uid) i s w)
              = console w ++ [("Error updating lead status:", e)]
            /\ callbacks (handleStatusChange (Some uid) i s w) = callbacks w)
        \/ (console (handleStatusChange (Some uid) i s w) = console w
            /\ callbacks (handleStatusChange (Some uid) i s w)
               = callbacks w ++ [OnLeadUpdated]))
    /\ handleSubmit None lead st w = w
    /\ handleDelete None true i w = w
    /\ handleDelete (Some uid) false i w = w
    /\ handleStatusChange None i s w = w.
Proof.
  intros uid lead st i s w. split; [| split; [| split]].
  - destruct lead as [l |].
    + rewrite handleSubmit_update. cbv zeta.
      destruct (online w).
      * destruct (update_lead _ _ _ _ _ _) as [[e | row] d];
          [left; now exists e | right; split; reflexivity].
      * left. now exists Unavailable.
    + destruct (handleSubmit_create_cases uid st w) as [H | [Hc [Hk _]]];
        [now left | now right].
  - rewrite handleDelete_eq. destruct (online w);
      [right; split; reflexivity | left; now exists Unavailable].
  - rewrite handleStatusChange_eq. cbv zeta. destruct (online w);
      [right; split; reflexivity | left; now exists Unavailable].
  - repeat split.
Qed.

(** X17.  Create, then the refresh it triggers.  If [handleSubmit] for a
    new lead has called onLeadCreated and the fetch of [handleLeadCreated]
    gets through, the dashboard holds the lead just created, with the
    values of the form as the columns read them and the signed-in user as
    owner, and the form is closed. *)
Theorem created_lead_is_listed_after_refresh :
  forall (uid : string) (st : FormState) (d : Dashboard) (w : World),
    callbacks (handleSubmit (Some uid) None st w)
      = callbacks w ++ [OnLeadCreated] ->
    online (handleSubmit (Some uid) None st w) = true ->
    (exists cols,
        columns (formData st) = Some cols
        /\ In (insertedLead (hd "" (uuids w)) (hd "" (clock w)) uid cols)
              (d_leads (fst (handleLeadCreated (Some uid) d
                               (handleSubmit (Some uid) None st w)))))
    /\ showForm (fst (handleLeadCreated (Some uid) d
                        (handleSubmit (Some uid) None st w)))
       = false.
Proof.
  intros uid st d w Hcb Hon. unfold handleLeadCreated. split.
  - destruct (handleSubmit_create_cases uid st w)
      as [[e [_ Hk]] | [_ [_ [cols [Hcols Hl]]]]].
    + rewrite Hk in Hcb. now apply app_one_neq in Hcb.
    + exists cols. split; [exact Hcols |].
      apply (fetched_leads_In uid (setShowForm false d) _ _ Hon).
      split; [| reflexivity].
      rewrite Hl. apply in_or_app. right. now left.
  - rewrite (fetchLeads_online uid (setShowForm false d) _ Hon).
    reflexivity.
Qed.

(* ===================================================================== *)
(** ** Toggles and the total *)
(* ===================================================================== *)

(** X18.  Selecting an item that was not selected puts its id at the end
    of the selection, so the calculator adds its price (0 for an id that
    resolves to nothing) to the subtotal of that selection as it was, in
    double arithmetic; the other subtotal is not touched. *)
Theorem toggle_on_adds_item_price :
  forall (prev other : list string) (i : string)
         (ps : list Product) (ss : list Service),
    ~ In i prev ->
    calculatedAmount (handleProductToggle i prev) other ps ss
      = ((subtotal ps prev + priceOf ps i) + subtotal ss other)%float
    /\ calculatedAmount other (handleServiceToggle i prev) ps ss
       = (subtotal ps other + (subtotal ss prev + priceOf ss i))%float.
Proof.
  intros prev other i ps ss Hi.
  apply arr_includes_not_In in Hi.
  unfold handleProductToggle, handleServiceToggle, calculatedAmount, subtotal.
  rewrite Hi, !fold_left_app. split; reflexivity.
Qed.

(* ===================================================================== *)
(** ** Updating a lead of one's own *)
(* ===================================================================== *)

Lemma handleSubmit_update_own_eq (uid : string) (l old : Lead)
    (st : FormState) (w : World) (cols : FormData) :
  leads_pk (db w) -> storedFor uid l old (db w) ->
  online w = true ->
  columns (formData st) = Some cols ->
  lead_score_check (f_lead_score (formData st)) = true ->
  handleSubmit (Some uid) (Some l) st w
  = called OnLeadCreated
      (with_db
         (with_leads
            (map (fun r => if targets uid (id l) uid r
                           then updatedLead (hd "" (clock w)) cols r
                           else r) (leads (db w))) (db w))
         (sent (snd (now w)))).
Proof.
  intros Hpk Hst Hon Hcols Hscore. rewrite handleSubmit_update. cbv zeta.
  now rewrite Hon, (update_lead_own uid _ l old _ _ Hpk Hst), Hcols,
              (columns_score _ _ Hcols), Hscore.
Qed.

(** X19.  A successful update of a lead of the signed-in user replaces the
    stored row of that lead by the values of the form as the columns read
    them (keeping id, owner and creation time) and touches nothing else:
    every other row of [leads] stays, as do both link tables; nothing is
    logged and the callback is called. *)
Theorem update_rewrites_that_lead_only :
  forall (uid : string) (l old : Lead) (st : FormState) (w : World)
         (cols : FormData),
    leads_pk (db w) -> storedFor uid l old (db w) ->
    online w = true ->
    columns (formData st) = Some cols ->
    lead_score_check (f_lead_score (formData st)) = true ->
    (forall r,
        In r (leads (db (handleSubmit (Some uid) (Some l) st w)))
        <-> r = updatedLead (hd "" (clock w)) cols old
            \/ (In r (leads (db w)) /\ r <> old))
    /\ lead_products (db (handleSubmit (Some uid) (Some l) st w))
       = lead_products (db w)
    /\ lead_services (db (handleSubmit (Some uid) (Some l) st w))
       = lead_services (db w)
    /\ console (handleSubmit (Some uid) (Some l) st w) = console w
    /\ callbacks (handleSubmit (Some uid) (Some l) st w)
       = callbacks w ++ [OnLeadCreated].
Proof.
  intros uid l old st w cols Hpk Hst Hon Hcols Hscore.
  rewrite (handleSubmit_update_own_eq uid l old st w cols Hpk Hst Hon Hcols
             Hscore).
  destruct Hst as [Hl [Hid Hu]]. rewrite <- Hid.
  unfold called, exec, call. simpl.
  split; [| repeat split].
  intros r. rewrite in_map_iff. split.
  - intros [x [Hx Hin]].
    destruct (targets uid (id old) uid x) eqn:Ht.
    + left. apply (targets_own uid old x (db w) Hpk Hl Hu Hin) in Ht.
      now subst.
    + right. subst x. split; [assumption |]. intros ->.
      rewrite (proj2 (targets_own uid old old (db w) Hpk Hl Hu Hl) eq_refl)
        in Ht.
      discriminate.
  - intros [-> | [Hin Hne]].
    + exists old. split; [| assumption].
      now rewrite (proj2 (targets_own uid old old (db w) Hpk Hl Hu Hl)
                         eq_refl).
    + exists r. split; [| assumption].
      destruct (targets uid (id old) uid r) eqn:Ht; [| reflexivity].
      exfalso. apply Hne. now apply (targets_own uid old r (db w)).
Qed.

Lemma columns_in_range (fd : FormData) (date : string) (amount : float) :
  date_in (f_follow_up_date fd) = Some date ->
  numeric_10_2 (f_potential_amount fd) = Some amount ->
  lead_score_check (f_lead_score fd) = true ->
  columns fd = Some (with_columns date amount fd).
Proof.
  intros Hd Ha Hscore. unfold columns. rewrite Hd, Ha.
  unfold lead_score_check in Hscore. unfold int4.
  apply andb_true_iff in Hscore. destruct Hscore as [H0 H100].
  apply Z.leb_le in H0, H100.
  replace (-2147483648 <=? f_lead_score fd) with true
    by (symmetry; apply Z.leb_le; lia).
  replace (f_lead_score fd <=? 2147483647) with true
    by (symmetry; apply Z.leb_le; lia).
  reflexivity.
Qed.

(** X20.  Saving the form of a stored lead of the signed-in user exactly
    as it was loaded.  If the lead has no follow-up date (null or empty),
    the form sends the empty string for it and the save is refused: the
    tables stay and the error of the [date] column is logged.  If the lead
    has a date the column reads, the save stores an empty string, 0 or
    false wherever the lead had null: phone, company, notes, location_url,
    pincode, follow_up, follow_up_notes and lead_sealed are never null
    after a save. *)
Theorem untouched_save_replaces_nulls :
  forall (uid : string) (l : Lead) (w : World),
    leads_pk (db w) -> In l (leads (db w)) -> user_id l = uid ->
    online w = true -> lead_score_check (lead_score l) = true ->
    (or_empty (follow_up_date l) = "" ->
     db (handleSubmit (Some uid) (Some l) (openForm (Some l)) w) = db w
     /\ console (handleSubmit (Some uid) (Some l) (openForm (Some l)) w)
        = console w ++ [("Error saving lead:", DataException)]
     /\ callbacks (handleSubmit (Some uid) (Some l) (openForm (Some l)) w)
        = callbacks w)
    /\ (forall date amount,
          date_in (or_empty (follow_up_date l)) = Some date ->
          numeric_10_2 (potential_amount l) = Some amount ->
          exists row,
            In row (leads (db (handleSubmit (Some uid) (Some l)
                                 (openForm (Some l)) w)))
            /\ id row = id l
            /\ formData (openForm (Some row))
               = with_columns date amount (formData (openForm (Some l)))
            /\ (full_name row = full_name l /\ email row = email l
                /\ address row = address l /\ lead_type row = lead_type l
                /\ model_type row = model_type l
                /\ lead_score row = lead_score l
                /\ status row = status l
                /\ potential_amount row = amount)
            /\ (phone row = Some (or_empty (phone l))
                /\ company row = Some (or_empty (company l))
                /\ notes row = Some (or_empty (notes l))
                /\ location_url row = Some (or_empty (location_url l))
                /\ pincode row = Some (or_zero (pincode l))
                /\ follow_up row = Some (or_false (follow_up l))
                /\ follow_up_date row = Some date
                /\ follow_up_notes row = Some (or_empty (follow_up_notes l))
                /\ lead_sealed row = Some (or_false (lead_sealed l)))).
Proof.
  intros uid l w Hpk Hl Hu Hon Hscore.
  assert (Hst : storedFor uid l l (db w)) by (repeat split; assumption).
  split.
  - intros Hdate.
    rewrite handleSubmit_update. cbv zeta.
    rewrite Hon, (update_lead_own uid _ l l _ _ Hpk Hst).
    rewrite (columns_empty_date (formData (openForm (Some l)))) by exact Hdate.
    repeat split.
  - intros date amount Hd Ha.
    pose proof (columns_in_range (formDataOfLead l) date amount Hd Ha Hscore)
      as Hcols.
    destruct (handleSubmit_update_own uid l l (openForm (Some l)) w _
                Hpk Hst Hon Hcols Hscore) as [Hrow _].
    exists (updatedLead (hd "" (clock w))
              (with_columns date amount (formDataOfLead l)) l).
    split; [exact Hrow |]. split; [reflexivity |].
    split; [simpl; apply formDataOfLead_updatedLead |].
    split; repeat split.
Qed.

(* ===================================================================== *)
(** ** The CHECK on lead_score along the handlers *)
(* ===================================================================== *)

Lemma lead_score_check_iff (score : Z) :
  lead_score_check score = true <-> 0 <= score <= 100.
Proof.
  unfold lead_score_check. rewrite andb_true_iff, !Z.leb_le. tauto.
Qed.

Lemma handleSubmit_create_out_of_range (uid : string) (st : FormState)
    (w : World) :
  lead_score_check (f_lead_score (formData st)) = false ->
  db (handleSubmit (Some uid) None st w) = db w.
Proof.
  intros H. rewrite handleSubmit_create, createLead_eq. cbv zeta.
  rewrite (insert_lead_out_of_range _ _ _ _ _ H).
  destruct (online w); reflexivity.
Qed.

(** X21.  No handler ever stores a lead_score outside [0,100]: if every
    lead of [leads] has a score in range, so has every lead after a submit
    (create or update, whatever the form holds), a delete and a status
    change. *)
Theorem handlers_keep_scores_in_range :
  forall (user : option string) (lead : option Lead) (st : FormState)
         (confirmed : bool) (i : string) (s : LeadStatus) (w : World),
    scores_checked (db w) ->
    scores_checked (db (handleSubmit user lead st w))
    /\ scores_checked (db (handleDelete user confirmed i w))
    /\ scores_checked (db (handleStatusChange user i s w)).
Proof.
  intros user lead st confirmed i s w H.
  destruct user as [uid |]; [| split; [exact H | split; exact H]].
  split; [| split].
  - destruct lead as [l |].
    + rewrite db_handleSubmit_update. destruct (online w); [| exact H].
      destruct (update_lead_db uid (hd "" (clock w)) (id l)
                  (formData st) (db w)) as [-> | [cols [_ [Hscore ->]]]];
        [exact H |].
      intros r Hr. simpl in Hr. apply In_rewritten in Hr.
      destruct Hr as [Hr | [old [_ [_ ->]]]]; [now apply H |].
      simpl. now apply lead_score_check_iff.
    + destruct (lead_score_check (f_lead_score (formData st))) eqn:Hscore.
      * intros r Hr.
        destruct (leads_handleSubmit_create uid st w)
          as [Hl | [cols [_ [Hcheck Hl]]]];
          rewrite Hl in Hr; [now apply H |].
        apply in_app_iff in Hr.
        destruct Hr as [Hr | [<- | []]]; [now apply H |].
        simpl. now apply lead_score_check_iff.
      * now rewrite (handleSubmit_create_out_of_range uid st w Hscore).
  - destruct confirmed; [| exact H].
    rewrite db_handleDelete. destruct (online w); [| exact H].
    intros r Hr. simpl in Hr. apply filter_In in Hr. now apply H.
  - rewrite db_handleStatusChange. destruct (online w); [| exact H].
    intros r Hr. simpl in Hr. apply In_rewritten in Hr.
    destruct Hr as [Hr | [old [Hold [_ ->]]]]; [now apply H |].
    simpl. now apply H.
Qed.

(* ===================================================================== *)
(** ** The range of potential_amount *)
(* ===================================================================== *)

(** X22.  An amount of 10^8 or more (or of -10^8 or less) is never stored:
    the column [decimal(10,2)] refuses it, so a create or an update with
    such an amount in the form leaves the tables as they were, logs an
    error and does not call back.  The form itself sets no upper bound on
    the amount input. *)
Theorem amount_beyond_column_is_refused :
  forall (uid : string) (lead : option Lead) (st : FormState) (w : World),
    is_finite (f_potential_amount (formData st)) = true ->
    (abs (f_potential_amount (formData st)) <? 100000000)%float = false ->
    columns (formData st) = None
    /\ db (handleSubmit (Some uid) lead st w) = db w
    /\ callbacks (handleSubmit (Some uid) lead st w) = callbacks w
    /\ (exists e, console (handleSubmit (Some uid) lead st w)
                  = console w ++ [("Error saving lead:", e)])
    /\ (online w = true -> lead = None ->
        console (handleSubmit (Some uid) lead st w)
        = console w ++ [("Error saving lead:", DataException)]).
Proof.
  intros uid lead st w Hfin Hbig.
  assert (Hcols : columns (formData st) = None).
  { unfold columns. rewrite (numeric_10_2_overflow _ Hfin Hbig).
    now destruct (date_in (f_follow_up_date (formData st))). }
  split; [exact Hcols |].
  destruct lead as [l |].
  - destruct (update_lead_refused uid (hd "" (clock w)) (id l) _ (db w) Hcols)
      as [Hdb Herr].
    destruct (handleSubmit_update_failed uid l _ w Hdb Herr) as [H1 [H2 H3]].
    repeat split; try assumption. discriminate.
  - rewrite handleSubmit_create, createLead_eq. cbv zeta.
    rewrite (insert_lead_refused _ _ _ _ _ _ Hcols).
    destruct (online w); repeat split; try (eexists; reflexivity).
    discriminate.
Qed.

(* ===================================================================== *)
(** ** Creating a lead without a follow-up *)
(* ===================================================================== *)

(** X23.  A new lead cannot be created with the follow-up box unchecked.
    After any run of form events that leaves follow_up off, the form of a
    new lead holds the empty string as follow_up_date; [handleSubmit] sends
    it, the [date] column refuses it, and nothing is stored: the tables
    stay, no link is written, the callback is not called and, when the
    request gets through, the error logged is the column's. *)
Theorem create_with_follow_up_off_is_refused :
  forall (uid : string) (evs : list FormEvent) (w : World),
    f_follow_up (formData (formRun None evs)) = false ->
    f_follow_up_date (formData (formRun None evs)) = ""
    /\ db (handleSubmit (Some uid) None (formRun None evs) w) = db w
    /\ callbacks (handleSubmit (Some uid) None (formRun None evs) w)
       = callbacks w
    /\ console (handleSubmit (Some uid) None (formRun None evs) w)
       = console w
         ++ [("Error saving lead:",
              if online w then DataException else Unavailable)].
Proof.
  intros uid evs w Hoff.
  assert (H0 : followUpCleared (formData (openForm None)))
    by (intros _; split; reflexivity).
  destruct (formRun_keeps_follow_up None evs H0 Hoff) as [Hd _].
  split; [exact Hd |].
  rewrite handleSubmit_create, createLead_eq. cbv zeta.
  rewrite (insert_lead_refused _ _ _ _ _ _ (columns_empty_date _ Hd)).
  destruct (online w); repeat split.
Qed.


End Model.

(* ===================================================================== *)
(** ** The properties on the sample data *)
(* ===================================================================== *)

#[local] Existing Instance sampleEngine.
#[local] Existing Instance samplePostgres.

Lemma sample_prices_are_numbers (p : CatalogItem) :
  In p sampleProducts \/ In p sampleServices -> is_nan (price p) = false.
Proof.
  simpl. intros [[<- | [<- | []]] | [<- | []]]; reflexivity.
Qed.

Lemma calculatedAmount_is_double_sum_of_selected_prices_witness :
  sameValueZero
    (calculatedAmount ["p-cbl"; "ghost"; "p-cbs"] ["s-inst"]
                      sampleProducts sampleServices)
    (sumPrices [compostBinLarge; compostBinSmall] + sumPrices [installation])
  /\ priceOf sampleProducts "ghost" = 0%float
  /\ sameValueZero
       (calculatedAmount ["p-cbl"; "ghost"; "p-cbs"] ["s-inst"]
                         sampleProducts sampleServices)
       (calculatedAmount ["p-cbl"; "p-cbs"] ["s-inst"]
                         sampleProducts sampleServices).
Proof.
  pose proof (calculatedAmount_is_double_sum_of_selected_prices
                ["p-cbl"; "ghost"; "p-cbs"] ["s-inst"]
                sampleProducts sampleServices sample_prices_are_numbers)
    as [Hsum [Hp [_ [Hmid _]]]].
  split; [exact Hsum |].
  split; [now apply Hp |].
  apply (Hmid ["p-cbl"] ["p-cbs"] "ghost"); reflexivity.
Defined.

(** C1 as stated fails on prices with cents.  The catalog holds the prices
    0.10, 0.20 and 0.30 (each the double nearest to the decimal).  The
    total of the first two is not the sum of the two prices: the exact sum
    of the two doubles is no double, and the total, rounded from it, is the
    double above the price 0.30 (it prints as 0.30000000000000004).  The
    order of the selection shows in the total as well: the three items add
    up to one double when selected in one order and to another in the
    reverse order. *)
Lemma calculatedAmount_is_not_the_exact_sum :
  is_finite (calculatedAmount ["p-10"; "p-20"] [] smallItems []) = true
  /\ exactlyAdds (price dime) (price twoDimes)
                 (calculatedAmount ["p-10"; "p-20"] [] smallItems [])
     = false
  /\ (calculatedAmount ["p-10"; "p-20"] [] smallItems [] =? price threeDimes)%float
     = false
  /\ (price threeDimes <? calculatedAmount ["p-10"; "p-20"] [] smallItems [])%float
     = true
  /\ (calculatedAmount ["p-10"; "p-20"; "p-30"] [] smallItems []
      =? calculatedAmount ["p-30"; "p-20"; "p-10"] [] smallItems [])%float
     = false.
Proof. repeat split; vm_compute; reflexivity. Qed.

(** Whole prices, as the migrations seed them, add up exactly. *)
Example whole_prices_add_exactly :
  calculatedAmount ["p-cbl"; "p-cbs"] ["s-inst"] sampleProducts sampleServices
  = 5700%float
  /\ exactlyAdds (price compostBinLarge) (price compostBinSmall)
                 (calculatedAmount ["p-cbl"; "p-cbs"] [] sampleProducts [])
     = true.
Proof. split; vm_compute; reflexivity. Qed.

Lemma toggle_twice_same_ids_witness :
  (In "b" (handleProductToggle "a" (handleProductToggle "a" ["a"; "b"; "a"]))
   <-> In "b" ["a"; "b"; "a"])
  /\ handleServiceToggle "c" ["a"; "b"] = ["a"; "b"; "c"]
  /\ count_occ string_dec (handleProductToggle "a" ["a"; "b"; "a"]) "a" = 0%nat.
Proof.
  split; [| split].
  - apply (proj1 (toggle_twice_same_ids ["a"; "b"; "a"] "a")).
  - apply (proj1 (proj2 (proj2 (toggle_twice_same_ids ["a"; "b"] "c")))).
    simpl. intros [H | [H | []]]; discriminate.
  - apply (proj1 (proj2 (proj2 (proj2 (toggle_twice_same_ids
                                         ["a"; "b"; "a"] "a"))))).
    simpl. tauto.
Defined.

Lemma potential_amount_written_only_for_new_lead_with_positive_total_witness :
  autoUpdateAmount None 3700 initialFormData
    = set_potential_amount 3700 initialFormData
  /\ autoUpdateAmount (Some bobsLead) 3700 (formDataOfLead bobsLead)
     = formDataOfLead bobsLead
  /\ amountReadOnly None 0 = false
  /\ f_potential_amount
       (formData (formRun (Some bobsLead)
                    [ChangeText FullName "Asha R."; ChangeFollowUp true;
                     ProductsFetched sampleProducts]))
     = 3700%float.
Proof.
  pose proof (potential_amount_written_only_for_new_lead_with_positive_total
                None 3700 initialFormData) as [_ [Hnew _]].
  pose proof (potential_amount_written_only_for_new_lead_with_positive_total
                (Some bobsLead) 3700 (formDataOfLead bobsLead))
    as [_ [_ [Hedit [_ Hrun]]]].
  pose proof (potential_amount_written_only_for_new_lead_with_positive_total
                None 0 initialFormData) as [_ [_ [_ [Hzero _]]]].
  split; [| split; [| split]].
  - apply Hnew; reflexivity.
  - apply Hedit. discriminate.
  - apply Hzero. reflexivity.
  - apply (Hrun bobsLead); [reflexivity |].
    repeat constructor.
Defined.

Lemma sampleDb_pk : leads_pk sampleDb.
Proof.
  unfold leads_pk. simpl. repeat constructor; simpl;
    intros H; repeat (destruct H as [H | H]; [discriminate |]); exact H.
Defined.

Lemma bob_is_not_alice : user_id bobsLead <> "alice".
Proof. discriminate. Defined.

Lemma foreign_lead_is_left_unchanged_witness :
  (db (handleSubmit (Some "alice") (Some bobsLead) (openForm (Some bobsLead))
         sampleWorld) = sampleDb
   /\ db (handleDelete (Some "alice") true "lead-1" sampleWorld) = sampleDb
   /\ db (handleStatusChange (Some "alice") "lead-1" New sampleWorld)
      = sampleDb)
  /\ console (handleSubmit (Some "alice") (Some bobsLead)
                (openForm (Some bobsLead)) sampleWorld)
     = [("Error saving lead:", NoRows)].
Proof.
  destruct (foreign_lead_is_left_unchanged
              "alice" bobsLead (openForm (Some bobsLead)) New sampleWorld
              sampleDb_pk (or_introl eq_refl) bob_is_not_alice)
    as [Hdb [Hreport _]].
  split; [exact Hdb |].
  exact (proj1 (proj1 (Hreport eq_refl))).
Defined.

(** C3 as stated fails: "alice" deletes, and restates, the lead of "bob";
    the lead stays, but nothing is logged and the callback of a success is
    called, so no NotFound reaches the caller. *)
Lemma foreign_delete_reports_no_error :
  In bobsLead (leads (db sampleWorld))
  /\ user_id bobsLead = "bob"
  /\ db (handleDelete (Some "alice") true (id bobsLead) sampleWorld)
     = db sampleWorld
  /\ console (handleDelete (Some "alice") true (id bobsLead) sampleWorld)
     = []
  /\ callbacks (handleDelete (Some "alice") true (id bobsLead) sampleWorld)
     = [OnLeadDeleted]
  /\ console (handleStatusChange (Some "alice") (id bobsLead) New sampleWorld)
     = []
  /\ callbacks (handleStatusChange (Some "alice") (id bobsLead) New
                  sampleWorld)
     = [OnLeadUpdated].
Proof. repeat split. now left. Qed.

Lemma bobsLead_stored : storedFor "bob" bobsLead bobsLead sampleDb.
Proof. repeat split. now left. Defined.

Lemma lead_score_out_of_range_is_rejected_witness :
  (requestSubmit true (Some "bob") (Some bobsLead) overScore sampleWorld
     = sampleWorld
   /\ db (handleSubmit (Some "bob") (Some bobsLead) overScore sampleWorld)
      = sampleDb
   /\ console (handleSubmit (Some "bob") (Some bobsLead) overScore sampleWorld)
      = [("Error saving lead:", CheckViolation)])
  /\ (requestSubmit true (Some "bob") None underScore sampleWorld
        = sampleWorld
      /\ db (handleSubmit (Some "bob") None underScore sampleWorld) = sampleDb
      /\ console (handleSubmit (Some "bob") None underScore sampleWorld)
         = [("Error saving lead:", CheckViolation)]).
Proof.
  assert (Hover : f_lead_score (formData overScore) < 0
                  \/ 100 < f_lead_score (formData overScore))
    by (right; reflexivity).
  assert (Hunder : f_lead_score (formData underScore) < 0
                   \/ 100 < f_lead_score (formData underScore))
    by (left; reflexivity).
  split.
  - destruct (lead_score_out_of_range_is_rejected
                "bob" (Some bobsLead) overScore sampleWorld Hover)
      as [Hclick [Hdb [_ [_ Hkind]]]].
    split; [apply Hclick |]. split; [exact Hdb |].
    apply Hkind; [reflexivity | vm_compute; discriminate |].
    right. exists bobsLead, bobsLead.
    repeat split; [exact sampleDb_pk | now left].
  - destruct (lead_score_out_of_range_is_rejected
                "bob" None underScore sampleWorld Hunder)
      as [Hclick [Hdb [_ [_ Hkind]]]].
    split; [apply Hclick |]. split; [exact Hdb |].
    apply Hkind; [reflexivity | vm_compute; discriminate | now left].
Defined.

Lemma update_leaves_associations_unchanged_witness :
  lead_products
    (db (handleSubmit (Some "bob") (Some bobsLead) editWithSelection
           sampleWorld))
  = lead_products sampleDb
  /\ lead_services
       (db (handleSubmit (Some "bob") (Some bobsLead) editWithSelection
              sampleWorld))
     = lead_services sampleDb.
Proof.
  apply (proj1 (update_leaves_associations_unchanged
                  (Some "bob") (Some bobsLead) editWithSelection sampleWorld)
               bobsLead eq_refl).
Defined.

(** Creating a lead with the same kind of selection does write links. *)
Example create_writes_associations :
  f_potential_amount (formData newLeadForm) = 5700%float
  /\ map id (leads (db (handleSubmit (Some "bob") None newLeadForm
                          sampleWorld)))
     = ["lead-1"; "lead-2"; "lead-3"]
  /\ lead_products (db (handleSubmit (Some "bob") None newLeadForm
                          sampleWorld))
     = [ {| link_lead := "lead-1"; link_item := "p-cbl"; quantity := 1 |};
         {| link_lead := "lead-3"; link_item := "p-cbl"; quantity := 1 |};
         {| link_lead := "lead-3"; link_item := "p-cbs"; quantity := 1 |} ]
  /\ lead_services (db (handleSubmit (Some "bob") None newLeadForm
                          sampleWorld))
     = [ {| link_lead := "lead-3"; link_item := "s-inst"; quantity := 1 |} ]
  /\ callbacks (handleSubmit (Some "bob") None newLeadForm sampleWorld)
     = [OnLeadCreated].
Proof. repeat split. Qed.

(** A service that has left the backend's catalog: the lead and its product
    links are in, the service link fails on the foreign key. *)
Lemma association_failure_keeps_lead_and_reports_error_witness :
  console (handleSubmit (Some "bob") None newLeadForm staleServiceWorld)
    = [("Error saving lead:", ForeignKeyViolation)]
  /\ callbacks (handleSubmit (Some "bob") None newLeadForm staleServiceWorld)
     = []
  /\ In (insertedLead "lead-3" "2025-07-10T08:00:00Z" "bob"
           (formData newLeadForm))
        (leads (db (handleSubmit (Some "bob") None newLeadForm
                      staleServiceWorld))).
Proof.
  edestruct (association_failure_keeps_lead_and_reports_error
               "bob" newLeadForm staleServiceWorld)
    as [_ [_ [Hc [Hk [_ [Hin _]]]]]];
    [vm_compute; reflexivity | vm_compute; reflexivity |].
  split; [exact Hc |]. split; [exact Hk | exact Hin].
Defined.

(** The same with a request lost in transport: the lead row is in, no link
    is, and the error logged is the transport's. *)
Example lost_association_request :
  console (handleSubmit (Some "bob") None newLeadForm flakyWorld)
    = [("Error saving lead:", Unavailable)]
  /\ map id (leads (db (handleSubmit (Some "bob") None newLeadForm
                          flakyWorld)))
     = ["lead-1"; "lead-2"; "lead-3"]
  /\ lead_products (db (handleSubmit (Some "bob") None newLeadForm flakyWorld))
     = lead_products sampleDb
  /\ callbacks (handleSubmit (Some "bob") None newLeadForm flakyWorld) = [].
Proof. repeat split. Qed.

Lemma bobsOtherLead_stored :
  storedFor "bob" bobsOtherLead bobsOtherLead sampleDb.
Proof. repeat split. right. now left. Defined.

(** The owner unchecks the follow-up box of a lead and saves: the lead is
    not updated. *)
Lemma follow_up_off_update_is_refused_witness :
  f_follow_up_date (formData uncheckedFollowUp) = ""
  /\ db (handleSubmit (Some "bob") (Some bobsOtherLead) uncheckedFollowUp
           sampleWorld) = sampleDb
  /\ callbacks (handleSubmit (Some "bob") (Some bobsOtherLead)
                  uncheckedFollowUp sampleWorld) = []
  /\ console (handleSubmit (Some "bob") (Some bobsOtherLead)
                uncheckedFollowUp sampleWorld)
     = [("Error saving lead:", DataException)].
Proof.
  assert (Hload : followUpCleared (formDataOfLead bobsOtherLead))
    by (intros H; discriminate H).
  destruct (follow_up_off_update_is_refused
              "bob" bobsOtherLead
              [ChangeText FollowUpNotes "send quote again";
               ChangeFollowUp false]
              sampleWorld Hload eq_refl)
    as [_ [Hdate [_ [_ [Hdb [Hk [_ Herr]]]]]]].
  split; [exact Hdate |]. split; [exact Hdb |]. split; [exact Hk |].
  exact (Herr bobsOtherLead eq_refl sampleDb_pk bobsOtherLead_stored).
Defined.

(** A lead stored with follow_up off and a follow-up date and notes, saved
    as it was loaded, is written back with follow_up = false together with
    that date and those notes: the update clears nothing. *)
Lemma update_stores_follow_up_fields_passed_in :
  f_follow_up (formData (openForm (Some bobsLead))) = false
  /\ exists row,
       In row (leads (db (handleSubmit (Some "bob") (Some bobsLead)
                            (openForm (Some bobsLead)) sampleWorld)))
       /\ id row = id bobsLead
       /\ follow_up row = Some false
       /\ follow_up_date row = Some "2025-08-01"
       /\ follow_up_notes row = Some "call back".
Proof.
  split; [reflexivity |].
  exists (updatedLead "2025-07-10T08:00:00Z" (formDataOfLead bobsLead)
            bobsLead).
  repeat split. now left.
Qed.

Lemma new_lead_amount_tracks_positive_total_witness :
  f_potential_amount
    (formData (formRun None [ChangeAmount 999;
                             ProductsFetched sampleProducts;
                             ClickProduct "p-cbl"; ChangeAmount 5;
                             ClickProduct "p-cbs"]))
  = calculatedAmount ["p-cbl"; "p-cbs"] [] sampleProducts []
  /\ amountReadOnly None
       (calculated (formRun None [ChangeAmount 999;
                                  ProductsFetched sampleProducts;
                                  ClickProduct "p-cbl"; ChangeAmount 5;
                                  ClickProduct "p-cbs"]))
     = true.
Proof.
  apply (new_lead_amount_tracks_positive_total
           [ChangeAmount 999; ProductsFetched sampleProducts;
            ClickProduct "p-cbl"; ChangeAmount 5;
            ClickProduct "p-cbs"]).
  reflexivity.
Defined.

Lemma new_lead_amount_keeps_last_total_witness :
  f_potential_amount
    (formData (formStep None
                 (formRun None [ProductsFetched sampleProducts;
                                ClickProduct "p-cbl"])
                 (ClickProduct "p-cbl")))
  = 2500%float
  /\ amountReadOnly None
       (calculated (formStep None
                      (formRun None [ProductsFetched sampleProducts;
                                     ClickProduct "p-cbl"])
                      (ClickProduct "p-cbl")))
     = false.
Proof.
  apply (new_lead_amount_keeps_last_total
           [ProductsFetched sampleProducts; ClickProduct "p-cbl"]
           (ClickProduct "p-cbl")); reflexivity.
Defined.

Example form_selections_after_clicks :
  selectedProducts
    (formRun None [ProductsFetched sampleProducts; ClickProduct "p-cbl";
                   ClickProduct "p-cbs"; ClickProduct "p-cbl";
                   ClickProduct "p-cbl"; ClickProduct "p-none"])
  = ["p-cbs"; "p-cbl"]
  /\ selectedProducts
       (formRun (Some bobsLead)
          [ProductsFetched sampleProducts; ClickProduct "p-cbl"])
     = [].
Proof. split; reflexivity. Qed.

Lemma form_selections_never_repeat_witness :
  NoDup (selectedProducts
           (formRun None [ProductsFetched sampleProducts;
                          ClickProduct "p-cbl"; ClickProduct "p-cbs";
                          ClickProduct "p-cbl"; ClickProduct "p-cbl"]))
  /\ calculated (formRun (Some bobsLead)
                   [ProductsFetched sampleProducts; ClickProduct "p-cbl"])
     = 0%float.
Proof.
  split.
  - apply (proj1 (form_selections_never_repeat
                    None [ProductsFetched sampleProducts;
                          ClickProduct "p-cbl"; ClickProduct "p-cbs";
                          ClickProduct "p-cbl"; ClickProduct "p-cbl"])).
  - apply (proj2 (proj2 (form_selections_never_repeat
                           (Some bobsLead)
                           [ProductsFetched sampleProducts;
                            ClickProduct "p-cbl"]))
                 bobsLead eq_refl).
Defined.


Lemma alice_is_not_bob : user_id alicesLead <> "bob".
Proof. discriminate. Defined.

Lemma handlers_leave_other_users_leads_witness :
  (In alicesLead
     (leads (db (handleSubmit (Some "bob") (Some bobsOtherLead)
                   (openForm (Some bobsOtherLead)) sharedWorld)))
   <-> In alicesLead (leads (db sharedWorld)))
  /\ (In alicesLead
        (leads (db (handleDelete (Some "bob") true "lead-9" sharedWorld)))
      <-> In alicesLead (leads (db sharedWorld)))
  /\ (In alicesLead
        (leads (db (handleStatusChange (Some "bob") "lead-9" Closed
                      sharedWorld)))
      <-> In alicesLead (leads (db sharedWorld))).
Proof.
  apply (handlers_leave_other_users_leads
           "bob" (Some bobsOtherLead) (openForm (Some bobsOtherLead))
           true "lead-9" Closed sharedWorld alicesLead alice_is_not_bob).
Defined.

Lemma sharedDb_coupled : coupled sharedDb.
Proof.
  intros r [<- | [<- | []]] H; [discriminate H | split; reflexivity].
Defined.

Lemma application_keeps_follow_up_coupling_witness :
  coupled (db (handleSubmit (Some "bob") None
                 (formRun None [ChangeText FullName "Meera";
                                ChangeText Email "m@example.org";
                                ChangeText Address "9 Park Lane";
                                ChangeFollowUp true;
                                ChangeText FollowUpDate "2025-09-01";
                                ChangeText FollowUpNotes "ring at noon"])
                 sharedWorld))
  /\ coupled (db (handleDelete (Some "bob") true "lead-2" sharedWorld)).
Proof.
  destruct (application_keeps_follow_up_coupling
              (Some "bob")
              [ChangeText FullName "Meera"; ChangeText Email "m@example.org";
               ChangeText Address "9 Park Lane";
               ChangeFollowUp true; ChangeText FollowUpDate "2025-09-01";
               ChangeText FollowUpNotes "ring at noon"]
              sharedWorld sharedDb_coupled) as [Hc [_ [_ Hd]]].
  split; [exact Hc | exact (Hd true "lead-2")].
Defined.

Lemma saved_lead_reopens_as_stored_witness :
  exists row,
    In row (leads (db (handleSubmit (Some "bob") (Some bobsLead)
                         (formRun (Some bobsLead)
                            [ChangeText Phone "555-0100";
                             ChangeChoice (SetStatus InProgress)])
                         sampleWorld)))
    /\ id row = "lead-1" /\ user_id row = "bob"
    /\ created_at row = "2025-07-09T09:00:00Z"
    /\ formData (openForm (Some row))
       = with_columns "2025-08-01" 3700
           (formData (formRun (Some bobsLead)
                        [ChangeText Phone "555-0100";
                         ChangeChoice (SetStatus InProgress)])).
Proof.
  apply (proj2 (saved_lead_reopens_as_stored
                  "bob"
                  (formRun (Some bobsLead)
                     [ChangeText Phone "555-0100";
                      ChangeChoice (SetStatus InProgress)])
                  sampleWorld) bobsLead bobsLead "2025-08-01" 3700%float
               sampleDb_pk bobsLead_stored); reflexivity.
Defined.

Lemma sharedDb_constraints : constraints sharedDb.
Proof.
  unfold constraints, leads_pk, links_ref_leads, links_ref_catalog,
    links_unique. simpl.
  repeat split;
    try (repeat constructor; simpl;
         intros H; repeat (destruct H as [H | H]; [discriminate |]);
         exact H);
    intros l H; repeat (destruct H as [H | H]); subst; simpl; tauto.
Defined.

Lemma handlers_keep_table_keys_witness :
  constraints (db (handleSubmit (Some "bob") None newLeadForm sharedWorld))
  /\ constraints (db (handleDelete (Some "bob") true "lead-2" sharedWorld))
  /\ constraints
       (db (handleStatusChange (Some "bob") "lead-2" Closed sharedWorld)).
Proof.
  apply (handlers_keep_table_keys
           (Some "bob") None newLeadForm true "lead-2" Closed sharedWorld
           sharedDb_constraints).
Defined.

Example delete_cascades :
  leads (db (handleDelete (Some "bob") true "lead-2" sharedWorld))
    = [alicesLead]
  /\ lead_products (db (handleDelete (Some "bob") true "lead-2" sharedWorld))
     = [ {| link_lead := "lead-9"; link_item := "p-cbs"; quantity := 1 |} ]
  /\ lead_services (db (handleDelete (Some "bob") true "lead-2" sharedWorld))
     = [].
Proof. repeat split. Qed.

Lemma bobsOtherLead_in_sharedDb : In bobsOtherLead (leads sharedDb).
Proof. now left. Defined.

Lemma delete_removes_lead_and_its_links_witness :
  (In alicesLead
     (leads (db (handleDelete (Some "bob") true "lead-2" sharedWorld)))
   <-> In alicesLead (leads sharedDb) /\ alicesLead <> bobsOtherLead)
  /\ callbacks (handleDelete (Some "bob") true "lead-2" sharedWorld)
     = [OnLeadDeleted].
Proof.
  destruct (delete_removes_lead_and_its_links
              "bob" bobsOtherLead sharedWorld
              (proj1 sharedDb_constraints) bobsOtherLead_in_sharedDb
              eq_refl eq_refl) as [Hrows [_ [_ [_ Hcall]]]].
  split; [exact (Hrows alicesLead) | exact Hcall].
Defined.

Lemma status_change_rewrites_status_only_witness :
  (In alicesLead
     (leads (db (handleStatusChange (Some "bob") "lead-2" Closed
                   sharedWorld)))
   <-> alicesLead = restatedLead "2025-07-10T08:00:00Z" Closed bobsOtherLead
       \/ (In alicesLead (leads sharedDb) /\ alicesLead <> bobsOtherLead))
  /\ callbacks (handleStatusChange (Some "bob") "lead-2" Closed sharedWorld)
     = [OnLeadUpdated].
Proof.
  destruct (status_change_rewrites_status_only
              "bob" bobsOtherLead Closed sharedWorld
              (proj1 sharedDb_constraints) bobsOtherLead_in_sharedDb
              eq_refl eq_refl) as [Hrows [_ [_ [_ [_ [_ Hcall]]]]]].
  split; [exact (Hrows alicesLead) | exact Hcall].
Defined.

Example status_change_any_to_any :
  status (restatedLead "2025-07-10T08:00:00Z" Closed bobsOtherLead) = Closed
  /\ In (restatedLead "2025-07-10T08:00:00Z" Closed bobsOtherLead)
        (leads (db (handleStatusChange (Some "bob") "lead-2" Closed
                      sharedWorld)))
  /\ In (restatedLead "2025-07-10T08:05:00Z" New
           (restatedLead "2025-07-10T08:00:00Z" Closed bobsOtherLead))
        (leads (db (handleStatusChange (Some "bob") "lead-2" New
                      (handleStatusChange (Some "bob") "lead-2" Closed
                         sharedWorld)))).
Proof. repeat split; now left. Qed.

Lemma sharedWorld_delivered : delivered sharedWorld.
Proof.
  intros ok H. simpl in H.
  repeat (destruct H as [H | H]; [now symmetry |]). contradiction.
Defined.

Lemma newLeadForm_columns :
  columns (formData newLeadForm) = Some (formData newLeadForm).
Proof. vm_compute. reflexivity. Defined.

Lemma create_stores_lead_and_every_association_witness :
  leads (db (handleSubmit (Some "alice") None newLeadForm sharedWorld))
    = leads (db sharedWorld)
      ++ [insertedLead (hd "" (uuids sharedWorld))
            (hd "" (clock sharedWorld)) "alice" (formData newLeadForm)]
  /\ lead_products (db (handleSubmit (Some "alice") None newLeadForm
                          sharedWorld))
     = lead_products (db sharedWorld)
       ++ map (fun i => {| link_lead := hd "" (uuids sharedWorld);
                           link_item := i; quantity := 1 |})
              (selectedProducts newLeadForm)
  /\ lead_services (db (handleSubmit (Some "alice") None newLeadForm
                          sharedWorld))
     = lead_services (db sharedWorld)
       ++ map (fun i => {| link_lead := hd "" (uuids sharedWorld);
                           link_item := i; quantity := 1 |})
              (selectedServices newLeadForm)
  /\ console (handleSubmit (Some "alice") None newLeadForm sharedWorld)
     = console sharedWorld
  /\ callbacks (handleSubmit (Some "alice") None newLeadForm sharedWorld)
     = callbacks sharedWorld ++ [OnLeadCreated].
Proof.
  apply (create_stores_lead_and_every_association
           "alice" newLeadForm sharedWorld (formData newLeadForm)
           sharedWorld_delivered newLeadForm_columns).
  - vm_compute. reflexivity.
  - vm_compute. intros H.
    repeat (destruct H as [H | H]; [discriminate |]). exact H.
  - intros k H. vm_compute in H. vm_compute.
    destruct H as [H | H];
      repeat (destruct H as [<- | H]; [discriminate |]); contradiction.
  - vm_compute. repeat constructor; intros H;
      repeat (destruct H as [H | H]; [discriminate |]); exact H.
  - vm_compute. repeat constructor; intros H; exact H.
  - intros i H. vm_compute in H. vm_compute.
    repeat (destruct H as [<- | H]; [tauto |]). contradiction.
  - intros i H. vm_compute in H. vm_compute.
    repeat (destruct H as [<- | H]; [tauto |]). contradiction.
Defined.

Lemma fetched_stats_partition_the_leads_witness :
  total (stats (fst (fetchLeads (Some "bob") closedAgents sampleWorld)))
    = Z.of_nat
        (List.length
           (d_leads (fst (fetchLeads (Some "bob") closedAgents sampleWorld))))
  /\ total (stats (fst (fetchLeads (Some "bob") closedAgents sampleWorld)))
     = new_count (stats (fst (fetchLeads (Some "bob") closedAgents
                                sampleWorld)))
       + contacted (stats (fst (fetchLeads (Some "bob") closedAgents
                                  sampleWorld)))
       + closed (stats (fst (fetchLeads (Some "bob") closedAgents
                               sampleWorld)))
  /\ Z.of_nat
       (List.length
          (filteredLeads (fst (fetchLeads (Some "bob") closedAgents
                                 sampleWorld))))
     <= total (stats (fst (fetchLeads (Some "bob") closedAgents
                             sampleWorld))).
Proof.
  apply (fetched_stats_partition_the_leads "bob" closedAgents sampleWorld).
  reflexivity.
Defined.

Example stats_ignore_filters :
  stats (fst (fetchLeads (Some "bob") closedAgents sampleWorld))
    = {| total := 2; new_count := 1; contacted := 0; closed := 1 |}
  /\ List.length
       (filteredLeads (fst (fetchLeads (Some "bob") closedAgents
                              sampleWorld)))
     = 1%nat.
Proof. split; reflexivity. Qed.

Lemma fetch_failure_keeps_what_is_shown_witness :
  d_leads (fst (fetchLeads (Some "bob") bobsDashboard offlineWorld))
    = [bobsOtherLead]
  /\ stats (fst (fetchLeads (Some "bob") bobsDashboard offlineWorld))
     = stats bobsDashboard
  /\ filteredLeads (fst (fetchLeads (Some "bob") bobsDashboard offlineWorld))
     = filteredLeads bobsDashboard
  /\ console (snd (fetchLeads (Some "bob") bobsDashboard offlineWorld))
     = console offlineWorld ++ [("Error fetching leads:", Unavailable)].
Proof.
  apply (proj2 (fetch_failure_keeps_what_is_shown
                  "bob" bobsDashboard offlineWorld)).
  reflexivity.
Defined.

Lemma search_ignores_case_of_term_witness :
  filteredLeads (setSearchTerm "KIRAN@example" (fetched [alicesLead;
                                                          bobsOtherLead]
                                                  emptyDashboard))
  = filteredLeads (setSearchTerm "kiran@EXAMPLE" (fetched [alicesLead;
                                                            bobsOtherLead]
                                                    emptyDashboard)).
Proof.
  apply (search_ignores_case_of_term
           (fetched [alicesLead; bobsOtherLead] emptyDashboard)
           "KIRAN@example" "kiran@EXAMPLE"); reflexivity.
Defined.

Example search_by_email_any_case :
  filteredLeads (setSearchTerm "kiran@EXAMPLE"
                   (fetched [alicesLead; bobsOtherLead] emptyDashboard))
  = [alicesLead].
Proof. reflexivity. Qed.

Lemma lost_is_set : "Lost" <> "".
Proof. discriminate. Defined.

Lemma filters_keep_exactly_the_matching_leads_witness :
  filteredLeads (setFilterStatus "Lost" (fetched [alicesLead; bobsOtherLead]
                                            emptyDashboard))
  = [].
Proof.
  apply (proj1 (proj2 (proj2 (proj2
           (filters_keep_exactly_the_matching_leads
              (fetched [alicesLead; bobsOtherLead] emptyDashboard)
              "Lost" lost_is_set)))));
    discriminate.
Defined.

Lemma deleted_lead_is_gone_after_refresh_witness :
  ~ In bobsOtherLead
      (filteredLeads (fst (handleLeadDeleted (Some "bob") bobsDashboard
                             (handleDelete (Some "bob") true "lead-2"
                                sharedWorld))))
  /\ callbacks (handleDelete (Some "bob") true "lead-2" sharedWorld)
     = callbacks sharedWorld ++ [OnLeadDeleted].
Proof.
  apply (proj2 (deleted_lead_is_gone_after_refresh
                  "bob" bobsOtherLead bobsDashboard sharedWorld
                  (proj1 sharedDb_constraints) bobsOtherLead_in_sharedDb
                  eq_refl sharedWorld_delivered)).
Defined.

(** A new lead with the follow-up box checked and a date chosen is created
    and shown after the refresh. *)
Lemma created_lead_is_listed_after_refresh_witness :
  f_follow_up (formData newLeadForm) = true
  /\ f_follow_up_date (formData newLeadForm) = "2025-08-20"
  /\ (exists cols,
         columns (formData newLeadForm) = Some cols
         /\ In (insertedLead (hd "" (uuids sharedWorld))
                  (hd "" (clock sharedWorld)) "alice" cols)
               (d_leads (fst (handleLeadCreated (Some "alice") emptyDashboard
                                (handleSubmit (Some "alice") None newLeadForm
                                   sharedWorld)))))
  /\ showForm (fst (handleLeadCreated (Some "alice") emptyDashboard
                      (handleSubmit (Some "alice") None newLeadForm
                         sharedWorld)))
     = false.
Proof.
  split; [reflexivity |]. split; [reflexivity |].
  apply (created_lead_is_listed_after_refresh
           "alice" newLeadForm emptyDashboard sharedWorld).
  - vm_compute. reflexivity.
  - vm_compute. reflexivity.
Defined.

Lemma toggle_on_adds_item_price_witness :
  calculatedAmount (handleProductToggle "p-cbs" ["p-cbl"]) ["s-inst"]
                   sampleProducts sampleServices
  = ((subtotal sampleProducts ["p-cbl"] + priceOf sampleProducts "p-cbs")
     + subtotal sampleServices ["s-inst"])%float
  /\ calculatedAmount ["p-cbl"] (handleServiceToggle "s-inst" [])
                      sampleProducts sampleServices
     = (subtotal sampleProducts ["p-cbl"]
        + (subtotal sampleServices [] + priceOf sampleServices "s-inst"))%float.
Proof.
  split.
  - apply (proj1 (toggle_on_adds_item_price ["p-cbl"] ["s-inst"] "p-cbs"
                    sampleProducts sampleServices
                    ltac:(simpl; intros [H | []]; discriminate H))).
  - apply (proj2 (toggle_on_adds_item_price [] ["p-cbl"] "s-inst"
                    sampleProducts sampleServices
                    ltac:(simpl; intros [])) ).
Defined.

Example select_two_then_drop_one :
  calculatedAmount (handleProductToggle "p-cbs" ["p-cbl"]) ["s-inst"]
                   sampleProducts sampleServices = 5700%float
  /\ calculatedAmount (handleProductToggle "p-cbl" ["p-cbl"; "p-cbs"]) []
                      sampleProducts sampleServices = 1200%float.
Proof. split; reflexivity. Qed.

Lemma bobsLead_in_sampleDb : In bobsLead (leads (db sampleWorld)).
Proof. now left. Defined.

Lemma update_rewrites_that_lead_only_witness :
  (In bobsOtherLead
     (leads (db (handleSubmit (Some "bob") (Some bobsLead)
                   (openForm (Some bobsLead)) sampleWorld)))
   <-> bobsOtherLead
       = updatedLead (hd "" (clock sampleWorld))
           (formData (openForm (Some bobsLead))) bobsLead
       \/ (In bobsOtherLead (leads (db sampleWorld))
           /\ bobsOtherLead <> bobsLead))
  /\ callbacks (handleSubmit (Some "bob") (Some bobsLead)
                  (openForm (Some bobsLead)) sampleWorld)
     = [OnLeadCreated].
Proof.
  assert (Hcols : columns (formData (openForm (Some bobsLead)))
                  = Some (formData (openForm (Some bobsLead))))
    by (vm_compute; reflexivity).
  destruct (update_rewrites_that_lead_only
              "bob" bobsLead bobsLead (openForm (Some bobsLead)) sampleWorld
              (formData (openForm (Some bobsLead)))
              sampleDb_pk bobsLead_stored eq_refl Hcols eq_refl)
    as [Hrows [_ [_ [_ Hcall]]]].
  split; [exact (Hrows bobsOtherLead) | exact Hcall].
Defined.

Lemma alicesLead_in_sharedDb : In alicesLead (leads (db sharedWorld)).
Proof. right. now left. Defined.

(** "bob" saves a lead with a follow-up date untouched: its nulls become
    empty values.  "alice" saves a lead without a follow-up date
    untouched: the save is refused. *)
Lemma untouched_save_replaces_nulls_witness :
  (exists row,
      In row (leads (db (handleSubmit (Some "bob") (Some bobsLead)
                           (openForm (Some bobsLead)) sampleWorld)))
      /\ id row = id bobsLead
      /\ phone row = Some ""
      /\ pincode row = Some 0
      /\ lead_sealed row = Some false
      /\ follow_up_date row = Some "2025-08-01")
  /\ db (handleSubmit (Some "alice") (Some alicesLead)
           (openForm (Some alicesLead)) sharedWorld)
     = sharedDb
  /\ console (handleSubmit (Some "alice") (Some alicesLead)
                (openForm (Some alicesLead)) sharedWorld)
     = [("Error saving lead:", DataException)].
Proof.
  split.
  - assert (Hd : date_in (or_empty (follow_up_date bobsLead))
                 = Some "2025-08-01") by reflexivity.
    assert (Ha : numeric_10_2 (potential_amount bobsLead) = Some 3700%float)
      by reflexivity.
    destruct (proj2 (untouched_save_replaces_nulls
                       "bob" bobsLead sampleWorld sampleDb_pk
                       bobsLead_in_sampleDb eq_refl eq_refl eq_refl)
                    "2025-08-01" 3700%float Hd Ha)
      as [row [Hin [Hid [_ [_ [Hp [_ [_ [_ [Hpin [_ [Hdate [_ Hsealed]]]]]]]]]]]]].
    exists row. repeat split; assumption.
  - destruct (proj1 (untouched_save_replaces_nulls
                       "alice" alicesLead sharedWorld
                       (proj1 sharedDb_constraints) alicesLead_in_sharedDb
                       eq_refl eq_refl eq_refl) eq_refl)
      as [Hdb [Hcons _]].
    split; [exact Hdb | exact Hcons].
Defined.

Lemma sharedDb_scores_checked : scores_checked sharedDb.
Proof.
  intros r [<- | [<- | []]]; simpl; lia.
Defined.

Lemma handlers_keep_scores_in_range_witness :
  scores_checked (db (handleSubmit (Some "bob") (Some bobsOtherLead)
                        overScore sharedWorld))
  /\ scores_checked (db (handleDelete (Some "bob") true "lead-2"
                           sharedWorld))
  /\ scores_checked (db (handleStatusChange (Some "bob") "lead-2" Closed
                           sharedWorld)).
Proof.
  apply (handlers_keep_scores_in_range
           (Some "bob") (Some bobsOtherLead) overScore true "lead-2" Closed
           sharedWorld sharedDb_scores_checked).
Defined.

Lemma amount_beyond_column_is_refused_witness :
  f_potential_amount (formData overAmount) = 100000000%float
  /\ db (handleSubmit (Some "bob") (Some bobsLead) overAmount sampleWorld)
     = sampleDb
  /\ callbacks (handleSubmit (Some "bob") (Some bobsLead) overAmount
                  sampleWorld)
     = [].
Proof.
  split; [reflexivity |].
  destruct (amount_beyond_column_is_refused
              "bob" (Some bobsLead) overAmount sampleWorld eq_refl eq_refl)
    as [_ [Hdb [Hk _]]].
  split; [exact Hdb | exact Hk].
Defined.

Example amount_beyond_column :
  console (handleSubmit (Some "bob") (Some bobsLead) overAmount sampleWorld)
  = [("Error saving lead:", DataException)].
Proof. reflexivity. Qed.

Lemma filteredLeads_without_filters_is_identity_witness :
  filteredLeads (fetched [bobsOtherLead; bobsLead] emptyDashboard)
  = [bobsOtherLead; bobsLead].
Proof.
  apply (filteredLeads_without_filters_is_identity
           (fetched [bobsOtherLead; bobsLead] emptyDashboard));
    reflexivity.
Defined.

Lemma list_is_owner_leads_passing_filters_by_score_desc_witness :
  online sampleWorld = true
  /\ StronglySorted scoreDesc
       (filteredLeads (fst (fetchLeads (Some "bob") emptyDashboard sampleWorld)))
  /\ (In bobsLead
        (filteredLeads (fst (fetchLeads (Some "bob") closedAgents sampleWorld)))
      <-> In bobsLead (leads (db sampleWorld)) /\ user_id bobsLead = "bob"
          /\ filtersIgnoringCase "" "Closed" "Agent" "" bobsLead).
Proof.
  split; [reflexivity |].
  destruct (list_is_owner_leads_passing_filters_by_score_desc
              "bob" emptyDashboard sampleWorld eq_refl)
    as [_ [_ [_ [Hsorted _]]]].
  destruct (list_is_owner_leads_passing_filters_by_score_desc
              "bob" closedAgents sampleWorld eq_refl)
    as [_ [_ [Hascii _]]].
  split; [exact Hsorted |].
  exact (Hascii eq_refl bobsLead eq_refl).
Defined.

Example list_closed_agents :
  filteredLeads (fst (fetchLeads (Some "bob") closedAgents sampleWorld))
  = [bobsLead]
  /\ filteredLeads (fst (fetchLeads (Some "bob") emptyDashboard sampleWorld))
     = [bobsOtherLead; bobsLead]
  /\ filteredLeads (fst (fetchLeads (Some "alice") emptyDashboard sampleWorld))
     = [].
Proof. repeat split. Qed.

(** C6 as stated fails beyond ASCII.  The company of a lead of "bob" is
    written in Greek capitals and ends in a capital sigma.  The search term
    is that capital sigma: it occurs in the company as it is written, and
    so is a substring of it however case is treated.  The lower-case form
    of the company ends in a final sigma, the lower-case form of the term
    is the other small sigma, and the lead is not listed. *)
Lemma search_misses_substring_in_other_case :
  In odosLead (leads (db odosWorld))
  /\ user_id odosLead = "bob"
  /\ company odosLead = Some "ΟΔΟΣ"
  /\ includes "ΟΔΟΣ" "Σ" = true
  /\ ciSubstring "Σ" "ΟΔΟΣ"
  /\ toLowerCase "ΟΔΟΣ" = "οδος"
  /\ toLowerCase "Σ" = "σ"
  /\ filteredLeads
       (fst (fetchLeads (Some "bob") (setSearchTerm "Σ" emptyDashboard)
               odosWorld))
     = [].
Proof.
  split; [right; now left |]. split; [reflexivity |].
  split; [reflexivity |]. split; [reflexivity |].
  split; [exists "ΟΔΟ", "Σ", ""; split; reflexivity |].
  repeat split.
Qed.

Lemma create_with_follow_up_off_is_refused_witness :
  f_follow_up_date (formData undatedLeadForm) = ""
  /\ db (handleSubmit (Some "bob") None undatedLeadForm sampleWorld)
     = sampleDb
  /\ callbacks (handleSubmit (Some "bob") None undatedLeadForm sampleWorld)
     = []
  /\ console (handleSubmit (Some "bob") None undatedLeadForm sampleWorld)
     = [("Error saving lead:", DataException)].
Proof.
  apply (create_with_follow_up_off_is_refused
           "bob"
           [ProductsFetched sampleProducts; ServicesFetched sampleServices;
            ClickProduct "p-cbl"; ClickProduct "p-cbs";
            ClickService "s-inst";
            ChangeText FullName "Meera"; ChangeText Email "m@example.org";
            ChangeText Address "9 Park Lane"]
           sampleWorld).
  reflexivity.
Defined.
